(** * OCD file export (OpenOrienteering Mapper, [fileformats/ocd_file_export.cpp])

    A shallow embedding of the export codec, followed by the properties of
    it that the specification states.  Integer types are modelled as [Z]
    with the wrap-around of the C++ type written out, byte arrays as lists
    of bytes, the exporter's members as an explicit state record threaded
    through a state-and-exception monad, and the symbol-number table
    ([std::unordered_map<const Symbol*, quint32>]) as a [gmap] keyed by the
    symbol's address.

    Part I holds the model, Part II the lemmas and theorems. *)

From Stdlib Require Import ZArith Lia List Bool.
From stdpp Require Import gmap strings list fin_maps pretty.

Local Open Scope Z_scope.

(** * Part I: the model *)

(** ** Fixed-width integers *)

Module Int.

(** Conversion to [quint32], [quint16] and [quint8]: reduction modulo [2^w]. *)
Definition quint32 (z : Z) : Z := z mod 2 ^ 32.
Definition quint16 (z : Z) : Z := z mod 2 ^ 16.
Definition quint8 (z : Z) : Z := z mod 2 ^ 8.

(** Conversion to [qint32] and [qint16]: two's complement. *)
Definition qint32 (z : Z) : Z := (z + 2 ^ 31) mod 2 ^ 32 - 2 ^ 31.
Definition qint16 (z : Z) : Z := (z + 2 ^ 15) mod 2 ^ 16 - 2 ^ 15.

(** Conversion to an integer type whose values are [lo .. hi]. *)
Definition wrap (lo hi z : Z) : Z := lo + (z - lo) mod (hi - lo + 1).

(** Conversion to [std::size_t], the type of [sizeof]. *)
Definition size_t (z : Z) : Z := z mod 2 ^ 64.

End Int.

(** ** Numeric conversion layer *)

(** [constexpr qint32 convertPointMember(qint32 value)].  C++ [/] on
    integers truncates towards zero ([Z.quot]).  The additions [value-4]
    and [value+5] are [int] additions; they do not overflow for
    [-2^31+4 <= value <= 2^31-6]. *)
Definition convertPointMember (value : Z) : Z :=
  if value <? -5
  then Int.qint32
         (Z.lor 0x80000000
            (Z.shiftl (Z.land 0x7fffff (Int.quint32 ((value - 4) ÷ 10))) 8))
  else Int.qint32
         (Z.shiftl (Z.land 0x7fffff (Int.quint32 ((value + 5) ÷ 10))) 8).

(** [constexpr qint16 convertSize(qint32 size)] and
    [constexpr qint32 convertSize(qint64 size)]. *)
Definition convertSize (size : Z) : Z := Int.qint16 ((size + 5) ÷ 10).
Definition convertSize64 (size : Z) : Z := Int.qint32 ((size + 5) ÷ 10).

(** The largest and the smallest coordinate whose tenth fits the signed
    24-bit value field of an [OcdPoint32] member. *)
Definition pointMember_min : Z := -83886085.
Definition pointMember_max : Z := 83886074.

(** ** Palette quantizer *)

(** Qt's colour helpers from [qrgb.h], as Qt documents them. *)
Module Qt.

Definition qRgb (r g b : Z) : Z :=
  Z.lor (Z.shiftl 0xff 24)
    (Z.lor (Z.shiftl (Z.land r 0xff) 16)
       (Z.lor (Z.shiftl (Z.land g 0xff) 8) (Z.land b 0xff))).

Definition qRed (rgb : Z) : Z := Z.land (Z.shiftr rgb 16) 0xff.
Definition qGreen (rgb : Z) : Z := Z.land (Z.shiftr rgb 8) 0xff.
Definition qBlue (rgb : Z) : Z := Z.land rgb 0xff.
Definition qAlpha (rgb : Z) : Z := Z.shiftr rgb 24.

(** [qGray(r, g, b) = (r*11 + g*16 + b*5)/32]. *)
Definition qGray (rgb : Z) : Z :=
  (qRed rgb * 11 + qGreen rgb * 16 + qBlue rgb * 5) ÷ 32.

(** What the exporter reads from a [QColor] in HSV form: [hue()],
    [saturation()] and [value()]. *)
Record Hsv := mkHsv { hue : Z; saturation : Z; value : Z }.

(** [qRound] on a non-negative fraction [n/d]. *)
Definition qRound_frac (n d : Z) : Z := (2 * n + d) / (2 * d).

(** An exact-arithmetic rendering of [QColor(rgb).toHsv()], which Qt
    computes on 16-bit channels in floating point. *)
Definition hsv_of_rgb (rgb : Z) : Hsv :=
  let r := qRed rgb * 257 in
  let g := qGreen rgb * 257 in
  let b := qBlue rgb * 257 in
  let mx := Z.max r (Z.max g b) in
  let mn := Z.min r (Z.min g b) in
  let delta := mx - mn in
  if delta =? 0 then mkHsv (-1) 0 (Z.shiftr mx 8)
  else
    let sat := qRound_frac (delta * 65535) mx in
    let h6000 := (* hue in hundredths of a degree, times delta *)
      if r =? mx then 6000 * (g - b)
      else if g =? mx then 12000 * delta + 6000 * (b - r)
      else 24000 * delta + 6000 * (r - g) in
    let h6000 := if h6000 <? 0 then h6000 + 36000 * delta else h6000 in
    mkHsv (qRound_frac h6000 delta / 100) (Z.shiftr sat 8) (Z.shiftr mx 8).

End Qt.

Definition sq (n : Z) : Z := n * n.

(** The search loops of both quantizers: keep the first candidate whose
    distance is strictly smaller than the best one so far. *)
Definition scan_step (distance : Z -> Z) (acc : Z * Z) (i : Z) : Z * Z :=
  if distance i <? snd acc then (i, distance i) else acc.

Definition scan (distance : Z -> Z) (candidates : list Z) (init : Z * Z) : Z * Z :=
  fold_left (scan_step distance) candidates init.

Module V6.

(** [struct PaletteColor { int hue; int saturation; int value; }] and the
    table [palette[16]] of [getPaletteColorV6]. *)
Definition palette : list Qt.Hsv :=
  [ Qt.mkHsv (-1) 0 0;
    Qt.mkHsv 0 255 128;
    Qt.mkHsv 120 255 128;
    Qt.mkHsv 60 255 128;
    Qt.mkHsv 240 255 128;
    Qt.mkHsv 300 255 128;
    Qt.mkHsv 180 255 128;
    Qt.mkHsv (-1) 0 128;
    Qt.mkHsv (-1) 0 192;
    Qt.mkHsv 0 255 255;
    Qt.mkHsv 120 255 255;
    Qt.mkHsv 60 255 255;
    Qt.mkHsv 240 255 255;
    Qt.mkHsv 300 255 255;
    Qt.mkHsv 180 255 255;
    Qt.mkHsv (-1) 0 255 ].

(** [original_palette[16]], the RGB colours from which the source
    generated [palette] (the disabled [generate] block). *)
Definition original_palette : list Z :=
  [ Qt.qRgb 0 0 0;
    Qt.qRgb 128 0 0;
    Qt.qRgb 0 128 0;
    Qt.qRgb 128 128 0;
    Qt.qRgb 0 0 128;
    Qt.qRgb 128 0 128;
    Qt.qRgb 0 128 128;
    Qt.qRgb 128 128 128;
    Qt.qRgb 192 192 192;
    Qt.qRgb 255 0 0;
    Qt.qRgb 0 255 0;
    Qt.qRgb 255 255 0;
    Qt.qRgb 0 0 255;
    Qt.qRgb 255 0 255;
    Qt.qRgb 0 255 255;
    Qt.qRgb 255 255 255 ].

Definition palette_at (i : Z) : Qt.Hsv :=
  nth (Z.to_nat i) palette (Qt.mkHsv 0 0 0).

(** The candidate order of the [for] loop. *)
Definition candidates : list Z := [1; 2; 3; 4; 5; 6; 9; 10; 11; 12; 13; 14].

(** The manual multipliers. *)
Definition tweak (i : Z) : Z :=
  if i =? 1 then 3
  else if i =? 3 then 4
  else if i =? 11 then 4
  else if i =? 9 then 6
  else 2.

Definition distance (color : Qt.Hsv) (i : Z) : Z :=
  let palette_color := palette_at i in
  let hue_dist := Z.abs (Qt.hue color - Qt.hue palette_color) in
  (10 * sq (Z.min hue_dist (360 - hue_dist))
   + sq (Qt.saturation color - Qt.saturation palette_color)
   + sq (Qt.value color - Qt.value palette_color)) * tweak i.

Section WithToHsv.

(** [QColor(rgb).toHsv()]. *)
Variable toHsv : Z -> Qt.Hsv.

(** [int getPaletteColorV6(QRgb rgb)]. *)
Definition getPaletteColorV6 (rgb : Z) : Z :=
  if rgb =? Qt.qRgb 255 255 255 then 15
  else
    let color := toHsv rgb in
    if (Qt.hue color =? -1) || (Qt.saturation color <? 32) then
      let gray := Qt.qGray rgb in
      if 192 <=? gray then 8
      else if 128 <=? gray then 7
      else 0
    else fst (scan (distance color) candidates (0, 2100000)).

End WithToHsv.

End V6.

Module V9.

(** [struct PaletteColor { int r; int g; int b; }]. *)
Record PaletteColor := PC { r : Z; g : Z; b : Z }.

(** The table [palette[125]] of [getPaletteColorV9]. *)
Definition palette : list PaletteColor :=
  [ PC 0 0 0; PC 0 0 64; PC 0 0 128; PC 0 0 192; PC 0 0 255;
    PC 0 64 0; PC 0 64 64; PC 0 64 128; PC 0 64 192; PC 0 64 255;
    PC 0 128 0; PC 0 128 64; PC 0 128 128; PC 0 128 192; PC 0 128 255;
    PC 0 192 0; PC 0 192 64; PC 0 192 128; PC 0 192 192; PC 0 192 255;
    PC 0 255 0; PC 0 255 64; PC 0 255 128; PC 0 255 192; PC 0 255 255;
    PC 64 0 0; PC 64 0 64; PC 64 0 128; PC 64 0 192; PC 64 0 255;
    PC 64 64 0; PC 64 64 64; PC 64 64 128; PC 64 64 192; PC 64 64 255;
    PC 64 128 0; PC 64 128 64; PC 64 128 128; PC 64 128 192; PC 64 128 255;
    PC 64 192 0; PC 64 192 64; PC 64 192 128; PC 64 192 192; PC 64 192 255;
    PC 64 255 0; PC 64 255 64; PC 64 255 128; PC 64 255 192; PC 64 255 255;
    PC 128 0 0; PC 128 0 64; PC 128 0 128; PC 128 0 192; PC 128 0 255;
    PC 128 64 0; PC 128 64 64; PC 128 64 128; PC 128 64 192; PC 128 64 255;
    PC 128 128 0; PC 128 128 64; PC 128 128 128; PC 128 128 192; PC 128 128 255;
    PC 128 192 0; PC 128 192 64; PC 128 192 128; PC 128 192 192; PC 128 192 255;
    PC 128 255 0; PC 128 255 64; PC 128 255 128; PC 128 255 192; PC 128 255 255;
    PC 192 0 0; PC 192 0 64; PC 192 0 128; PC 192 0 192; PC 192 0 255;
    PC 192 64 0; PC 192 64 64; PC 192 64 128; PC 192 64 192; PC 192 64 255;
    PC 192 128 0; PC 192 128 64; PC 192 128 128; PC 192 128 192; PC 192 128 255;
    PC 192 192 0; PC 192 192 64; PC 192 192 128; PC 192 192 192; PC 192 192 255;
    PC 192 255 0; PC 192 255 64; PC 192 255 128; PC 192 255 192; PC 192 255 255;
    PC 255 0 0; PC 255 0 64; PC 255 0 128; PC 255 0 192; PC 255 0 255;
    PC 255 64 0; PC 255 64 64; PC 255 64 128; PC 255 64 192; PC 255 64 255;
    PC 255 128 0; PC 255 128 64; PC 255 128 128; PC 255 128 192; PC 255 128 255;
    PC 255 192 0; PC 255 192 64; PC 255 192 128; PC 255 192 192; PC 255 192 255;
    PC 255 255 0; PC 255 255 64; PC 255 255 128; PC 255 255 192; PC 255 255 255 ].

Definition palette_at (i : Z) : PaletteColor :=
  nth (Z.to_nat i) palette (PC 0 0 0).

Definition distance (rgb : Z) (i : Z) : Z :=
  let palette_color := palette_at i in
  2 * sq (Qt.qRed rgb - r palette_color)
  + 4 * sq (Qt.qGreen rgb - g palette_color)
  + 3 * sq (Qt.qBlue rgb - b palette_color).

(** The loop counter [quint8 i] runs from 0 to 124. *)
Definition candidates : list Z := map Z.of_nat (seq 0 125).

(** [quint8 getPaletteColorV9(QRgb rgb)]. *)
Definition getPaletteColorV9 (rgb : Z) : Z :=
  if rgb =? Qt.qRgb 255 255 255 then 124
  else fst (scan (distance rgb) candidates (0, 10000)).

(** The table is the 5 x 5 x 5 cube of the disabled [generate] block. *)
Definition color_levels : list Z := [0x00; 0x40; 0x80; 0xc0; 0xff].

Example palette_is_cube :
  palette
  = flat_map (fun r => flat_map (fun g => map (fun b => PC r g b) color_levels)
                         color_levels) color_levels.
Proof. reflexivity. Qed.

End V9.

(** ** Data model *)

(** A [QByteArray]. *)
Abbreviation QByteArray := (list Byte.byte).

(** The low eight bits of [z] as a byte. *)
Definition byte_of_Z (z : Z) : Byte.byte :=
  match Byte.of_N (Z.to_N (z mod 256)) with
  | Some b => b
  | None => Byte.x00
  end.

(** The object representation of a 32-bit integer (little-endian host). *)
Definition bytes_of_int32 (z : Z) : QByteArray :=
  [byte_of_Z z; byte_of_Z (Z.shiftr z 8); byte_of_Z (Z.shiftr z 16);
   byte_of_Z (Z.shiftr z 24)].

(** [reinterpret_cast<const char*>(&object)] followed by a byte count: the
    first [n] bytes of the object's memory image. *)
Definition memory (image : nat -> Byte.byte) (n : nat) : QByteArray :=
  map image (seq 0 n).

(** [MapCoord]: native coordinates and the point flags the exporter reads. *)
Record MapCoord := mkMapCoord {
  nativeX : Z;
  nativeY : Z;
  isCurveStart : bool;
  isHolePoint : bool;
  isDashPoint : bool }.

Abbreviation MapCoordVector := (list MapCoord).

(** [MapCoord{}]. *)
Definition MapCoord_default : MapCoord := mkMapCoord 0 0 false false false.

(** [Ocd::OcdPoint32]: two [qint32] members, so [sizeof] is 8. *)
Record OcdPoint32 := mkOcdPoint32 { px : Z; py : Z }.

Definition sizeof_OcdPoint32 : Z := 8.

Definition bytes_of_OcdPoint32 (p : OcdPoint32) : QByteArray :=
  bytes_of_int32 (px p) ++ bytes_of_int32 (py p).

(** [convertPoint(qint32 x, qint32 y)] and [convertPoint(const MapCoord&)]. *)
Definition convertPointXY (x y : Z) : OcdPoint32 :=
  mkOcdPoint32 (convertPointMember x) (convertPointMember (- y)).

Definition convertPoint (coord : MapCoord) : OcdPoint32 :=
  convertPointXY (nativeX coord) (nativeY coord).

(** A [MapColor], identified by its address; a [const MapColor*] is an
    [option nat], [None] being [nullptr]. *)
Record MapColor := mkMapColor {
  colorAddress : nat;
  colorName : string }.

Abbreviation MapColorPtr := (option nat).

(** [Symbol::Type] of an actual symbol ([NoSymbol] and [AllSymbols] are
    masks, never the type of a symbol). *)
Inductive SymbolType := Point | Line | Area | Text | Combined.

#[global] Instance SymbolType_eq_dec : EqDecision SymbolType.
Proof. solve_decision. Defined.

(** What every [Symbol] carries.  [address] stands for the pointer value,
    the key of the symbol-number table. *)
Record SymbolBase := mkSymbolBase {
  address : nat;
  numberComponent0 : Z;
  numberComponent1 : Z;
  name : string;
  isProtected : bool;
  isHidden : bool;
  containsAreaType : bool  (* getContainedTypes() & Symbol::Area *) }.

Inductive CapStyle := FlatCap | RoundCap | SquareCap | PointedCap.
Inductive JoinStyle := BevelJoin | MiterJoin | RoundJoin.

#[global] Instance CapStyle_eq_dec : EqDecision CapStyle.
Proof. solve_decision. Defined.
#[global] Instance JoinStyle_eq_dec : EqDecision JoinStyle.
Proof. solve_decision. Defined.

(** [LineSymbolBorder]. *)
Record LineSymbolBorder := mkBorder {
  border_color : MapColorPtr;
  border_width : Z;
  border_shift : Z;
  border_dashed : bool;
  border_dash_length : Z;
  border_break_length : Z;
  border_isVisible : bool }.

(** The attributes of a [LineSymbol] that the exporter reads. *)
Record LineAttributes := mkLineAttributes {
  lineColor : MapColorPtr;
  lineWidth : Z;
  capStyle : CapStyle;
  joinStyle : JoinStyle;
  pointedCapLength : Z;
  isDashed : bool;
  dashLength : Z;
  breakLength : Z;
  dashesInGroup : Z;
  inGroupBreakLength : Z;
  halfOuterDashes : bool;
  segmentLength : Z;
  endLength : Z;
  showAtLeastOneSymbol : bool;
  midSymbolsPerSpot : Z;
  midSymbolDistance : Z;
  hasBorder : bool;
  border : LineSymbolBorder;
  rightBorder : LineSymbolBorder }.

Inductive FillPatternType := LinePattern | PointPattern.

(** [AreaSymbol::FillPattern] without its point symbol.  Angles are kept
    as [convertRotation] returns them (tenths of a degree). *)
Record FillPatternAttributes := mkFillPattern {
  pattern_type : FillPatternType;
  pattern_line_color : MapColorPtr;
  pattern_line_width : Z;
  pattern_line_spacing : Z;
  pattern_line_offset : Z;
  pattern_angle : Z;
  pattern_point_distance : Z;
  pattern_rotatable : bool }.

(** The attributes of a [TextSymbol] that decide the exporter's warnings;
    [characterSpacing] is [qRound(1000 * getCharacterSpacing())]. *)
Record TextSymbol := mkTextSymbol {
  text_base : SymbolBase;
  textColor : MapColorPtr;
  characterSpacing : Z;
  isUnderlined : bool;
  usesKerning : bool }.

(** The symbol classes.  A point symbol owns element symbols with their
    coordinates, a line symbol four optional point symbols, an area symbol
    fill patterns with an optional point symbol, a combined symbol parts
    ([getPart(i)], [isPartPrivate(i)]). *)
Inductive Symbol : Type :=
| SymPoint (p : PointSymbol)
| SymLine (l : LineSymbol)
| SymArea (a : AreaSymbol)
| SymText (t : TextSymbol)
| SymCombined (c : CombinedSymbol)
with PointSymbol : Type :=
| mkPointSymbol (base : SymbolBase)
    (innerRadius : Z) (innerColor : MapColorPtr)
    (outerWidth : Z) (outerColor : MapColorPtr)
    (rotatable : bool) (empty : bool)
    (elements : list (Symbol * MapCoordVector))
with LineSymbol : Type :=
| mkLineSymbol (base : SymbolBase) (attributes : LineAttributes)
    (startSymbol midSymbol endSymbol dashSymbol : option PointSymbol)
with AreaSymbol : Type :=
| mkAreaSymbol (base : SymbolBase) (color : MapColorPtr)
    (patterns : list (FillPatternAttributes * option PointSymbol))
with CombinedSymbol : Type :=
| mkCombinedSymbol (base : SymbolBase) (parts : list (option Symbol * bool)).

Module PointSym.
Definition base (p : PointSymbol) := let 'mkPointSymbol b _ _ _ _ _ _ _ := p in b.
Definition getInnerRadius (p : PointSymbol) := let 'mkPointSymbol _ r _ _ _ _ _ _ := p in r.
Definition getInnerColor (p : PointSymbol) := let 'mkPointSymbol _ _ c _ _ _ _ _ := p in c.
Definition getOuterWidth (p : PointSymbol) := let 'mkPointSymbol _ _ _ w _ _ _ _ := p in w.
Definition getOuterColor (p : PointSymbol) := let 'mkPointSymbol _ _ _ _ c _ _ _ := p in c.
Definition isRotatable (p : PointSymbol) := let 'mkPointSymbol _ _ _ _ _ r _ _ := p in r.
Definition isEmpty (p : PointSymbol) := let 'mkPointSymbol _ _ _ _ _ _ e _ := p in e.
Definition elements (p : PointSymbol) := let 'mkPointSymbol _ _ _ _ _ _ _ es := p in es.
End PointSym.

Module LineSym.
Definition base (l : LineSymbol) := let 'mkLineSymbol b _ _ _ _ _ := l in b.
Definition attributes (l : LineSymbol) := let 'mkLineSymbol _ a _ _ _ _ := l in a.
Definition getStartSymbol (l : LineSymbol) := let 'mkLineSymbol _ _ s _ _ _ := l in s.
Definition getMidSymbol (l : LineSymbol) := let 'mkLineSymbol _ _ _ m _ _ := l in m.
Definition getEndSymbol (l : LineSymbol) := let 'mkLineSymbol _ _ _ _ e _ := l in e.
Definition getDashSymbol (l : LineSymbol) := let 'mkLineSymbol _ _ _ _ _ d := l in d.
Definition with_base (b : SymbolBase) (l : LineSymbol) : LineSymbol :=
  let 'mkLineSymbol _ a s m e d := l in mkLineSymbol b a s m e d.
End LineSym.

Module AreaSym.
Definition base (a : AreaSymbol) := let 'mkAreaSymbol b _ _ := a in b.
Definition getColor (a : AreaSymbol) := let 'mkAreaSymbol _ c _ := a in c.
Definition patterns (a : AreaSymbol) := let 'mkAreaSymbol _ _ ps := a in ps.
Definition with_base (b : SymbolBase) (a : AreaSymbol) : AreaSymbol :=
  let 'mkAreaSymbol _ c ps := a in mkAreaSymbol b c ps.
End AreaSym.

Module CombinedSym.
Definition base (c : CombinedSymbol) := let 'mkCombinedSymbol b _ := c in b.
Definition parts (c : CombinedSymbol) := let 'mkCombinedSymbol _ ps := c in ps.
End CombinedSym.

(** [Symbol::getType()] and the base-class part of a symbol. *)
Definition getType (s : Symbol) : SymbolType :=
  match s with
  | SymPoint _ => Point
  | SymLine _ => Line
  | SymArea _ => Area
  | SymText _ => Text
  | SymCombined _ => Combined
  end.

Definition symbolBase (s : Symbol) : SymbolBase :=
  match s with
  | SymPoint p => PointSym.base p
  | SymLine l => LineSym.base l
  | SymArea a => AreaSym.base a
  | SymText t => text_base t
  | SymCombined c => CombinedSym.base c
  end.

(** A [const Symbol*] as a table key; 0 is [nullptr]. *)
Definition pointer (s : option Symbol) : nat :=
  match s with
  | Some s => address (symbolBase s)
  | None => 0%nat
  end.

(** ** Objects *)

Inductive ObjectType := PointObject | PathObject | TextObject.

(** The part of a [TextObject] that the exporter reads.  What the source
    derives from font metrics and transforms in floating point is kept as
    its result: the five coordinates of [exportTextCoordinatesSingle] and
    the four of [exportTextCoordinatesBox], already as [MapCoord]s. *)
Record TextData := mkTextData {
  getText : string;
  getHorizontalAlignment : Z;
  hasSingleAnchor : bool;
  getNumLines : Z;
  singleAnchorCoords : MapCoord * MapCoord * MapCoord * MapCoord * MapCoord;
  boxCoords : MapCoord * MapCoord * MapCoord * MapCoord }.

(** An [Object].  [extentBottomLeft] and [extentTopRight] are
    [MapCoord(getExtent().bottomLeft())] and [MapCoord(getExtent().topRight())];
    [rotation] is [convertRotation(getRotation())]. *)
Record Object := mkObject {
  objectType : ObjectType;
  getSymbol : option Symbol;
  getRawCoordinateVector : MapCoordVector;
  extentBottomLeft : MapCoord;
  extentTopRight : MapCoord;
  rotation : Z;
  textData : TextData }.

(** [MapCoord] subtraction and [Object::move]. *)
Definition moveCoord (dx dy : Z) (c : MapCoord) : MapCoord :=
  mkMapCoord (Int.qint32 (nativeX c + dx)) (Int.qint32 (nativeY c + dy))
    (isCurveStart c) (isHolePoint c) (isDashPoint c).

Definition moveTextData (dx dy : Z) (t : TextData) : TextData :=
  let '(a, b, c, d, e) := singleAnchorCoords t in
  let '(p, q, r, s) := boxCoords t in
  mkTextData (getText t) (getHorizontalAlignment t) (hasSingleAnchor t)
    (getNumLines t)
    (moveCoord dx dy a, moveCoord dx dy b, moveCoord dx dy c,
     moveCoord dx dy d, moveCoord dx dy e)
    (moveCoord dx dy p, moveCoord dx dy q, moveCoord dx dy r,
     moveCoord dx dy s).

Definition moveObject (dx dy : Z) (o : Object) : Object :=
  mkObject (objectType o) (getSymbol o)
    (map (moveCoord dx dy) (getRawCoordinateVector o))
    (moveCoord dx dy (extentBottomLeft o)) (moveCoord dx dy (extentTopRight o))
    (rotation o) (moveTextData dx dy (textData o)).

(** ** The map *)

(** The [Map] and [MapView] as the exporter consults them.
    [registrationColorUsed] is
    [isColorUsedByASymbol(getRegistrationColor())]; [areaOffset] is what
    [calculateAreaOffset] computes from the floating-point extent of the
    objects, with the warnings it adds; [scaleParameters] and
    [colorString] stand for the text that [stringForScalePar] and
    [stringForColor] format. *)
Record Map := mkMap {
  colors : list MapColor;
  registrationColor : MapColor;
  registrationColorUsed : bool;
  symbols : list Symbol;
  parts : list (list Object);
  getMapNotes : string;
  viewCenter : option MapCoord;
  areaOffset : MapCoord * list string;
  scaleParameters : Z -> string;
  colorString : Z -> MapColor -> string }.

(** Modelled from the spec: [Map::findColorIndex], which is not part of
    the exporter's sources: "a color's table position", and a negative
    value for a color that is "not present in the table". *)
Fixpoint findColorIndex_from (i : Z) (table : list MapColor) (color : MapColorPtr) : Z :=
  match table with
  | [] => -1
  | c :: rest =>
      if bool_decide (color = Some (colorAddress c)) then i
      else findColorIndex_from (i + 1) rest color
  end.

Definition findColorIndex (m : Map) (color : MapColorPtr) : Z :=
  findColorIndex_from 0 (colors m) color.

(** ** Record layouts *)

(** The fields of the OCD records that the model follows.  The remaining
    members (description, colour bit mask, icon, line and text metrics)
    are part of the memory image only. *)
Record OcdBaseSymbol := mkOcdBaseSymbol {
  base_number : Z;
  base_protected : bool;
  base_hidden : bool;
  base_type : SymbolType;
  base_extent : Z;
  base_flags : Z;
  base_size : Z }.

(** A symbol record before serialisation: the base, [data_size] (or, for
    line symbols, the sum of the four data sizes), and the source symbol
    from which the remaining members are filled. *)
Record OcdSymbol := mkOcdSymbol {
  ocd_base : OcdBaseSymbol;
  ocd_data_size : Z;
  ocd_border_on : bool;
  ocd_border_symbol : Z;
  ocd_alignment : Z;
  ocd_source : Symbol;
  ocd_framing : option LineSymbol;
  ocd_double_line : option LineSymbol }.

(** [Element]: one pattern element header. *)
Inductive ElementType := TypeDot | TypeCircle | TypeLine | TypeArea.

Record Element := mkElement {
  element_type : ElementType;
  element_flags : Z;
  element_color : Z;
  element_line_width : Z;
  element_diameter : Z;
  element_num_coords : Z }.

(** [Ocd::OcdPoint32]'s flag constants. *)
Record PointFlags := mkPointFlags {
  FlagCtl1 : Z;
  FlagCtl2 : Z;
  FlagCorner : Z;
  FlagHole : Z;
  FlagDash : Z }.

(** The index entry of an object. *)
Record IndexEntry := mkIndexEntry {
  entry_bottom_left_bound : OcdPoint32;
  entry_top_right_bound : OcdPoint32;
  entry_size : Z;
  entry_symbol : Z;
  entry_type : option Z;
  entry_status_normal : bool }.

(** An object record before serialisation. *)
Record OcdObject := mkOcdObject {
  object_type : Z;
  object_symbol : Z;
  object_angle : Z;
  object_num_items : Z;
  object_num_text : Z;
  object_unicode : Z }.

(** A mapping of [text_format_mapping]. *)
Record TextFormatMapping := mkTextFormatMapping {
  mapping_symbol : nat;
  mapping_alignment : Z;
  mapping_ocd_number : Z }.

(** One entry of the version 8 colour table. *)
Record ColorInfo := mkColorInfo {
  color_info_number : Z;
  color_info_name : string }.

(** [OcdFile<Format>]: the byte array under construction with the header
    members the exporter writes, and the symbol, object and string
    sections ([file.symbols()], [file.objects()], [file.strings()]). *)
Record OcdFile := mkOcdFile {
  file_byteArray : QByteArray;
  header_version : Z;
  header_file_type_V8 : bool;       (* Ocd::TypeMapV8 rather than Ocd::TypeMap *)
  header_info_pos : Z;
  header_info_size : Z;
  setup_center : option OcdPoint32;
  color_info : list ColorInfo;
  symbol_header_num_colors : Z;
  file_symbols : list QByteArray;
  file_objects : list (QByteArray * IndexEntry);
  file_strings : list (Z * QByteArray) }.

(** The enumerators of [Ocd::HatchMode] and [Ocd::StructureMode]. *)
Record AreaModes := mkAreaModes {
  HatchNone : Z;
  HatchSingle : Z;
  HatchCross : Z;
  StructureNone : Z;
  StructureAlignedRows : Z;
  StructureShiftedRows : Z }.

(** What a [Format] (one of [Ocd::FormatV8], [FormatV9], [FormatV11],
    [FormatV12]) fixes.  The record layouts live in the [ocd_types]
    headers; the exporter uses their sizes, the integer types of a few
    members and their memory images. *)
Record Format := mkFormat {
  format_version : Z;
  custom_8bit : bool;                (* Format::Encoding is Custom8BitEncoding *)
  symbol_number_factor : Z;          (* BaseSymbol::symbol_number_factor *)
  number_min : Z;                    (* range of decltype(BaseSymbol::number) *)
  number_max : Z;
  size_type : Z -> Z;                (* decltype(BaseSymbol::size) *)
  data_size_type : Z -> Z;           (* decltype(data_size) *)
  extent_type : Z -> Z;              (* decltype(BaseSymbol::extent) *)
  entry_size_type : Z -> Z;          (* decltype(IndexEntryType::size) *)
  entry_symbol_type : Z -> Z;        (* decltype(IndexEntryType::symbol) *)
  num_items_type : Z -> Z;           (* decltype(Object::num_items) *)
  num_text_type : Z -> Z;            (* decltype(Object::num_text) *)
  sizeof_Element : nat;
  sizeof_PointSymbol : nat;
  sizeof_AreaSymbol : nat;
  sizeof_LineSymbol : nat;
  sizeof_TextSymbol : nat;
  sizeof_Object : nat;
  has_object_index_extras : bool;    (* the generic handleObjectExtras applies *)
  point_flags : PointFlags;
  area_modes : AreaModes;
  image_Element : Element -> nat -> Byte.byte;
  image_Symbol : OcdSymbol -> nat -> Byte.byte;
  image_Object : OcdObject -> nat -> Byte.byte;
  initial_file : QByteArray;         (* what OcdFile<Format>() starts with *)
  addPadding : QByteArray -> QByteArray;    (* Ocd::addPadding *)
  constByteArray : OcdFile -> QByteArray (* the assembled file *) }.

(** [decltype(ocd_base_symbol.number)(n)]. *)
Definition number_type (F : Format) (n : Z) : Z :=
  Int.wrap (number_min F) (number_max F) n.

(** ** The exporter's surroundings and state *)

(** What the exporter obtains from the application: the encoding setting
    ([codecFromSettings()] may return [nullptr]), the locale codec,
    [QString::toUtf8], the floating-point extent computation of
    [getPointSymbolExtent] for a non-null symbol, and the delegate
    [OCAD8FileExport] used for version 0. *)
Record Environment := mkEnvironment {
  local8BitEncodingName : string;
  codecFromSettings : option (string -> QByteArray);
  codecForLocale : string -> QByteArray;
  toUtf8 : string -> QByteArray;
  pointSymbolExtent : PointSymbol -> Z;
  legacyExport : Map -> QByteArray * list string }.

Record Context := mkContext {
  ctx_format : Format;
  ctx_env : Environment;
  ctx_map : Map }.

(** The members of [OcdFileExport] (with [Exporter::warnings()] and the
    output [stream]), the [file] that [exportImplementation] builds, and
    the next free heap address for [Symbol::duplicate()]. *)
Record Exporter := mkExporter {
  ocd_version : Z;
  custom_8bit_encoding : option (string -> QByteArray);
  area_offset : MapCoord;
  uses_registration_color : bool;
  symbol_numbers : gmap nat Z;
  text_format_mapping : list TextFormatMapping;
  warnings : list string;
  file : OcdFile;
  stream : QByteArray;
  heap_next : nat }.

Definition set_ocd_version (v : Z) (st : Exporter) : Exporter :=
  mkExporter v (custom_8bit_encoding st) (area_offset st)
    (uses_registration_color st) (symbol_numbers st) (text_format_mapping st)
    (warnings st) (file st) (stream st) (heap_next st).

Definition set_custom_8bit_encoding (c : option (string -> QByteArray)) (st : Exporter) : Exporter :=
  mkExporter (ocd_version st) c (area_offset st)
    (uses_registration_color st) (symbol_numbers st) (text_format_mapping st)
    (warnings st) (file st) (stream st) (heap_next st).

Definition set_area_offset (o : MapCoord) (st : Exporter) : Exporter :=
  mkExporter (ocd_version st) (custom_8bit_encoding st) o
    (uses_registration_color st) (symbol_numbers st) (text_format_mapping st)
    (warnings st) (file st) (stream st) (heap_next st).

Definition set_uses_registration_color (b : bool) (st : Exporter) : Exporter :=
  mkExporter (ocd_version st) (custom_8bit_encoding st) (area_offset st)
    b (symbol_numbers st) (text_format_mapping st)
    (warnings st) (file st) (stream st) (heap_next st).

Definition set_symbol_numbers (t : gmap nat Z) (st : Exporter) : Exporter :=
  mkExporter (ocd_version st) (custom_8bit_encoding st) (area_offset st)
    (uses_registration_color st) t (text_format_mapping st)
    (warnings st) (file st) (stream st) (heap_next st).

Definition set_text_format_mapping (l : list TextFormatMapping) (st : Exporter) : Exporter :=
  mkExporter (ocd_version st) (custom_8bit_encoding st) (area_offset st)
    (uses_registration_color st) (symbol_numbers st) l
    (warnings st) (file st) (stream st) (heap_next st).

Definition set_warnings (w : list string) (st : Exporter) : Exporter :=
  mkExporter (ocd_version st) (custom_8bit_encoding st) (area_offset st)
    (uses_registration_color st) (symbol_numbers st) (text_format_mapping st)
    w (file st) (stream st) (heap_next st).

Definition set_file (f : OcdFile) (st : Exporter) : Exporter :=
  mkExporter (ocd_version st) (custom_8bit_encoding st) (area_offset st)
    (uses_registration_color st) (symbol_numbers st) (text_format_mapping st)
    (warnings st) f (stream st) (heap_next st).

Definition set_stream (s : QByteArray) (st : Exporter) : Exporter :=
  mkExporter (ocd_version st) (custom_8bit_encoding st) (area_offset st)
    (uses_registration_color st) (symbol_numbers st) (text_format_mapping st)
    (warnings st) (file st) s (heap_next st).

Definition set_heap_next (n : nat) (st : Exporter) : Exporter :=
  mkExporter (ocd_version st) (custom_8bit_encoding st) (area_offset st)
    (uses_registration_color st) (symbol_numbers st) (text_format_mapping st)
    (warnings st) (file st) (stream st) n.

Definition set_file_symbols (l : list QByteArray) (f : OcdFile) : OcdFile :=
  mkOcdFile (file_byteArray f) (header_version f) (header_file_type_V8 f)
    (header_info_pos f) (header_info_size f) (setup_center f) (color_info f)
    (symbol_header_num_colors f) l (file_objects f) (file_strings f).

Definition set_file_objects (l : list (QByteArray * IndexEntry)) (f : OcdFile) : OcdFile :=
  mkOcdFile (file_byteArray f) (header_version f) (header_file_type_V8 f)
    (header_info_pos f) (header_info_size f) (setup_center f) (color_info f)
    (symbol_header_num_colors f) (file_symbols f) l (file_strings f).

Definition set_file_strings (l : list (Z * QByteArray)) (f : OcdFile) : OcdFile :=
  mkOcdFile (file_byteArray f) (header_version f) (header_file_type_V8 f)
    (header_info_pos f) (header_info_size f) (setup_center f) (color_info f)
    (symbol_header_num_colors f) (file_symbols f) (file_objects f) l.

(** ** A state-and-exception monad for the exporter's member functions *)

(** How a member function ends: it returns, it throws a
    [FileFormatException], it reaches [Q_UNREACHABLE()] (or violates a
    [Q_ASSERT] that guards a dereference), or a loop does not end. *)
Inductive Outcome (A : Type) : Type :=
| Return (a : A)
| Throw (message : string)
| Unreachable
| Diverge.

Arguments Return {A} a.
Arguments Throw {A} message.
Arguments Unreachable {A}.
Arguments Diverge {A}.

Definition Export (A : Type) : Type := Exporter -> Outcome A * Exporter.

#[global] Instance Export_ret : MRet Export := fun A a st => (Return a, st).

#[global] Instance Export_bind : MBind Export := fun A B f m st =>
  match m st with
  | (Return a, st') => f a st'
  | (Throw e, st') => (Throw e, st')
  | (Unreachable, st') => (Unreachable, st')
  | (Diverge, st') => (Diverge, st')
  end.

Definition getState : Export Exporter := fun st => (Return st, st).

Definition modify (f : Exporter -> Exporter) : Export unit :=
  fun st => (Return tt, f st).

Definition throw {A : Type} (message : string) : Export A :=
  fun st => (Throw message, st).

Definition unreachable {A : Type} : Export A := fun st => (Unreachable, st).

Definition liftOption {A : Type} (o : option A) : Export A :=
  match o with
  | Some a => mret a
  | None => unreachable
  end.

(** [Exporter::addWarning]. *)
Definition addWarning (w : string) : Export unit :=
  modify (fun st => set_warnings (warnings st ++ [w]) st).

Definition addWarnings (ws : list string) : Export unit :=
  modify (fun st => set_warnings (warnings st ++ ws) st).

(** [file.symbols().insert(ocd_symbol)]. *)
Definition insertSymbol (ocd_symbol : QByteArray) : Export unit :=
  modify (fun st =>
    set_file (set_file_symbols (file_symbols (file st) ++ [ocd_symbol]) (file st)) st).

(** [file.objects().insert(ocd_object, entry)]. *)
Definition insertObject (ocd_object : QByteArray) (entry : IndexEntry) : Export unit :=
  modify (fun st =>
    set_file (set_file_objects (file_objects (file st) ++ [(ocd_object, entry)]) (file st)) st).

(** [symbol_numbers[key]] read as an rvalue: [operator[]] inserts a
    value-initialised entry when the key is missing. *)
Definition symbolNumberAt (key : nat) : Export Z :=
  fun st =>
    match symbol_numbers st !! key with
    | Some n => (Return n, st)
    | None => (Return 0, set_symbol_numbers (<[key := 0]> (symbol_numbers st)) st)
    end.

(** [symbol_numbers[key] = value]. *)
Definition setSymbolNumber (key : nat) (value : Z) : Export unit :=
  modify (fun st => set_symbol_numbers (<[key := value]> (symbol_numbers st)) st).

(** Iteration of a loop body over a list, in order. *)
Fixpoint forEach {A : Type} (body : A -> Export unit) (l : list A) : Export unit :=
  match l with
  | [] => mret tt
  | x :: rest => body x ;; forEach body rest
  end.

(** ** Colour indices *)

(** [quint16 OcdFileExport::convertColor(const MapColor* color) const]. *)
Definition convertColor (m : Map) (uses_registration : bool) (color : MapColorPtr) : Z :=
  let index := findColorIndex m color in
  if 0 <=? index
  then Int.quint16 (if uses_registration then index + 1 else index)
  else 0.

(** ** Point patterns *)

(** [getInnerRadius() > 0 && getInnerColor()] and
    [getOuterWidth() > 0 && getOuterColor()]. *)
Definition hasInnerDot (p : PointSymbol) : bool :=
  (0 <? PointSym.getInnerRadius p) && bool_decide (is_Some (PointSym.getInnerColor p)).

Definition hasOuterCircle (p : PointSymbol) : bool :=
  (0 <? PointSym.getOuterWidth p) && bool_decide (is_Some (PointSym.getOuterColor p)).

(** The body of the [for] loop of [getPatternSize]. *)
Definition patternSize_step (count : Z) (element : Symbol * MapCoordVector) : Z :=
  let factor :=
    match fst element with
    | SymPoint point_symbol =>
        (if hasInnerDot point_symbol then 1 else 0)
        + (if hasOuterCircle point_symbol then 1 else 0)
    | _ => 1
    end in
  count + factor * (2 + Z.of_nat (length (snd element))).

(** [int getPatternSize(const PointSymbol* point)]. *)
Definition getPatternSize (point : option PointSymbol) : Z :=
  match point with
  | None => 0
  | Some point =>
      let count := fold_left patternSize_step (PointSym.elements point) 0 in
      let count := if hasInnerDot point then count + (2 + 1) else count in
      let count := if hasOuterCircle point then count + (2 + 1) else count in
      count * sizeof_OcdPoint32
  end.

(** The flag that [exportCoordinates] sets on a dash point. *)
Definition dashPointFlag (fl : PointFlags) (symbol : option Symbol) : Z :=
  match symbol with
  | Some (SymLine line_symbol) =>
      let no_dash_symbol :=
        match LineSym.getDashSymbol line_symbol with
        | None => true
        | Some d => PointSym.isEmpty d
        end in
      if no_dash_symbol && isDashed (LineSym.attributes line_symbol)
      then FlagDash fl
      else FlagCorner fl
  | _ => FlagCorner fl
  end.

(** The body of the loop of [exportCoordinates] for one point. *)
Definition flaggedPoint (fl : PointFlags) (symbol : option Symbol)
    (curve_start hole_point curve_continue : bool) (point : MapCoord) : OcdPoint32 :=
  let p := convertPoint point in
  let p := if isDashPoint point
           then mkOcdPoint32 (px p) (Z.lor (py p) (dashPointFlag fl symbol)) else p in
  let p := if curve_start then mkOcdPoint32 (Z.lor (px p) (FlagCtl1 fl)) (py p) else p in
  let p := if hole_point then mkOcdPoint32 (px p) (Z.lor (py p) (FlagHole fl)) else p in
  let p := if curve_continue then mkOcdPoint32 (Z.lor (px p) (FlagCtl2 fl)) (py p) else p in
  p.

Fixpoint exportCoordinates_loop (fl : PointFlags) (symbol : option Symbol)
    (coords : MapCoordVector) (curve_start hole_point curve_continue : bool)
    (num_points : Z) (byte_array : QByteArray) : Z * QByteArray :=
  match coords with
  | [] => (num_points, byte_array)
  | point :: rest =>
      let p := flaggedPoint fl symbol curve_start hole_point curve_continue point in
      exportCoordinates_loop fl symbol rest
        (isCurveStart point) (isHolePoint point) curve_start
        (Int.quint16 (num_points + 1))
        (byte_array ++ bytes_of_OcdPoint32 p)
  end.

(** [quint16 exportCoordinates(const MapCoordVector&, const Symbol*, QByteArray&)]:
    the number of points and the byte array after the call. *)
Definition exportCoordinates (fl : PointFlags) (coords : MapCoordVector)
    (symbol : option Symbol) (byte_array : QByteArray) : Z * QByteArray :=
  exportCoordinates_loop fl symbol coords false false false 0 byte_array.

(** What [exportSubPattern] and [exportPattern] read from the exporter. *)
Record PatternContext := mkPatternContext {
  pc_format : Format;
  pc_map : Map;
  pc_uses_registration : bool;
  pc_version : Z }.

(** One element: [makeElement], the assignments to its members, and
    [exportCoordinates].  [num_coords] is the running [qint16] counter of
    [exportSubPattern]. *)
Definition writeElement (P : PatternContext) (element : Element)
    (coords : MapCoordVector) (symbol : Symbol)
    (num_coords : Z) (byte_array : QByteArray) : Z * QByteArray :=
  let F := pc_format P in
  let pos := length byte_array in
  let reserved := byte_array ++ memory (image_Element F element) (sizeof_Element F) in
  let '(n, after) := exportCoordinates (point_flags F) coords (Some symbol) reserved in
  let element := mkElement (element_type element) (element_flags element)
                   (element_color element) (element_line_width element)
                   (element_diameter element) (Int.qint16 n) in
  (Int.qint16 (num_coords + (2 + element_num_coords element)),
   take pos after ++ memory (image_Element F element) (sizeof_Element F)
   ++ drop (pos + sizeof_Element F) after).

(** [qint16 exportSubPattern<Element>(coords, symbol, byte_array)];
    [None] stands for [Q_UNREACHABLE()]. *)
Definition exportSubPattern (P : PatternContext) (coords : MapCoordVector)
    (symbol : Symbol) (byte_array : QByteArray) : option (Z * QByteArray) :=
  let color := convertColor (pc_map P) (pc_uses_registration P) in
  match symbol with
  | SymPoint point_symbol =>
      let r := (0, byte_array) in
      let r :=
        if hasInnerDot point_symbol then
          writeElement P
            (mkElement TypeDot 0 (color (PointSym.getInnerColor point_symbol)) 0
               (convertSize (2 * PointSym.getInnerRadius point_symbol)) 0)
            coords symbol (fst r) (snd r)
        else r in
      let r :=
        if hasOuterCircle point_symbol then
          writeElement P
            (mkElement TypeCircle 0 (color (PointSym.getOuterColor point_symbol))
               (convertSize (PointSym.getOuterWidth point_symbol))
               (if pc_version P <=? 8
                then convertSize (2 * PointSym.getInnerRadius point_symbol
                                  + 2 * PointSym.getOuterWidth point_symbol)
                else convertSize (2 * PointSym.getInnerRadius point_symbol
                                  + PointSym.getOuterWidth point_symbol))
               0)
            coords symbol (fst r) (snd r)
        else r in
      Some r
  | SymLine line_symbol =>
      let a := LineSym.attributes line_symbol in
      let flags :=
        if bool_decide (capStyle a = RoundCap) then 1
        else if bool_decide (joinStyle a = MiterJoin) then 4
        else 0 in
      Some (writeElement P
              (mkElement TypeLine flags (color (lineColor a))
                 (convertSize (lineWidth a)) 0 0)
              coords symbol 0 byte_array)
  | SymArea area_symbol =>
      Some (writeElement P
              (mkElement TypeArea 0 (color (AreaSym.getColor area_symbol)) 0 0 0)
              coords symbol 0 byte_array)
  | SymCombined _ | SymText _ => None
  end.

(** The loop of [exportPattern] over the elements of the point symbol. *)
Fixpoint exportPattern_loop (P : PatternContext)
    (elements : list (Symbol * MapCoordVector))
    (num_coords : Z) (byte_array : QByteArray) : option (Z * QByteArray) :=
  match elements with
  | [] => Some (num_coords, byte_array)
  | (element_symbol, element_coords) :: rest =>
      match exportSubPattern P element_coords element_symbol byte_array with
      | Some (n, after) =>
          exportPattern_loop P rest (Int.qint16 (num_coords + n)) after
      | None => None
      end
  end.

(** [qint16 exportPattern<Element>(const PointSymbol* point, QByteArray&)]. *)
Definition exportPattern (P : PatternContext) (point : option PointSymbol)
    (byte_array : QByteArray) : option (Z * QByteArray) :=
  match point with
  | None => Some (0, byte_array)
  | Some point =>
      match exportSubPattern P [MapCoord_default] (SymPoint point) byte_array with
      | Some (num_coords, after) =>
          exportPattern_loop P (PointSym.elements point) num_coords after
      | None => None
      end
  end.

(** ** Symbol numbers *)

(** The number that [setupBaseSymbol] starts from. *)
Definition requestedNumber (F : Format) (b : SymbolBase) : Z :=
  let number := numberComponent0 b * symbol_number_factor F in
  if 0 <=? numberComponent1 b
  then number + Z.rem (numberComponent1 b) (symbol_number_factor F)
  else number.

(** [std::any_of(begin(symbol_numbers), end(symbol_numbers), matches_symbol_number)];
    the comparison with the [quint32] entry converts the number. *)
Definition matches_symbol_number (table : gmap nat Z) (number : Z) : bool :=
  existsb (fun entry => Int.quint32 number =? snd entry) (map_to_list table).

(** The loop [while (any_of(...)) ++ocd_base_symbol.number]; [None] when
    [fuel] iterations do not end it. *)
Fixpoint ensureUnique (F : Format) (fuel : nat) (table : gmap nat Z) (number : Z) : option Z :=
  match fuel with
  | O => None
  | S fuel =>
      if matches_symbol_number table number
      then ensureUnique F fuel table (number_type F (number + 1))
      else Some number
  end.

(** [setupBaseSymbol<OcdBaseSymbol>(symbol, ocd_base_symbol)]: the number,
    the status bits and the entry in [symbol_numbers].  The colour bit mask
    and the icon do not influence any other member. *)
Definition setupBaseSymbol (C : Context) (symbol : Symbol) : Export OcdBaseSymbol :=
  fun st =>
    let F := ctx_format C in
    let number := requestedNumber F (symbolBase symbol) in
    let number := number_type F (if number =? 0 then 1 else number) in
    match ensureUnique F (S (size (symbol_numbers st))) (symbol_numbers st) number with
    | None => (Diverge, st)
    | Some number =>
        (Return (mkOcdBaseSymbol number (isProtected (symbolBase symbol))
                   (isHidden (symbolBase symbol)) (getType symbol) 0 0 0),
         set_symbol_numbers
           (<[address (symbolBase symbol) := Int.quint32 number]> (symbol_numbers st)) st)
    end.

(** ** Symbol encoder *)

Definition patternContext (C : Context) (st : Exporter) : PatternContext :=
  mkPatternContext (ctx_format C) (ctx_map C) (uses_registration_color st) (ocd_version st).

(** [quint16 getPointSymbolExtent(const PointSymbol* symbol) const]. *)
Definition getPointSymbolExtent (C : Context) (symbol : option PointSymbol) : Z :=
  match symbol with
  | None => 0
  | Some symbol => Int.quint16 (pointSymbolExtent (ctx_env C) symbol)
  end.

Definition with_layout (base : OcdBaseSymbol) (extent flags size : Z) : OcdBaseSymbol :=
  mkOcdBaseSymbol (base_number base) (base_protected base) (base_hidden base)
    (base_type base) extent flags size.

(** [sizeof(OcdXSymbol) - sizeof(typename OcdXSymbol::Element)]. *)
Definition header_size (sizeof_symbol : nat) (F : Format) : Z :=
  Z.of_nat sizeof_symbol - Z.of_nat (sizeof_Element F).

(** [QByteArray exportPointSymbol<OcdPointSymbol>(point_symbol)],
    with the record members it sets. *)
Definition exportPointSymbol_record (C : Context) (point_symbol : PointSymbol)
  : Export (OcdSymbol * QByteArray) :=
  base ← setupBaseSymbol C (SymPoint point_symbol);
  st ← getState;
  let F := ctx_format C in
  let extent := extent_type F (getPointSymbolExtent C (Some point_symbol)) in
  let extent := if extent <=? 0 then 100 else extent in
  let flags := if PointSym.isRotatable point_symbol then Z.lor 0 1 else 0 in
  let pattern_size := getPatternSize (Some point_symbol) in
  let header_size := header_size (sizeof_PointSymbol F) F in
  let ocd_symbol :=
    mkOcdSymbol
      (with_layout base extent flags (size_type F (header_size + pattern_size)))
      (data_size_type F (pattern_size ÷ 8)) false 0 0 (SymPoint point_symbol) None None in
  let data := memory (image_Symbol F ocd_symbol) (Z.to_nat header_size) in
  r ← liftOption (exportPattern (patternContext C st) (Some point_symbol) data);
  mret (ocd_symbol, snd r).

Definition exportPointSymbol (C : Context) (point_symbol : PointSymbol) : Export QByteArray :=
  r ← exportPointSymbol_record C point_symbol;
  mret (snd r).

(** The members of [ocd_area_common] that steer [exportAreaSymbolCommon]. *)
Record AreaCommon := mkAreaCommon {
  hatch_mode : Z;
  hatch_color : Z;
  structure_mode : Z }.

(** The quotation mark of the warning texts. *)
Definition quotation_mark : string := String (Ascii.ascii_of_nat 34) EmptyString.

(** A symbol name between quotation marks. *)
Definition quoted (s : string) : string := quotation_mark +:+ s +:+ quotation_mark.

Definition skipping_fill_pattern (area_name : string) : string :=
  "In area symbol " +:+ quoted area_name +:+ ", skipping a fill pattern.".

Definition assuming_shifted_rows (area_name : string) : string :=
  "In area symbol " +:+ quoted area_name +:+ ", assuming a "
  +:+ quoted "shifted rows"
  +:+ " point pattern. This might be correct as well as incorrect.".

(** The state of the loop of [exportAreaSymbolCommon]: the steering
    members, the flags, the pattern symbol and the warnings added. *)
Definition AreaLoopState : Type := AreaCommon * Z * option PointSymbol * list string.

(** One iteration of the loop over the fill patterns.  The second [switch]
    inspects [hatch_mode], as the source does. *)
Definition areaPattern_step (F : Format) (m : Map) (uses_registration : bool)
    (area_name : string) (acc : AreaLoopState)
    (pattern : FillPatternAttributes * option PointSymbol) : AreaLoopState :=
  let '(common, flags, pattern_symbol, ws) := acc in
  let M := area_modes F in
  let rotate := if pattern_rotatable (fst pattern) then Z.lor flags 1 else flags in
  let line_color := convertColor m uses_registration (pattern_line_color (fst pattern)) in
  match pattern_type (fst pattern) with
  | LinePattern =>
      if hatch_mode common =? HatchNone M then
        (mkAreaCommon (HatchSingle M) line_color (structure_mode common),
         rotate, pattern_symbol, ws)
      else if (hatch_mode common =? HatchSingle M) && (hatch_color common =? line_color) then
        (mkAreaCommon (HatchCross M) (hatch_color common) (structure_mode common),
         rotate, pattern_symbol, ws)
      else (common, flags, pattern_symbol, ws ++ [skipping_fill_pattern area_name])
  | PointPattern =>
      if hatch_mode common =? StructureNone M then
        (mkAreaCommon (hatch_mode common) (hatch_color common) (StructureAlignedRows M),
         rotate, snd pattern, ws)
      else if hatch_mode common =? StructureAlignedRows M then
        (mkAreaCommon (hatch_mode common) (hatch_color common) (StructureShiftedRows M),
         flags, pattern_symbol, ws ++ [assuming_shifted_rows area_name])
      else (common, flags, pattern_symbol, ws ++ [skipping_fill_pattern area_name])
  end.

(** [quint8 exportAreaSymbolCommon(area_symbol, ocd_area_common, pattern_symbol)]:
    the flags, the pattern symbol and the warnings. *)
Definition exportAreaSymbolCommon (F : Format) (m : Map) (uses_registration : bool)
    (area_symbol : AreaSymbol) : Z * option PointSymbol * list string :=
  let '(_, flags, pattern_symbol, ws) :=
    fold_left (areaPattern_step F m uses_registration (name (AreaSym.base area_symbol)))
      (AreaSym.patterns area_symbol)
      (mkAreaCommon 0 0 0, 0, None, []) in
  (Int.quint8 flags, pattern_symbol, ws).

(** [QByteArray exportAreaSymbol<OcdAreaSymbol>(area_symbol)]. *)
Definition exportAreaSymbol_record (C : Context) (area_symbol : AreaSymbol)
  : Export (OcdSymbol * QByteArray) :=
  base ← setupBaseSymbol C (SymArea area_symbol);
  st ← getState;
  let F := ctx_format C in
  let '(flags, pattern_symbol, ws) :=
    exportAreaSymbolCommon F (ctx_map C) (uses_registration_color st) area_symbol in
  addWarnings ws ;;
  let pattern_size := getPatternSize pattern_symbol in
  let header_size := header_size (sizeof_AreaSymbol F) F in
  let ocd_symbol :=
    mkOcdSymbol
      (with_layout base 0 flags (size_type F (header_size + pattern_size)))
      (data_size_type F (pattern_size ÷ 8)) false 0 0 (SymArea area_symbol) None None in
  let data := memory (image_Symbol F ocd_symbol) (Z.to_nat header_size) in
  r ← liftOption (exportPattern (patternContext C st) pattern_symbol data);
  mret (ocd_symbol, snd r).

Definition exportAreaSymbol (C : Context) (area_symbol : AreaSymbol) : Export QByteArray :=
  r ← exportAreaSymbol_record C area_symbol;
  mret (snd r).

Definition cannot_represent_cap_join (line_name : string) : string :=
  "In line symbol " +:+ quoted line_name +:+ ", cannot represent cap/join combination.".

Definition neglecting_dash_grouping (line_name : string) : string :=
  "In line symbol " +:+ quoted line_name +:+ ", neglecting the dash grouping.".

Definition dashes_reduced (line_name : string) : string :=
  "In line symbol " +:+ quoted line_name +:+ ", the number of dashes in a group has been reduced to 2.".

Definition cannot_export_borders (line_name : string) : string :=
  "In line symbol " +:+ quoted line_name +:+ ", cannot export the borders correctly.".

(** [!symbol || symbol->isEmpty()] *)
Definition nullOrEmpty (symbol : option PointSymbol) : bool :=
  match symbol with
  | None => true
  | Some symbol => PointSym.isEmpty symbol
  end.

(** The six cap and join combinations that have a line style code. *)
Definition representable_cap_join (cap : CapStyle) (join : JoinStyle) : bool :=
  match cap, join with
  | FlatCap, BevelJoin | RoundCap, RoundJoin | PointedCap, BevelJoin
  | PointedCap, RoundJoin | FlatCap, MiterJoin | PointedCap, MiterJoin => true
  | _, _ => false
  end.

(** The condition under which the borders of a double line cannot be
    exported correctly. *)
Definition inconsistent_borders (a : LineAttributes) : bool :=
  (border_dashed (border a) && border_dashed (rightBorder a)
   && (negb (border_dash_length (border a) =? border_dash_length (rightBorder a))
       || negb (border_break_length (border a) =? border_break_length (rightBorder a))))
  || (negb (border_dashed (border a)) && border_dashed (rightBorder a)).

Definition visible_double_line (a : LineAttributes) : bool :=
  hasBorder a && (border_isVisible (border a) || border_isVisible (rightBorder a)).

(** The warnings of [exportLineSymbolCommon], in the order it adds them. *)
Definition lineSymbolCommon_warnings (line_symbol : LineSymbol) : list string :=
  let a := LineSym.attributes line_symbol in
  let line_name := name (LineSym.base line_symbol) in
  (if representable_cap_join (capStyle a) (joinStyle a) then []
   else [cannot_represent_cap_join line_name])
  ++ (if isDashed a then
        if negb (nullOrEmpty (LineSym.getMidSymbol line_symbol)) then
          if 1 <? dashesInGroup a then [neglecting_dash_grouping line_name] else []
        else
          if (1 <? dashesInGroup a) && (2 <? dashesInGroup a)
          then [dashes_reduced line_name] else []
      else [])
  ++ (if visible_double_line a && inconsistent_borders a
      then [cannot_export_borders line_name] else []).

(** [quint32 exportLineSymbolCommon(line_symbol, ocd_line_common)]: the
    pattern size it returns. *)
Definition lineSymbolCommon_pattern_size (F : Format) (line_symbol : LineSymbol) : Z :=
  let primary_data_size :=
    data_size_type F (getPatternSize (LineSym.getMidSymbol line_symbol) ÷ 8) in
  let secondary_data_size := data_size_type F 0 in
  let corner_data_size :=
    data_size_type F (getPatternSize (LineSym.getDashSymbol line_symbol) ÷ 8) in
  let start_data_size :=
    data_size_type F (getPatternSize (LineSym.getStartSymbol line_symbol) ÷ 8) in
  let end_data_size :=
    data_size_type F (getPatternSize (LineSym.getEndSymbol line_symbol) ÷ 8) in
  Int.quint32 (8 * (primary_data_size + secondary_data_size + corner_data_size
                    + start_data_size + end_data_size)).

(** The extent of a line symbol. *)
Definition lineSymbolExtent (C : Context) (line_symbol : LineSymbol) : Z :=
  let a := LineSym.attributes line_symbol in
  let extent := Int.quint16 (convertSize (lineWidth a ÷ 2)) in
  let extent :=
    if hasBorder a
    then Int.quint16
           (extent + convertSize (Z.max 0 (border_shift (border a)
                                           + border_width (border a) ÷ 2)))
    else extent in
  let extent := Z.max extent (getPointSymbolExtent C (LineSym.getStartSymbol line_symbol)) in
  let extent := Z.max extent (getPointSymbolExtent C (LineSym.getEndSymbol line_symbol)) in
  let extent := Z.max extent (getPointSymbolExtent C (LineSym.getMidSymbol line_symbol)) in
  let extent := Z.max extent (getPointSymbolExtent C (LineSym.getDashSymbol line_symbol)) in
  extent.

(** The four [exportPattern] calls of [exportLineSymbol]. *)
Definition exportLinePatterns (P : PatternContext) (line_symbol : LineSymbol)
    (data : QByteArray) : option QByteArray :=
  r ← exportPattern P (LineSym.getMidSymbol line_symbol) data;
  r ← exportPattern P (LineSym.getDashSymbol line_symbol) (snd r);
  r ← exportPattern P (LineSym.getStartSymbol line_symbol) (snd r);
  r ← exportPattern P (LineSym.getEndSymbol line_symbol) (snd r);
  Some (snd r).

(** [QByteArray exportLineSymbol<OcdLineSymbol>(line_symbol)]. *)
Definition exportLineSymbol_record (C : Context) (line_symbol : LineSymbol)
  : Export (OcdSymbol * QByteArray) :=
  base ← setupBaseSymbol C (SymLine line_symbol);
  st ← getState;
  let F := ctx_format C in
  let extent := extent_type F (lineSymbolExtent C line_symbol) in
  addWarnings (lineSymbolCommon_warnings line_symbol) ;;
  let pattern_size := lineSymbolCommon_pattern_size F line_symbol in
  let header_size := header_size (sizeof_LineSymbol F) F in
  let ocd_symbol :=
    mkOcdSymbol
      (with_layout base extent 0 (size_type F (header_size + pattern_size)))
      (pattern_size ÷ 8) false 0 0 (SymLine line_symbol) None None in
  let data := memory (image_Symbol F ocd_symbol) (Z.to_nat header_size) in
  data ← liftOption (exportLinePatterns (patternContext C st) line_symbol data);
  mret (ocd_symbol, data).

Definition exportLineSymbol (C : Context) (line_symbol : LineSymbol) : Export QByteArray :=
  r ← exportLineSymbol_record C line_symbol;
  mret (snd r).

Definition custom_character_spacing (text_name : string) : string :=
  "In text symbol " +:+ text_name
  +:+ ": custom character spacing is set,its implementation does not match OCAD's behavior yet".

Definition ignoring_underlining (text_name : string) : string :=
  "In text symbol " +:+ text_name +:+ ": ignoring underlining".

Definition ignoring_kerning (text_name : string) : string :=
  "In text symbol " +:+ text_name +:+ ": ignoring kerning".

(** The warnings of [setupTextSymbolBasic] and [setupTextSymbolSpecial]. *)
Definition textSymbol_warnings (text_symbol : TextSymbol) : list string :=
  let text_name := name (text_base text_symbol) in
  (if convertSize (characterSpacing text_symbol) =? 0 then []
   else [custom_character_spacing text_name])
  ++ (if isUnderlined text_symbol then [ignoring_underlining text_name] else [])
  ++ (if usesKerning text_symbol then [ignoring_kerning text_name] else []).

(** [QByteArray exportTextSymbol<OcdTextSymbol>(text_symbol, alignment)]. *)
Definition exportTextSymbol (C : Context) (text_symbol : TextSymbol) (alignment : Z)
  : Export QByteArray :=
  base ← setupBaseSymbol C (SymText text_symbol);
  let F := ctx_format C in
  addWarnings (textSymbol_warnings text_symbol) ;;
  let header_size := Z.of_nat (sizeof_TextSymbol F) in
  let ocd_symbol :=
    mkOcdSymbol (with_layout base 0 0 (size_type F header_size))
      0 false 0 alignment (SymText text_symbol) None None in
  mret (memory (image_Symbol F ocd_symbol) (Z.to_nat header_size)).

(** [Map::applyOnMatchingObjects(op, ObjectOp::HasSymbol{symbol})] visits
    the objects of all parts, in order, whose symbol is [symbol]. *)
Definition objectsWithSymbol (m : Map) (symbol_address : nat) : list Object :=
  filter (fun o => pointer (getSymbol o) = symbol_address) (concat (parts m)).

Definition match_alignment (text_symbol : nat) (alignment : Z) (mapping : TextFormatMapping) : bool :=
  bool_decide (mapping_symbol mapping = text_symbol)
  && (mapping_alignment mapping =? alignment).

(** The lambda [handle_alignment] of [exportTextSymbol(file, text_symbol)]. *)
Definition handle_alignment (C : Context) (text_symbol : TextSymbol) (offset : nat)
    (object : Object) : Export unit :=
  let alignment := getHorizontalAlignment (textData object) in
  let key := address (text_base text_symbol) in
  st ← getState;
  if existsb (match_alignment key alignment) (drop offset (text_format_mapping st))
  then mret tt
  else
    ocd_symbol ← exportTextSymbol C text_symbol alignment;
    insertSymbol ocd_symbol ;;
    number ← symbolNumberAt key;
    modify (fun st =>
      set_text_format_mapping
        (text_format_mapping st ++ [mkTextFormatMapping key alignment number]) st).

(** [void exportTextSymbol<Format, OcdTextSymbol>(file, text_symbol)]. *)
Definition exportTextSymbols (C : Context) (text_symbol : TextSymbol) : Export unit :=
  st ← getState;
  let offset := length (text_format_mapping st) in
  forEach (handle_alignment C text_symbol offset)
    (objectsWithSymbol (ctx_map C) (address (text_base text_symbol))) ;;
  st ← getState;
  if bool_decide (offset = length (text_format_mapping st))
  then
    ocd_symbol ← exportTextSymbol C text_symbol 0;
    insertSymbol ocd_symbol
  else mret tt.

(** *** Combined symbols *)

Definition withBase (b : SymbolBase) (s : Symbol) : Symbol :=
  match s with
  | SymPoint (mkPointSymbol _ ir ic ow oc r e es) => SymPoint (mkPointSymbol b ir ic ow oc r e es)
  | SymLine l => SymLine (LineSym.with_base b l)
  | SymArea a => SymArea (AreaSym.with_base b a)
  | SymText t =>
      SymText (mkTextSymbol b (textColor t) (characterSpacing t) (isUnderlined t)
                 (usesKerning t))
  | SymCombined (mkCombinedSymbol _ ps) => SymCombined (mkCombinedSymbol b ps)
  end.

(** The lambda [make_duplicate]: a copy of [symbol] at a fresh address
    with the number, name and flags of the combined symbol.  The source
    frees the copy when [exportCombinedSymbol] returns and leaves its
    address in [symbol_numbers]; the model never gives an address out
    twice, so that it says nothing on an entry which a later allocation
    at the same address would overwrite. *)
Definition make_duplicate (combined_symbol : CombinedSymbol) (symbol : Symbol) : Export Symbol :=
  fun st =>
    let c := CombinedSym.base combined_symbol in
    (Return (withBase (mkSymbolBase (heap_next st) (numberComponent0 c)
                         (numberComponent1 c) (name c) (isProtected c) (isHidden c)
                         (containsAreaType (symbolBase symbol))) symbol),
     set_heap_next (S (heap_next st)) st).

(** The lambdas [maybe_framing] and [maybe_double_filling]. *)
Definition maybe_framing (line : LineSymbol) : bool :=
  let a := LineSym.attributes line in
  negb (hasBorder a)
  && negb (isDashed a)
  && bool_decide (capStyle a <> PointedCap)
  && nullOrEmpty (LineSym.getDashSymbol line)
  && nullOrEmpty (LineSym.getMidSymbol line)
  && nullOrEmpty (LineSym.getStartSymbol line)
  && nullOrEmpty (LineSym.getEndSymbol line).

Definition maybe_double_filling (line : LineSymbol) : bool :=
  let a := LineSym.attributes line in
  hasBorder a
  && ((0 <? lineWidth a) && bool_decide (is_Some (lineColor a)))
  && bool_decide (capStyle a <> PointedCap)
  && nullOrEmpty (LineSym.getDashSymbol line)
  && nullOrEmpty (LineSym.getMidSymbol line)
  && nullOrEmpty (LineSym.getStartSymbol line)
  && nullOrEmpty (LineSym.getEndSymbol line).

Definition unhandled_combined_symbol (combined_symbol : CombinedSymbol) : string :=
  "Unhandled combined symbol: " +:+ name (CombinedSym.base combined_symbol).

(** The end of [exportCombinedSymbol]: the warning. *)
Definition unhandled (combined_symbol : CombinedSymbol) : Export unit :=
  addWarning (unhandled_combined_symbol combined_symbol).

(** [symbol_numbers[combined_symbol] = symbol_numbers[duplicate.get()]]. *)
Definition adoptNumber (combined_symbol : CombinedSymbol) (duplicate : Symbol) : Export unit :=
  number ← symbolNumberAt (address (symbolBase duplicate));
  setSymbolNumber (address (CombinedSym.base combined_symbol)) number.

(** [exportCombinedAreaSymbol<OcdAreaSymbol>(area_symbol, line_symbol)];
    its specialisation for [Ocd::AreaSymbolV8] is [Q_UNREACHABLE()]. *)
Definition exportCombinedAreaSymbol (C : Context) (area_symbol : AreaSymbol)
    (line_symbol : LineSymbol) : Export QByteArray :=
  let F := ctx_format C in
  if format_version F =? 8 then unreachable
  else
    r ← exportAreaSymbol_record C area_symbol;
    number ← symbolNumberAt (address (LineSym.base line_symbol));
    let ocd := fst r in
    let patched :=
      mkOcdSymbol (ocd_base ocd) (ocd_data_size ocd) true number (ocd_alignment ocd)
        (ocd_source ocd) (ocd_framing ocd) (ocd_double_line ocd) in
    let header_size := Z.to_nat (header_size (sizeof_AreaSymbol F) F) in
    mret (memory (image_Symbol F patched) header_size ++ drop header_size (snd r)).

(** The warnings of [exportCombinedLineSymbol]. *)
Definition combinedLineSymbol_warnings (main_line framing : LineSymbol)
    (double_line : option LineSymbol) : list string :=
  let f := LineSym.attributes framing in
  let line_name := name (LineSym.base main_line) in
  (match capStyle f, joinStyle f with
   | FlatCap, BevelJoin | RoundCap, RoundJoin | FlatCap, MiterJoin => []
   | _, _ => [cannot_represent_cap_join line_name]
   end)
  ++ (match double_line with
      | Some double_line =>
          let d := LineSym.attributes double_line in
          if visible_double_line d && inconsistent_borders d
          then [cannot_export_borders line_name] else []
      | None => []
      end).

(** [exportCombinedLineSymbol<OcdLineSymbol>(main_line, framing, double_line)]. *)
Definition exportCombinedLineSymbol (C : Context) (main_line framing : LineSymbol)
    (double_line : option LineSymbol) : Export QByteArray :=
  let F := ctx_format C in
  r ← exportLineSymbol_record C main_line;
  addWarnings (combinedLineSymbol_warnings main_line framing double_line) ;;
  let ocd := fst r in
  let patched :=
    mkOcdSymbol (ocd_base ocd) (ocd_data_size ocd) (ocd_border_on ocd)
      (ocd_border_symbol ocd) (ocd_alignment ocd) (ocd_source ocd)
      (Some framing) double_line in
  let header_size := Z.to_nat (header_size (sizeof_LineSymbol F) F) in
  mret (memory (image_Symbol F patched) header_size ++ drop header_size (snd r)).

(** [while (combined_symbol->getPart(i) != border_symbol) ++i;] followed
    by [isPartPrivate(i)]. *)
Fixpoint isPrivatePart (all_parts : list (option Symbol * bool)) (border_symbol : nat) : bool :=
  match all_parts with
  | [] => false
  | (part, private) :: rest =>
      if bool_decide (pointer part = border_symbol) then private
      else isPrivatePart rest border_symbol
  end.

(** The branch "Area symbol with border, since OCD V9". *)
Definition exportAreaWithBorder (C : Context) (combined_symbol : CombinedSymbol)
    (area : Symbol) (border_symbol : LineSymbol) : Export unit :=
  st ← getState;
  border_symbol ←
    (if bool_decide (is_Some (symbol_numbers st !! address (LineSym.base border_symbol)))
     then mret border_symbol
     else
       border_symbol ←
         (if isPrivatePart (CombinedSym.parts combined_symbol)
               (address (LineSym.base border_symbol))
          then
            border_duplicate ← make_duplicate combined_symbol (SymLine border_symbol);
            let b := symbolBase border_duplicate in
            mret (LineSym.with_base
                    (mkSymbolBase (address b) (numberComponent0 b)
                       (numberComponent1 b + 1) ("Border of " +:+ name b)
                       (isProtected b) (isHidden b) (containsAreaType b))
                    border_symbol)
          else mret border_symbol);
       ocd_symbol ← exportLineSymbol C border_symbol;
       insertSymbol ocd_symbol ;;
       mret border_symbol);
  duplicate ← make_duplicate combined_symbol area;
  match duplicate with
  | SymArea area_symbol =>
      ocd_symbol ← exportCombinedAreaSymbol C area_symbol border_symbol;
      insertSymbol ocd_symbol ;;
      adoptNumber combined_symbol duplicate
  | _ => unreachable
  end.

(** "If there is candidate double line/filling, move it to parts[2]";
    [None] is the [break]. *)
Definition arrangeDoubleLine (line0 line1 : LineSymbol) (line2 : option LineSymbol)
  : option (LineSymbol * LineSymbol * option LineSymbol) :=
  match line2 with
  | None => Some (line0, line1, None)
  | Some l2 =>
      if maybe_double_filling l2 then Some (line0, line1, Some l2)
      else if maybe_double_filling line0 then Some (l2, line1, Some line0)
      else if maybe_double_filling line1 then Some (line0, l2, Some line1)
      else None
  end.

(** "If there is candidate framing, move it to parts[1]". *)
Definition arrangeFraming (line0 line1 : LineSymbol) : LineSymbol * LineSymbol :=
  if negb (maybe_framing line1) then (line1, line0) else (line0, line1).

(** The branch for two or three line parts. *)
Definition exportLineWithFraming (C : Context) (combined_symbol : CombinedSymbol)
    (line0 line1 : LineSymbol) (line2 : option LineSymbol) : Export unit :=
  match arrangeDoubleLine line0 line1 line2 with
  | None => unhandled combined_symbol
  | Some (line0, line1, double_line) =>
      let '(line0, framing) := arrangeFraming line0 line1 in
      if maybe_framing framing then
        duplicate ← make_duplicate combined_symbol (SymLine line0);
        match duplicate with
        | SymLine line_symbol =>
            if bool_decide (is_Some double_line)
               && hasBorder (LineSym.attributes line_symbol)
            then unhandled combined_symbol
            else
              ocd_symbol ← exportCombinedLineSymbol C line_symbol framing double_line;
              insertSymbol ocd_symbol ;;
              adoptNumber combined_symbol duplicate
        | _ => unreachable
        end
      else unhandled combined_symbol
  end.

(** [case 2:] and [case 3:] of the [switch (num_parts)]. *)
Definition exportTwoOrThreeParts (C : Context) (combined_symbol : CombinedSymbol)
    (part0 part1 : Symbol) (part2 : option Symbol) : Export unit :=
  if bool_decide (getType part0 <> Line) && bool_decide (getType part1 <> Line)
  then unhandled combined_symbol
  else
    let '(part0, part1) :=
      if bool_decide (getType part1 = Area) then (part1, part0) else (part0, part1) in
    match part0 with
    | SymArea _ =>
        st ← getState;
        if (ocd_version st <? 9) || bool_decide (is_Some part2)
        then unhandled combined_symbol
        else
          match part1 with
          | SymLine border_symbol =>
              exportAreaWithBorder C combined_symbol part0 border_symbol
          | _ => unreachable
          end
    | SymLine line0 =>
        match part1, part2 with
        | SymLine line1, None =>
            exportLineWithFraming C combined_symbol line0 line1 None
        | SymLine line1, Some (SymLine line2) =>
            exportLineWithFraming C combined_symbol line0 line1 (Some line2)
        | _, _ => unhandled combined_symbol
        end
    | _ => unhandled combined_symbol
    end.

(** The parts that [getPart(i)] returns non-null, in order. *)
Definition nonNullParts (combined_symbol : CombinedSymbol) : list Symbol :=
  omap fst (CombinedSym.parts combined_symbol).

(** [void exportCombinedSymbol<Format>(file, combined_symbol)]. *)
Definition exportCombinedSymbol (C : Context) (combined_symbol : CombinedSymbol) : Export unit :=
  match nonNullParts combined_symbol with
  | [part] =>
      duplicate ← make_duplicate combined_symbol part;
      ocd_subsymbol ←
        match duplicate with
        | SymArea area_symbol => exportAreaSymbol C area_symbol
        | SymLine line_symbol => exportLineSymbol C line_symbol
        | SymCombined _ => mret []
        | SymPoint _ | SymText _ => unreachable
        end;
      if bool_decide (ocd_subsymbol = [])
      then unhandled combined_symbol
      else
        insertSymbol ocd_subsymbol ;;
        adoptNumber combined_symbol duplicate
  | [part0; part1] => exportTwoOrThreeParts C combined_symbol part0 part1 None
  | [part0; part1; part2] =>
      exportTwoOrThreeParts C combined_symbol part0 part1 (Some part2)
  | _ => unhandled combined_symbol
  end.

(** The body of the loop of [exportSymbols]. *)
Definition exportSymbol (C : Context) (symbol : Symbol) : Export unit :=
  st ← getState;
  if bool_decide (is_Some (symbol_numbers st !! address (symbolBase symbol)))
  then mret tt
  else
    match symbol with
    | SymPoint point_symbol =>
        ocd_symbol ← exportPointSymbol C point_symbol;
        insertSymbol ocd_symbol
    | SymArea area_symbol =>
        ocd_symbol ← exportAreaSymbol C area_symbol;
        insertSymbol ocd_symbol
    | SymLine line_symbol =>
        ocd_symbol ← exportLineSymbol C line_symbol;
        insertSymbol ocd_symbol
    | SymText text_symbol => exportTextSymbols C text_symbol
    | SymCombined combined_symbol => exportCombinedSymbol C combined_symbol
    end.

(** [void exportSymbols<Format>(OcdFile<Format>& file)]. *)
Definition exportSymbols (C : Context) : Export unit :=
  forEach (exportSymbol C) (symbols (ctx_map C)).

(** ** Object encoder *)

Definition newline : Ascii.ascii := Ascii.ascii_of_nat 10.
Definition carriage_return : Ascii.ascii := Ascii.ascii_of_nat 13.

(** [text.replace(QLatin1Char('\n'), QLatin1String("\r\n"))]. *)
Fixpoint replaceNewlines (text : list Ascii.ascii) : list Ascii.ascii :=
  match text with
  | [] => []
  | c :: rest =>
      if bool_decide (c = newline)
      then carriage_return :: newline :: replaceNewlines rest
      else c :: replaceNewlines rest
  end.

(** The UTF-16LE encoder without byte order mark: two bytes per code
    unit.  A character of the model's strings is one code unit. *)
Definition utf16le (text : list Ascii.ascii) : QByteArray :=
  flat_map (fun c => [Ascii.byte_of_ascii c; Byte.x00]) text.

(** [addTextTruncationWarning(text, pos)]. *)
Definition textTruncationWarning (text : list Ascii.ascii) (pos : nat) : string :=
  "Text truncated at '|'): "
  +:+ String.string_of_list_ascii (take pos text ++ Ascii.ascii_of_nat 124 :: drop pos text).

(** [QByteArray exportTextData(const TextObject* object, int chunk_size, int max_chunks)]:
    the encoded text and the warning, if any. *)
Definition exportTextData (object : Object) (chunk_size max_chunks : Z)
  : QByteArray * list string :=
  let max_size := chunk_size * max_chunks in
  let text := String.list_ascii_of_string (getText (textData object)) in
  let text := match text with
              | c :: _ => if bool_decide (c = newline) then newline :: text else text
              | [] => text
              end in
  let text := replaceNewlines text in
  let encoded_text := utf16le text in
  let '(encoded_text, ws) :=
    if max_size <=? Z.of_nat (length encoded_text) then
      (* the decoder yields the complete code units among max_size - 1 bytes *)
      let truncated_text := take (Z.to_nat ((max_size - 1) ÷ 2)) text in
      (utf16le truncated_text, [textTruncationWarning text (length truncated_text)])
    else (encoded_text, []) in
  let text_size := Z.of_nat (length encoded_text) in
  (encoded_text
   ++ replicate (Z.to_nat (Z.rem (max_size - text_size) chunk_size)) Byte.x00,
   ws).

(** [exportTextCoordinatesSingle] and [exportTextCoordinatesBox]: the
    coordinates appended for a text object with lines. *)
Definition exportTextCoordinatesSingle (object : Object) (byte_array : QByteArray) : QByteArray :=
  let '(a, b, c, d, e) := singleAnchorCoords (textData object) in
  byte_array ++ flat_map (fun p => bytes_of_OcdPoint32 (convertPoint p)) [a; b; c; d; e].

Definition exportTextCoordinatesBox (object : Object) (byte_array : QByteArray) : QByteArray :=
  let '(a, b, c, d) := boxCoords (textData object) in
  byte_array ++ flat_map (fun p => bytes_of_OcdPoint32 (convertPoint p)) [a; b; c; d].

(** [handleObjectExtras<OcdObject>] and its specialisation for
    [Ocd::ObjectV8]. *)
Definition handleObjectExtras (F : Format) (ocd_object : OcdObject) (entry : IndexEntry)
  : OcdObject * IndexEntry :=
  if has_object_index_extras F then
    (ocd_object,
     mkIndexEntry (entry_bottom_left_bound entry) (entry_top_right_bound entry)
       (entry_size entry) (entry_symbol entry) (Some (object_type ocd_object)) true)
  else
    (if (object_type ocd_object =? 4) || (object_type ocd_object =? 5)
     then mkOcdObject (object_type ocd_object) (object_symbol ocd_object)
            (object_angle ocd_object) (object_num_items ocd_object)
            (object_num_text ocd_object) 1
     else ocd_object,
     entry).

(** [sizeof(OcdObject) - sizeof(Ocd::OcdPoint32)]. *)
Definition object_header_size (F : Format) : Z :=
  Z.of_nat (sizeof_Object F) - sizeof_OcdPoint32.

(** The value that [exportObjectCommon] stores in [entry.size].  The
    divisor [sizeof(Ocd::OcdPoint32)] has type [std::size_t], so the
    difference is converted to that type and the division is unsigned. *)
Definition indexEntrySize (F : Format) (version : Z) (data : QByteArray) : Z :=
  let size := entry_size_type F (Z.of_nat (length (addPadding F data))) in
  if version <? 11
  then entry_size_type F
         (Int.size_t (size - entry_size_type F (object_header_size F))
          / sizeof_OcdPoint32)
  else size.

(** [QByteArray exportObjectCommon(object, ocd_object, entry)]: the record
    and the index entry. *)
Definition exportObjectCommon (C : Context) (object : Object) (ocd_object : OcdObject)
    (entry : IndexEntry) : Export (QByteArray * IndexEntry) :=
  st ← getState;
  let F := ctx_format C in
  let coords := getRawCoordinateVector object in
  let text_items (n : Z) : Z * Z * QByteArray * list string :=
    let num_items := num_items_type F (if getNumLines (textData object) =? 0 then 0 else n) in
    if 0 <? num_items then
      let '(text_data, ws) := exportTextData object (sizeof_OcdPoint32 * 8) (1024 ÷ 8) in
      (num_items,
       num_text_type F (Z.of_nat (length text_data) ÷ sizeof_OcdPoint32),
       text_data, ws)
    else (num_items, object_num_text ocd_object, [], []) in
  let '(num_items, num_text, text_data, ws) :=
    if object_type ocd_object =? 4 then text_items 5
    else if object_type ocd_object =? 5 then text_items 4
    else (num_items_type F (Z.of_nat (length coords)), object_num_text ocd_object, [], []) in
  addWarnings ws ;;
  let ocd_object :=
    mkOcdObject (object_type ocd_object) (object_symbol ocd_object)
      (object_angle ocd_object) num_items num_text (object_unicode ocd_object) in
  let entry :=
    mkIndexEntry (convertPoint (extentBottomLeft object))
      (convertPoint (extentTopRight object))
      (entry_size entry) (entry_symbol entry) (entry_type entry)
      (entry_status_normal entry) in
  let '(ocd_object, entry) := handleObjectExtras F ocd_object entry in
  let header_size := object_header_size F in
  let data := memory (image_Object F ocd_object) (Z.to_nat header_size) in
  let data :=
    if 0 <? object_num_items ocd_object then
      if object_type ocd_object =? 4
      then exportTextCoordinatesSingle object data ++ text_data
      else if object_type ocd_object =? 5
      then exportTextCoordinatesBox object data ++ text_data
      else snd (exportCoordinates (point_flags F) coords (getSymbol object) data)
    else data in
  let entry :=
    mkIndexEntry (entry_bottom_left_bound entry) (entry_top_right_bound entry)
      (indexEntrySize F (ocd_version st) data)
      (entry_symbol entry) (entry_type entry) (entry_status_normal entry) in
  mret (addPadding F data, entry).

(** [typename Format::Object::IndexEntryType {}]. *)
Definition IndexEntry_default : IndexEntry :=
  mkIndexEntry (mkOcdPoint32 0 0) (mkOcdPoint32 0 0) 0 0 None false.

Definition with_symbol (entry : IndexEntry) (symbol : Z) : IndexEntry :=
  mkIndexEntry (entry_bottom_left_bound entry) (entry_top_right_bound entry)
    (entry_size entry) symbol (entry_type entry) (entry_status_normal entry).

(** [exportPointObject<OcdObject>(point, entry)]. *)
Definition exportPointObject (C : Context) (point : Object) (entry : IndexEntry)
  : Export (QByteArray * IndexEntry) :=
  number ← symbolNumberAt (pointer (getSymbol point));
  let symbol := entry_symbol_type (ctx_format C) number in
  exportObjectCommon C point (mkOcdObject 1 symbol (rotation point) 0 0 0)
    (with_symbol entry symbol).

(** [exportPathObject<OcdObject>(path, entry)]. *)
Definition exportPathObject (C : Context) (path : Object) (entry : IndexEntry)
  : Export (QByteArray * IndexEntry) :=
  let type :=
    match getSymbol path with
    | Some symbol => if containsAreaType (symbolBase symbol) then 3 else 2
    | None => 2
    end in
  number ← symbolNumberAt (pointer (getSymbol path));
  let symbol := entry_symbol_type (ctx_format C) number in
  exportObjectCommon C path (mkOcdObject type symbol 0 0 0 0) (with_symbol entry symbol).

(** [exportTextObject<OcdObject>(text, entry)].  When no mapping matches,
    the source dereferences [end(text_format_mapping)]. *)
Definition exportTextObject (C : Context) (text : Object) (entry : IndexEntry)
  : Export (QByteArray * IndexEntry) :=
  st ← getState;
  let alignment := getHorizontalAlignment (textData text) in
  match find (fun m => match_alignment (pointer (getSymbol text)) alignment m)
          (text_format_mapping st) with
  | None => unreachable
  | Some symbol_mapping =>
      let symbol := mapping_ocd_number symbol_mapping in
      exportObjectCommon C text
        (mkOcdObject (if hasSingleAnchor (textData text) then 4 else 5) symbol
           (rotation text) 0 0 0)
        (with_symbol entry symbol)
  end.

(** The body of the inner loop of [exportObjects]. *)
Definition exportObject (C : Context) (object : Object) : Export unit :=
  st ← getState;
  let offset := area_offset st in
  let object :=
    if negb (nativeX offset =? 0) || negb (nativeY offset =? 0)
    then moveObject (- nativeX offset) (- nativeY offset) object
    else object in
  r ← match objectType object with
       | PointObject => exportPointObject C object IndexEntry_default
       | PathObject => exportPathObject C object IndexEntry_default
       | TextObject => exportTextObject C object IndexEntry_default
       end;
  insertObject (fst r) (snd r).

(** [void exportObjects<Format>(OcdFile<Format>& file)]. *)
Definition exportObjects (C : Context) : Export unit :=
  forEach (fun part => forEach (exportObject C) part) (parts (ctx_map C)).

(** ** Setup, colours and the export as a whole *)

Definition more_than_256_colors : string :=
  "The map contains more than 256 colors which is not supported by ocd version 8.".

Definition registration_black_warning : string :=
  "Registration black is exported as a regular color.".

Definition spot_color_warning : string := "Spot color information was ignored.".

Definition work_in_progress_warning : string :=
  "OcdFileExport: WORK IN PROGRESS, FILE INCOMPLETE".

Definition encoding_not_available (encoding : string) : string :=
  "Encoding '" +:+ encoding +:+ "' is not available. Check the settings.".

Definition modifyFile (f : OcdFile -> OcdFile) : Export unit :=
  modify (fun st => set_file (f (file st)) st).

(** The second block of [exportSetup(OcdFile<Ocd::FormatV8>&)]: the map
    notes.  The limit and the truncation length are those of the source. *)
Definition exportNotesV8 (notes : QByteArray) (f : OcdFile) : OcdFile :=
  if bool_decide (notes = []) then f
  else
    let size := Z.of_nat (length notes) + 1 in
    let '(size, notes) :=
      if 32768 <? size then (32768, take (Z.to_nat 23767) notes) else (size, notes) in
    mkOcdFile (file_byteArray f ++ notes ++ [Byte.x00])
      (header_version f) (header_file_type_V8 f)
      (Int.quint32 (Z.of_nat (length (file_byteArray f))))
      (Int.quint32 size)
      (setup_center f) (color_info f) (symbol_header_num_colors f)
      (file_symbols f) (file_objects f) (file_strings f).

(** The lambda [addColor] and the two loops that call it. *)
Definition addColor (color : MapColor) (ocd_number : Z) (f : OcdFile) : OcdFile :=
  mkOcdFile (file_byteArray f) (header_version f) (header_file_type_V8 f)
    (header_info_pos f) (header_info_size f) (setup_center f)
    (color_info f ++ [mkColorInfo ocd_number (colorName color)])
    (symbol_header_num_colors f)
    (file_symbols f) (file_objects f) (file_strings f).

Fixpoint addColors (table : list MapColor) (ocd_number : Z) (f : OcdFile) : Z * OcdFile :=
  match table with
  | [] => (ocd_number, f)
  | color :: rest => addColors rest (Int.quint16 (ocd_number + 1)) (addColor color ocd_number f)
  end.

Definition set_num_colors (n : Z) (f : OcdFile) : OcdFile :=
  mkOcdFile (file_byteArray f) (header_version f) (header_file_type_V8 f)
    (header_info_pos f) (header_info_size f) (setup_center f) (color_info f) n
    (file_symbols f) (file_objects f) (file_strings f).

Definition set_setup_center (c : option OcdPoint32) (f : OcdFile) : OcdFile :=
  mkOcdFile (file_byteArray f) (header_version f) (header_file_type_V8 f)
    (header_info_pos f) (header_info_size f) c (color_info f)
    (symbol_header_num_colors f)
    (file_symbols f) (file_objects f) (file_strings f).

(** [template<> void exportSetup(OcdFile<Ocd::FormatV8>& file)].  The
    floating-point members of the setup block are part of the byte array
    only. *)
Definition exportSetupV8 (C : Context) : Export unit :=
  let m := ctx_map C in
  st ← getState;
  modifyFile (set_setup_center
                (match viewCenter m with
                 | Some center =>
                     Some (convertPoint
                             (moveCoord (- nativeX (area_offset st))
                                (- nativeY (area_offset st)) center))
                 | None => None
                 end)) ;;
  encoding ← liftOption (custom_8bit_encoding st);
  modifyFile (exportNotesV8 (encoding (getMapNotes m))) ;;
  let num_colors := Z.of_nat (length (colors m)) in
  if (if uses_registration_color st then 255 else 256) <? num_colors
  then throw more_than_256_colors
  else
    (if uses_registration_color st
     then addWarning registration_black_warning ;;
          modifyFile (addColor (registrationColor m) 0)
     else mret tt) ;;
    modifyFile (fun f =>
      let '(ocd_number, f) :=
        addColors (colors m) (if uses_registration_color st then 1 else 0) f in
      set_num_colors ocd_number f) ;;
    addWarning spot_color_warning.

(** The [std::function] member [addParameterString]. *)
Definition addParameterString (C : Context) (string_type : Z) (s : string) : Export unit :=
  st ← getState;
  let bytes :=
    match custom_8bit_encoding st with
    | Some encoding => encoding s
    | None => toUtf8 (ctx_env C) s
    end in
  modifyFile (fun f => set_file_strings (file_strings f ++ [(string_type, bytes)]) f).

Fixpoint addColorStrings (C : Context) (table : list MapColor) (ocd_number : Z) : Export unit :=
  match table with
  | [] => mret tt
  | color :: rest =>
      addParameterString C 9 (colorString (ctx_map C) ocd_number color) ;;
      addColorStrings C rest (ocd_number + 1)
  end.

(** [void exportSetup(quint16 ocd_version)]. *)
Definition exportSetupGeneric (C : Context) (version : Z) : Export unit :=
  let m := ctx_map C in
  addParameterString C 1039 (scaleParameters m version) ;;
  (if 9 <=? version
   then addParameterString C (if 11 <=? version then 1061 else 11) (getMapNotes m)
   else mret tt) ;;
  st ← getState;
  (if uses_registration_color st
   then addWarning registration_black_warning ;;
        addParameterString C 9 (colorString m 0 (registrationColor m))
   else mret tt) ;;
  addColorStrings C (colors m) (if uses_registration_color st then 1 else 0) ;;
  addWarning spot_color_warning.

(** [exportSetup(file)]: the specialisation for [FormatV8], or the generic
    one with [file.header()->version]. *)
Definition exportSetup (C : Context) : Export unit :=
  if format_version (ctx_format C) =? 8 then exportSetupV8 C
  else
    st ← getState;
    exportSetupGeneric C (header_version (file st)).

(** [determineEncoding<Encoding>()]. *)
Definition determineEncoding (C : Context) : Export (option (string -> QByteArray)) :=
  if custom_8bit (ctx_format C) then
    match codecFromSettings (ctx_env C) with
    | Some encoding => mret (Some encoding)
    | None =>
        addWarning (encoding_not_available (local8BitEncodingName (ctx_env C))) ;;
        mret (Some (codecForLocale (ctx_env C)))
    end
  else mret None.

(** [OcdFile<Format> file;] followed by [setupFileHeaderGeneric]. *)
Definition newFile (F : Format) (actual_version : Z) : OcdFile :=
  mkOcdFile (initial_file F) (Int.quint16 actual_version)
    (Int.quint16 actual_version =? 8) 0 0 None [] 0 [] [] [].

(** [void exportImplementation<Format>(quint16 actual_version)]. *)
Definition exportImplementation (C : Context) (actual_version : Z) : Export unit :=
  addWarning work_in_progress_warning ;;
  modify (set_ocd_version (Int.quint16 actual_version)) ;;
  modify (set_file (newFile (ctx_format C) actual_version)) ;;
  encoding ← determineEncoding C;
  modify (set_custom_8bit_encoding encoding) ;;
  addWarnings (snd (areaOffset (ctx_map C))) ;;
  modify (set_area_offset (fst (areaOffset (ctx_map C)))) ;;
  modify (set_uses_registration_color (registrationColorUsed (ctx_map C))) ;;
  exportSetup C ;;
  exportSymbols C ;;
  exportObjects C ;;
  st ← getState;
  modify (set_stream (stream st ++ constByteArray (ctx_format C) (file st))).

(** The four format types. *)
Record Formats := mkFormats {
  FormatV8 : Format;
  FormatV9 : Format;
  FormatV11 : Format;
  FormatV12 : Format }.

(** [name.endsWith(suffix)]. *)
Definition endsWith (file_name suffix : string) : bool :=
  bool_decide (String.list_ascii_of_string suffix `suffix_of` String.list_ascii_of_string file_name).

(** The version that [doExport] selects: [default_version], unless the
    stream is a file with one of the test names. *)
Definition selectVersion (default_version : Z) (file_name : option string) : Z :=
  match file_name with
  | Some file_name =>
      if endsWith file_name "test-v8.ocd" then 8
      else if endsWith file_name "test-v9.ocd" then 9
      else if endsWith file_name "test-v10.ocd" then 10
      else if endsWith file_name "test-v11.ocd" then 11
      else if endsWith file_name "test-v12.ocd" then 12
      else default_version
  | None => default_version
  end.

Definition version_not_supported (version : Z) : string :=
  "Could not write file: OCD files of version " +:+ pretty version
  +:+ " are not supported!".

(** [exportImplementationLegacy()]: the delegate writes the stream, and
    its warnings are added. *)
Definition exportImplementationLegacy (E : Environment) (m : Map) : Export unit :=
  st ← getState;
  modify (set_stream (stream st ++ fst (legacyExport E m))) ;;
  addWarnings (snd (legacyExport E m)).

(** [void OcdFileExport::doExport()]. *)
Definition doExport (Fs : Formats) (E : Environment) (m : Map)
    (default_version : Z) (file_name : option string) : Export unit :=
  let version := selectVersion default_version file_name in
  if version =? 0 then exportImplementationLegacy E m
  else if version =? 8 then
    exportImplementation (mkContext (FormatV8 Fs) E m) (format_version (FormatV8 Fs))
  else if version =? 9 then
    exportImplementation (mkContext (FormatV9 Fs) E m) (format_version (FormatV9 Fs))
  else if version =? 10 then
    exportImplementation (mkContext (FormatV9 Fs) E m) 10
  else if version =? 11 then
    exportImplementation (mkContext (FormatV11 Fs) E m) (format_version (FormatV11 Fs))
  else if version =? 12 then
    exportImplementation (mkContext (FormatV12 Fs) E m) (format_version (FormatV12 Fs))
  else throw (version_not_supported version).

(** The exporter after its constructor: empty tables, no warnings, and
    [output] already in the stream.  [heap] is the first address that no
    symbol of the map occupies. *)
Definition newExporter (output : QByteArray) (heap : nat) : Exporter :=
  mkExporter 0 None MapCoord_default false ∅ [] []
    (mkOcdFile [] 0 false 0 0 None [] 0 [] [] []) output heap.

(** * Part II: properties *)

(** ** Fixed-width integers *)

Module IntFacts.
Import Int.

Lemma quint32_small z : 0 <= z < 2 ^ 32 -> quint32 z = z.
Proof. intros H. unfold quint32. now apply Z.mod_small. Qed.

Lemma quint16_small z : 0 <= z < 2 ^ 16 -> quint16 z = z.
Proof. intros H. unfold quint16. now apply Z.mod_small. Qed.

Lemma qint32_small z : - 2 ^ 31 <= z < 2 ^ 31 -> qint32 z = z.
Proof. intros H. unfold qint32. rewrite Z.mod_small; lia. Qed.

Lemma qint32_high z : 2 ^ 31 <= z < 2 ^ 32 -> qint32 z = z - 2 ^ 32.
Proof.
  intros H. unfold qint32.
  replace (z + 2 ^ 31) with (z - 2 ^ 31 + 1 * 2 ^ 32) by lia.
  rewrite Z.mod_add by lia. rewrite Z.mod_small; lia.
Qed.

Lemma quint32_neg z : - 2 ^ 32 <= z < 0 -> quint32 z = z + 2 ^ 32.
Proof.
  intros H. unfold quint32.
  replace z with (z + 2 ^ 32 + (-1) * 2 ^ 32) at 1 by lia.
  rewrite Z.mod_add by lia. rewrite Z.mod_small; lia.
Qed.

(** Setting a bit that is clear adds its weight. *)
Lemma lor_high_bit n x : 0 <= n -> 0 <= x < 2 ^ n -> Z.lor (2 ^ n) x = 2 ^ n + x.
Proof.
  intros Hn Hx.
  assert (Hland : Z.land (2 ^ n) x = 0).
  { apply Z.bits_inj'. intros k Hk. rewrite Z.land_spec, Z.bits_0.
    destruct (Z.eq_dec k n) as [-> | Hne].
    - assert (Z.testbit x n = false) as ->; [| apply andb_false_r].
      destruct (Z.eq_dec x 0) as [-> | Hx0]; [apply Z.bits_0 |].
      apply Z.bits_above_log2; [lia |]. apply Z.log2_lt_pow2; lia.
    - rewrite Z.pow2_bits_eqb by lia.
      destruct (Z.eqb_spec n k); [lia | reflexivity]. }
  rewrite <- Z.lxor_lor by exact Hland.
  symmetry. now apply Z.add_nocarry_lxor.
Qed.

End IntFacts.

(** ** C1: the coordinate conversion rounds half up *)

(** The source pins the rounding with [Q_STATIC_ASSERT]s. *)
Example convertPointMember_static_asserts :
  convertPointMember (-16) = Int.qint32 0xfffffe00 /\
  convertPointMember (-15) = Int.qint32 0xffffff00 /\
  convertPointMember (-6) = Int.qint32 0xffffff00 /\
  convertPointMember (-5) = Int.qint32 0x00000000 /\
  convertPointMember (-1) = Int.qint32 0x00000000 /\
  convertPointMember 0 = Int.qint32 0x00000000 /\
  convertPointMember 1 = Int.qint32 0x00000000 /\
  convertPointMember 4 = Int.qint32 0x00000000 /\
  convertPointMember 5 = Int.qint32 0x00000100 /\
  convertPointMember 14 = Int.qint32 0x00000100 /\
  convertPointMember 15 = Int.qint32 0x00000200.
Proof. repeat split; reflexivity. Qed.

(** The masked 23-bit field of a value [q]. *)
Lemma land_field_quint32 q :
  Z.land 0x7fffff (Int.quint32 q) = q mod 2 ^ 23.
Proof.
  unfold Int.quint32. rewrite Z.land_comm.
  change 0x7fffff with (Z.ones 23). rewrite Z.land_ones by lia.
  apply Z.mod_mod_divide. exists (2 ^ 9). reflexivity.
Qed.

Lemma convertPointMember_nonneg_branch v :
  -5 <= v -> (v + 5) / 10 < 2 ^ 23 ->
  convertPointMember v = 256 * ((v + 5) / 10).
Proof.
  intros Hv Hq. unfold convertPointMember.
  destruct (Z.ltb_spec v (-5)) as [? | _]; [lia |].
  rewrite Z.quot_div_nonneg by lia.
  assert (0 <= (v + 5) / 10) by (apply Z.div_pos; lia).
  rewrite land_field_quint32, Z.mod_small by lia.
  rewrite Z.shiftl_mul_pow2 by lia.
  rewrite IntFacts.qint32_small; lia.
Qed.

Lemma quot_neg_round v : v < -5 -> (v - 4) ÷ 10 = (v + 5) / 10.
Proof.
  intros Hv.
  pose proof (Z.quot_rem' (v - 4) 10) as Hqr.
  pose proof (Z.rem_bound_pos_neg (v - 4) 10 ltac:(lia) ltac:(lia)) as Hr.
  pose proof (Z.div_mod (v + 5) 10 ltac:(lia)) as Hdm.
  pose proof (Z.mod_pos_bound (v + 5) 10 ltac:(lia)) as Hm.
  lia.
Qed.

Lemma convertPointMember_neg_branch v :
  v < -5 -> - 2 ^ 23 <= (v + 5) / 10 ->
  convertPointMember v = 256 * ((v + 5) / 10).
Proof.
  intros Hv Hq. unfold convertPointMember.
  destruct (Z.ltb_spec v (-5)) as [_ | ?]; [| lia].
  rewrite quot_neg_round by exact Hv.
  set (q := (v + 5) / 10) in *.
  assert (Hneg : q < 0).
  { subst q. apply Z.div_lt_upper_bound; lia. }
  rewrite land_field_quint32.
  assert (Hmod : q mod 2 ^ 23 = q + 2 ^ 23).
  { replace q with (q + 2 ^ 23 + (-1) * 2 ^ 23) at 1 by lia.
    rewrite Z.mod_add by lia. apply Z.mod_small. lia. }
  rewrite Hmod, Z.shiftl_mul_pow2 by lia.
  change 0x80000000 with (2 ^ 31).
  rewrite IntFacts.lor_high_bit by lia.
  rewrite IntFacts.qint32_high; lia.
Qed.

Lemma convertPointMember_in_range v :
  pointMember_min <= v <= pointMember_max ->
  convertPointMember v = 256 * ((v + 5) / 10).
Proof.
  unfold pointMember_min, pointMember_max. intros Hv.
  destruct (Z_lt_ge_dec v (-5)) as [Hlt | Hge].
  - apply convertPointMember_neg_branch; [exact Hlt |].
    apply Z.div_le_lower_bound; lia.
  - apply convertPointMember_nonneg_branch; [lia |].
    apply Z.div_lt_upper_bound; lia.
Qed.

(** C1 (as amended): for every coordinate [v] whose tenth fits the signed
    24-bit coordinate field, [convertPointMember v] is the fixed-point
    value [floor((v+5)/10)] placed above the eight flag bits, i.e.
    [256 * floor((v+5)/10)]: round-half-up for both signs.  The value
    steps between [v-1] and [v] exactly when [v] is congruent to 5 modulo
    10, so among the multiples of 5 in [-20, 20] at -15, -5, 5 and 15. *)
Theorem convertPointMember_round_half_up (v : Z) :
  pointMember_min <= v <= pointMember_max ->
  convertPointMember v = 256 * ((v + 5) / 10) /\
  (pointMember_min < v ->
   (convertPointMember (v - 1) <> convertPointMember v <-> v mod 10 = 5)) /\
  map convertPointMember [-20; -15; -10; -6; -5; 0; 5; 10; 15; 20]
  = map (Z.mul 256) [-2; -1; -1; -1; 0; 0; 1; 1; 2; 2].
Proof.
  intros Hv. split; [now apply convertPointMember_in_range |].
  split; [| reflexivity].
  intros Hlo.
  rewrite !convertPointMember_in_range by (unfold pointMember_min, pointMember_max in *; lia).
  replace (v - 1 + 5) with (v + 4) by lia.
  pose proof (Z.div_mod (v + 5) 10 ltac:(lia)) as H5.
  pose proof (Z.mod_pos_bound (v + 5) 10 ltac:(lia)) as B5.
  pose proof (Z.div_mod (v + 4) 10 ltac:(lia)) as H4.
  pose proof (Z.mod_pos_bound (v + 4) 10 ltac:(lia)) as B4.
  pose proof (Z.div_mod v 10 ltac:(lia)) as H0.
  pose proof (Z.mod_pos_bound v 10 ltac:(lia)) as B0.
  split; intros H; lia.
Qed.

Lemma convertPointMember_round_half_up_witness :
  convertPointMember (-5) = 256 * ((-5 + 5) / 10) /\
  (convertPointMember (-5 - 1) <> convertPointMember (-5) <-> (-5) mod 10 = 5).
Proof.
  destruct (convertPointMember_round_half_up (-5)) as (H1 & H2 & _).
  - unfold pointMember_min, pointMember_max. lia.
  - split; [exact H1 |]. apply H2. unfold pointMember_min. lia.
Defined.

(** C1 as stated fails outside that range: the tenth of 100000000 does not
    fit the 23 value bits that the mask [0x7fffff] keeps; and a multiple
    of 5 that is a multiple of 10 is no rounding boundary. *)
Lemma convertPointMember_out_of_range :
  convertPointMember 100000000 = 256 * 1611392 /\
  convertPointMember 100000000 <> 256 * ((100000000 + 5) / 10) /\
  convertPointMember 100000000 <> Int.qint32 (256 * ((100000000 + 5) / 10)) /\
  convertPointMember (0 - 1) = convertPointMember 0.
Proof. repeat split; vm_compute; congruence. Qed.


(** ** C10: the palette quantizers return an entry's own index *)

Section Scan.

Variable distance : Z -> Z.

(** Once the best distance is 0 no later candidate replaces it. *)
Lemma scan_settled (i : Z) (l : list Z) :
  (forall j, j ∈ l -> 0 <= distance j) ->
  scan distance l (i, 0) = (i, 0).
Proof.
  induction l as [| j l IH]; intros Hpos; [reflexivity |].
  cbn [scan fold_left]. unfold scan_step at 2. cbn [snd].
  assert (0 <= distance j) by (apply Hpos; left).
  destruct (Z.ltb_spec (distance j) 0); [lia |].
  apply IH. intros k Hk. apply Hpos. now right.
Qed.

(** A candidate at distance 0, all others being farther, wins whatever the
    scan has seen before. *)
Lemma scan_exact (i : Z) (l : list Z) (acc : Z * Z) :
  0 < snd acc ->
  i ∈ l ->
  distance i = 0 ->
  (forall j, j ∈ l -> j <> i -> 0 < distance j) ->
  scan distance l acc = (i, 0).
Proof.
  revert acc. induction l as [| j l IH]; intros acc Hacc Hin Hzero Hothers.
  - inversion Hin.
  - cbn [scan fold_left]. unfold scan_step at 2.
    destruct (Z.eq_dec j i) as [-> | Hne].
    + rewrite Hzero. destruct (Z.ltb_spec 0 (snd acc)); [| lia].
      apply scan_settled. intros k Hk.
      destruct (Z.eq_dec k i) as [-> | Hki]; [lia |].
      assert (0 < distance k) by (apply Hothers; [now right | exact Hki]). lia.
    + assert (Hj : 0 < distance j) by (apply Hothers; [left | exact Hne]).
      apply IH.
      * destruct (Z.ltb_spec (distance j) (snd acc)); cbn [snd]; lia.
      * apply elem_of_cons in Hin as [-> | Hin]; [congruence | exact Hin].
      * exact Hzero.
      * intros k Hk. apply Hothers. now right.
Qed.

End Scan.

(** The colour of a palette entry. *)
Definition V9_rgb (p : V9.PaletteColor) : Z := Qt.qRgb (V9.r p) (V9.g p) (V9.b p).

(** Among the 125 entries, the distance from an entry's colour is 0 at the
    entry itself and positive elsewhere. *)
Definition V9_distance_check (i j : Z) : bool :=
  if i =? j
  then V9.distance (V9_rgb (V9.palette_at i)) j =? 0
  else 0 <? V9.distance (V9_rgb (V9.palette_at i)) j.

Lemma V9_distance_table :
  forallb (fun i => forallb (V9_distance_check i) V9.candidates) V9.candidates = true.
Proof. vm_compute. reflexivity. Qed.

Lemma V9_distance_spec (i j : Z) :
  i ∈ V9.candidates -> j ∈ V9.candidates ->
  (i = j -> V9.distance (V9_rgb (V9.palette_at i)) j = 0) /\
  (i <> j -> 0 < V9.distance (V9_rgb (V9.palette_at i)) j).
Proof.
  intros Hi Hj. pose proof V9_distance_table as T.
  rewrite forallb_forall in T. specialize (T i (proj1 (list_elem_of_In _ _) Hi)).
  rewrite forallb_forall in T. specialize (T j (proj1 (list_elem_of_In _ _) Hj)).
  unfold V9_distance_check in T.
  destruct (Z.eqb_spec i j); split; intros; try congruence; lia.
Qed.

Lemma V9_candidates_lookup (i : nat) (p : V9.PaletteColor) :
  V9.palette !! i = Some p ->
  Z.of_nat i ∈ V9.candidates /\ V9.palette_at (Z.of_nat i) = p.
Proof.
  intros Hi. split.
  - unfold V9.candidates. apply list_elem_of_fmap. exists i. split; [reflexivity |].
    apply elem_of_seq. apply lookup_lt_Some in Hi. cbn in Hi. lia.
  - unfold V9.palette_at. rewrite Nat2Z.id.
    now apply nth_lookup_Some with (d := V9.PC 0 0 0) in Hi.
Qed.

Lemma getPaletteColorV9_entry (i : nat) (p : V9.PaletteColor) :
  V9.palette !! i = Some p ->
  V9.getPaletteColorV9 (V9_rgb p) = Z.of_nat i.
Proof.
  intros Hi. destruct (V9_candidates_lookup i p Hi) as [Hin Hat].
  unfold V9.getPaletteColorV9.
  destruct (Z.eqb_spec (V9_rgb p) (Qt.qRgb 255 255 255)) as [Hwhite | _].
  - (* the fast path: only the last entry is white *)
    assert (H124 : 124 ∈ V9.candidates).
    { unfold V9.candidates. apply list_elem_of_fmap. exists 124%nat.
      split; [reflexivity |]. apply elem_of_seq. lia. }
    destruct (V9_distance_spec _ _ Hin H124) as [_ Hpos].
    destruct (Z.eq_dec (Z.of_nat i) 124) as [-> | Hne]; [reflexivity |].
    specialize (Hpos Hne). rewrite Hat, Hwhite in Hpos.
    vm_compute in Hpos. discriminate.
  - rewrite (scan_exact _ (Z.of_nat i)); [reflexivity | cbn; lia | exact Hin | |].
    + destruct (V9_distance_spec _ _ Hin Hin) as [Hzero _].
      rewrite Hat in Hzero. now apply Hzero.
    + intros j Hj Hne.
      destruct (V9_distance_spec _ _ Hin Hj) as [_ Hpos].
      rewrite Hat in Hpos. apply Hpos. congruence.
Qed.

Lemma getPaletteColorV6_entry (toHsv : Z -> Qt.Hsv) (i : nat) (rgb : Z) (hsv : Qt.Hsv) :
  V6.original_palette !! i = Some rgb ->
  V6.palette !! i = Some hsv ->
  toHsv rgb = hsv ->
  V6.getPaletteColorV6 toHsv rgb = Z.of_nat i.
Proof.
  intros Hrgb Hhsv Hto. unfold V6.getPaletteColorV6. rewrite Hto. clear Hto.
  do 16 (destruct i as [| i];
         [cbn in Hrgb, Hhsv; injection Hrgb as <-; injection Hhsv as <-;
          vm_compute; reflexivity |]).
  discriminate Hrgb.
Qed.

(** C10: both palette quantizers are idempotent.  Quantizing the colour of
    an entry of the fixed palette returns the entry's own index: for the
    16 colours from which the HSV table of [getPaletteColorV6] was
    generated (provided [toHsv] converts them to the table's entries, as
    the generator block of the source states), and for the 125 entries of
    [getPaletteColorV9]; pure white gives 15 and 124. *)
Theorem palette_quantizers_idempotent (toHsv : Z -> Qt.Hsv) :
  Forall2 (fun rgb hsv => toHsv rgb = hsv) V6.original_palette V6.palette ->
  (forall (i : nat) (rgb : Z),
      V6.original_palette !! i = Some rgb ->
      V6.getPaletteColorV6 toHsv rgb = Z.of_nat i) /\
  (forall (i : nat) (p : V9.PaletteColor),
      V9.palette !! i = Some p ->
      V9.getPaletteColorV9 (Qt.qRgb (V9.r p) (V9.g p) (V9.b p)) = Z.of_nat i) /\
  V6.getPaletteColorV6 toHsv (Qt.qRgb 255 255 255) = 15 /\
  V9.getPaletteColorV9 (Qt.qRgb 255 255 255) = 124.
Proof.
  intros Hgen. repeat split.
  - intros i rgb Hrgb.
    destruct (Forall2_lookup_l _ _ _ _ _ Hgen Hrgb) as (hsv & Hhsv & Hto).
    now apply getPaletteColorV6_entry with (hsv := hsv).
  - intros i p Hp. now apply getPaletteColorV9_entry.
Qed.

(** Qt's conversion, computed exactly, maps the 16 colours to the table. *)
Lemma hsv_of_original_palette :
  Forall2 (fun rgb hsv => Qt.hsv_of_rgb rgb = hsv) V6.original_palette V6.palette.
Proof. repeat constructor. Qed.

Lemma palette_quantizers_idempotent_witness :
  V6.getPaletteColorV6 Qt.hsv_of_rgb (Qt.qRgb 128 128 0) = 3 /\
  V9.getPaletteColorV9 (Qt.qRgb 64 128 192) = 38.
Proof.
  destruct (palette_quantizers_idempotent Qt.hsv_of_rgb hsv_of_original_palette)
    as (H6 & H9 & _).
  split.
  - exact (H6 3%nat _ eq_refl).
  - exact (H9 38%nat (V9.PC 64 128 192) eq_refl).
Defined.

(** ** Example data *)

(** A small map: two colours, and the given symbols and parts. *)
Definition example_colors : list MapColor :=
  [mkMapColor 11 "Black"; mkMapColor 12 "Brown"].

Definition example_map (symbols : list Symbol) (parts : list (list Object)) : Map :=
  mkMap example_colors (mkMapColor 10 "Registration black") false symbols parts
    "notes" None (MapCoord_default, []) (fun _ => "scale") (fun _ c => colorName c).

(** Padding to a multiple of eight bytes. *)
Definition pad8 (data : QByteArray) : QByteArray :=
  data ++ replicate (Z.to_nat ((- Z.of_nat (length data)) mod 8)) Byte.x00.

(** Formats with the shape of the version 8 and version 9 layouts: 16-bit
    resp. 32-bit symbol numbers, element headers of 16 bytes, blank memory
    images. *)
Definition example_format (version : Z) : Format :=
  mkFormat version true
    (if version =? 8 then 10 else 1000)
    (if version =? 8 then - 2 ^ 15 else - 2 ^ 31)
    (if version =? 8 then 2 ^ 15 - 1 else 2 ^ 31 - 1)
    (if version =? 8 then Int.qint16 else Int.qint32)
    Int.quint16 Int.qint16 Int.quint16 Int.qint32 Int.quint16 Int.quint16
    16 64 80 96 72 40
    (negb (version =? 8))
    (mkPointFlags 1 2 1 2 8)
    (mkAreaModes 0 1 2 0 1 2)
    (fun _ _ => Byte.x00) (fun _ _ => Byte.x00) (fun _ _ => Byte.x00)
    [] pad8
    (fun f => file_byteArray f ++ concat (file_symbols f)
              ++ concat (map fst (file_objects f))).

Definition example_environment : Environment :=
  mkEnvironment "latin1"
    (Some (fun s => map Ascii.byte_of_ascii (String.list_ascii_of_string s)))
    (fun s => map Ascii.byte_of_ascii (String.list_ascii_of_string s))
    (fun s => map Ascii.byte_of_ascii (String.list_ascii_of_string s))
    (fun _ => 0)
    (fun _ => ([], [])).

Definition example_context (version : Z) (m : Map) : Context :=
  mkContext (example_format version) example_environment m.

Definition example_base (address : nat) (n0 n1 : Z) (name : string) : SymbolBase :=
  mkSymbolBase address n0 n1 name false false false.

Definition example_line_attributes : LineAttributes :=
  mkLineAttributes (Some 11%nat) 200 FlatCap BevelJoin 0 false 0 0 1 0 false 0 0
    true 1 0 false
    (mkBorder None 0 0 false 0 0 false) (mkBorder None 0 0 false 0 0 false).

Definition example_line (address : nat) (n0 n1 : Z) (name : string) : LineSymbol :=
  mkLineSymbol (example_base address n0 n1 name) example_line_attributes
    None None None None.

(** A point symbol with an inner dot and one line element of two points. *)
Definition example_point (address : nat) (n0 n1 : Z) : PointSymbol :=
  mkPointSymbol (example_base address n0 n1 "Point") 100 (Some 11%nat) 0 None
    false false
    [(SymLine (example_line 0 0 0 "element"),
      [mkMapCoord (-50) 0 false false false; mkMapCoord 50 0 false false false])].


(** ** C7: colour indices *)

Lemma findColorIndex_from_absent (k : Z) (table : list MapColor) (color : MapColorPtr) :
  (forall c, c ∈ table -> color <> Some (colorAddress c)) ->
  findColorIndex_from k table color = -1.
Proof.
  revert k. induction table as [| c table IH]; intros k Habsent; [reflexivity |].
  cbn [findColorIndex_from].
  rewrite bool_decide_eq_false_2 by (apply Habsent; left).
  apply IH. intros c' Hc'. apply Habsent. now right.
Qed.

Lemma findColorIndex_from_present (k : Z) (table : list MapColor) (i : nat) (c : MapColor) :
  NoDup (map colorAddress table) ->
  table !! i = Some c ->
  findColorIndex_from k table (Some (colorAddress c)) = k + Z.of_nat i.
Proof.
  revert k i. induction table as [| c0 table IH]; intros k i Hnodup Hi; [discriminate |].
  cbn [findColorIndex_from]. cbn [map] in Hnodup. apply NoDup_cons in Hnodup as [Hfresh Hnodup].
  destruct i as [| i]; cbn in Hi.
  - injection Hi as ->. rewrite bool_decide_eq_true_2 by reflexivity. lia.
  - rewrite bool_decide_eq_false_2.
    + rewrite (IH (k + 1) i Hnodup Hi). lia.
    + intros [= Heq]. apply Hfresh. rewrite <- Heq.
      apply list_elem_of_fmap. exists c. split; [reflexivity |].
      eapply list_elem_of_lookup_2. exact Hi.
Qed.



(** ** C2: the precomputed pattern size is the size of the written pattern *)

Lemma length_memory (image : nat -> Byte.byte) (n : nat) : length (memory image n) = n.
Proof. unfold memory. now rewrite length_map, length_seq. Qed.

Lemma length_bytes_of_OcdPoint32 (p : OcdPoint32) :
  length (bytes_of_OcdPoint32 p) = 8%nat.
Proof. reflexivity. Qed.

(** [exportCoordinates] appends eight bytes per coordinate and leaves the
    bytes before them alone. *)
Lemma exportCoordinates_loop_appends (fl : PointFlags) (symbol : option Symbol)
    (coords : MapCoordVector) (cs hp cc : bool) (n : Z) (byte_array : QByteArray) :
  exists appended,
    snd (exportCoordinates_loop fl symbol coords cs hp cc n byte_array)
    = byte_array ++ appended
    /\ length appended = (8 * length coords)%nat.
Proof.
  revert cs hp cc n byte_array.
  induction coords as [| point rest IH]; intros cs hp cc n byte_array.
  - exists []. cbn. now rewrite app_nil_r.
  - cbn [exportCoordinates_loop].
    destruct (IH (isCurveStart point) (isHolePoint point) cs (Int.quint16 (n + 1))
                (byte_array ++ bytes_of_OcdPoint32 (flaggedPoint fl symbol cs hp cc point)))
      as (appended & Heq & Hlen).
    exists (bytes_of_OcdPoint32 (flaggedPoint fl symbol cs hp cc point) ++ appended).
    split.
    + now rewrite Heq, <- app_assoc.
    + rewrite length_app, Hlen, length_bytes_of_OcdPoint32. cbn [length]. lia.
Qed.

Lemma exportCoordinates_appends (fl : PointFlags) (coords : MapCoordVector)
    (symbol : option Symbol) (byte_array : QByteArray) :
  exists appended,
    snd (exportCoordinates fl coords symbol byte_array) = byte_array ++ appended
    /\ length appended = (8 * length coords)%nat.
Proof. apply exportCoordinates_loop_appends. Qed.

(** One element: its header and its coordinates. *)
Lemma writeElement_appends (P : PatternContext) (element : Element)
    (coords : MapCoordVector) (symbol : Symbol) (n : Z) (byte_array : QByteArray) :
  exists appended,
    snd (writeElement P element coords symbol n byte_array) = byte_array ++ appended
    /\ length appended = (sizeof_Element (pc_format P) + 8 * length coords)%nat.
Proof.
  unfold writeElement.
  set (F := pc_format P).
  set (reserved := byte_array ++ memory (image_Element F element) (sizeof_Element F)).
  destruct (exportCoordinates_appends (point_flags F) coords (Some symbol) reserved)
    as (appended & Heq & Hlen).
  destruct (exportCoordinates (point_flags F) coords (Some symbol) reserved)
    as [k after] eqn:Hexp.
  cbn [snd] in Heq |- *. subst after reserved.
  eexists. split.
  - rewrite <- app_assoc.
    rewrite take_app_length, drop_app_add.
    rewrite drop_app_length' by (now rewrite length_memory).
    reflexivity.
  - rewrite length_app, length_memory, Hlen. reflexivity.
Qed.

(** The element symbols that [exportSubPattern] handles; for the others it
    reaches [Q_UNREACHABLE()]. *)
Definition drawable (symbol : Symbol) : Prop :=
  getType symbol = Point \/ getType symbol = Line \/ getType symbol = Area.

Definition drawableElements (point : PointSymbol) : Prop :=
  Forall (fun element => drawable (fst element)) (PointSym.elements point).

(** The number of coordinate-sized units of one sub-pattern. *)
Definition subPatternUnits (coords : MapCoordVector) (symbol : Symbol) : Z :=
  patternSize_step 0 (symbol, coords).

Lemma patternSize_step_add (count : Z) (element : Symbol * MapCoordVector) :
  patternSize_step count element = count + patternSize_step 0 element.
Proof. unfold patternSize_step. lia. Qed.

Lemma fold_patternSize_step (elements : list (Symbol * MapCoordVector)) (count : Z) :
  fold_left patternSize_step elements count
  = count + fold_left patternSize_step elements 0.
Proof.
  revert count. induction elements as [| e elements IH]; intros count; cbn [fold_left].
  - lia.
  - rewrite (IH (patternSize_step count e)), (IH (patternSize_step 0 e)).
    rewrite (patternSize_step_add count e). lia.
Qed.

Section PatternBytes.

Variable P : PatternContext.

(** An element header occupies the room of two coordinates. *)
Hypothesis element_is_two_points :
  Z.of_nat (sizeof_Element (pc_format P)) = 2 * sizeof_OcdPoint32.

Lemma exportSubPattern_appends (coords : MapCoordVector) (symbol : Symbol)
    (byte_array : QByteArray) :
  drawable symbol ->
  exists n appended,
    exportSubPattern P coords symbol byte_array = Some (n, byte_array ++ appended)
    /\ Z.of_nat (length appended) = sizeof_OcdPoint32 * subPatternUnits coords symbol.
Proof.
  intros Hdrawable. unfold subPatternUnits, patternSize_step. cbn [fst snd].
  unfold sizeof_OcdPoint32 in *.
  destruct symbol as [p | l | a | t | c]; cbn [exportSubPattern];
    try (destruct Hdrawable as [H | [H | H]]; discriminate H).
  - (* a point symbol: the dot, then the circle *)
    destruct (hasInnerDot p); destruct (hasOuterCircle p); cbn [fst snd].
    + match goal with
      | |- context [writeElement P ?e coords ?s 0 byte_array] =>
          destruct (writeElement_appends P e coords s 0 byte_array) as (a1 & E1 & L1);
          destruct (writeElement P e coords s 0 byte_array) as [n1 b1]
      end.
      cbn [fst snd] in *. subst b1.
      match goal with
      | |- context [writeElement P ?e coords ?s n1 ?b] =>
          destruct (writeElement_appends P e coords s n1 b) as (a2 & E2 & L2);
          destruct (writeElement P e coords s n1 b) as [n2 b2]
      end.
      cbn [snd] in E2. subst b2.
      exists n2, (a1 ++ a2). split; [now rewrite app_assoc |].
      rewrite length_app. lia.
    + match goal with
      | |- context [writeElement P ?e coords ?s 0 byte_array] =>
          destruct (writeElement_appends P e coords s 0 byte_array) as (a1 & E1 & L1);
          destruct (writeElement P e coords s 0 byte_array) as [n1 b1]
      end.
      cbn [snd] in E1. subst b1. exists n1, a1. split; [reflexivity | lia].
    + match goal with
      | |- context [writeElement P ?e coords ?s 0 byte_array] =>
          destruct (writeElement_appends P e coords s 0 byte_array) as (a1 & E1 & L1);
          destruct (writeElement P e coords s 0 byte_array) as [n1 b1]
      end.
      cbn [snd] in E1. subst b1. exists n1, a1. split; [reflexivity | lia].
    + exists 0, []. split; [now rewrite app_nil_r | cbn; lia].
  - match goal with
    | |- context [writeElement P ?e coords ?s 0 byte_array] =>
        destruct (writeElement_appends P e coords s 0 byte_array) as (a1 & E1 & L1);
        destruct (writeElement P e coords s 0 byte_array) as [n1 b1]
    end.
    cbn [snd] in E1. subst b1. exists n1, a1. split; [reflexivity | lia].
  - match goal with
    | |- context [writeElement P ?e coords ?s 0 byte_array] =>
        destruct (writeElement_appends P e coords s 0 byte_array) as (a1 & E1 & L1);
        destruct (writeElement P e coords s 0 byte_array) as [n1 b1]
    end.
    cbn [snd] in E1. subst b1. exists n1, a1. split; [reflexivity | lia].
Qed.

Lemma exportPattern_loop_appends (elements : list (Symbol * MapCoordVector))
    (num_coords : Z) (byte_array : QByteArray) :
  Forall (fun element => drawable (fst element)) elements ->
  exists n appended,
    exportPattern_loop P elements num_coords byte_array = Some (n, byte_array ++ appended)
    /\ Z.of_nat (length appended)
       = sizeof_OcdPoint32 * fold_left patternSize_step elements 0.
Proof.
  revert num_coords byte_array.
  induction elements as [| [symbol coords] elements IH];
    intros num_coords byte_array Hdrawable.
  - exists num_coords, []. cbn. split; [now rewrite app_nil_r | lia].
  - apply Forall_cons in Hdrawable as [Hhead Htail]. cbn [fst] in Hhead.
    cbn [exportPattern_loop fold_left].
    destruct (exportSubPattern_appends coords symbol byte_array Hhead)
      as (n1 & a1 & E1 & L1).
    rewrite E1.
    destruct (IH (Int.qint16 (num_coords + n1)) (byte_array ++ a1) Htail)
      as (n2 & a2 & E2 & L2).
    rewrite E2. exists n2, (a1 ++ a2). split; [now rewrite app_assoc |].
    rewrite fold_patternSize_step. unfold subPatternUnits in L1.
    rewrite length_app. lia.
Qed.

(** [exportPattern] appends exactly [getPatternSize] bytes. *)
Lemma exportPattern_appends (point : option PointSymbol) (byte_array : QByteArray) :
  (forall p, point = Some p -> drawableElements p) ->
  exists n appended,
    exportPattern P point byte_array = Some (n, byte_array ++ appended)
    /\ Z.of_nat (length appended) = getPatternSize point.
Proof.
  intros Hdrawable. destruct point as [point |].
  - specialize (Hdrawable point eq_refl).
    cbn [exportPattern getPatternSize].
    destruct (exportSubPattern_appends [MapCoord_default] (SymPoint point) byte_array)
      as (n1 & a1 & E1 & L1); [now left |].
    rewrite E1.
    destruct (exportPattern_loop_appends (PointSym.elements point) n1
                (byte_array ++ a1) Hdrawable) as (n2 & a2 & E2 & L2).
    rewrite E2. exists n2, (a1 ++ a2). split; [now rewrite app_assoc |].
    rewrite length_app.
    unfold subPatternUnits, patternSize_step in L1. cbn [fst snd length] in L1.
    unfold sizeof_OcdPoint32 in *.
    destruct (hasInnerDot point); destruct (hasOuterCircle point); lia.
  - exists 0, []. cbn. split; [now rewrite app_nil_r | reflexivity].
Qed.

End PatternBytes.

Lemma getPatternSize_multiple_of_8 (point : option PointSymbol) :
  8 * (getPatternSize point ÷ 8) = getPatternSize point.
Proof.
  destruct point as [point |]; [| reflexivity].
  cbn [getPatternSize]. unfold sizeof_OcdPoint32.
  match goal with |- 8 * ((?c * 8) ÷ 8) = _ => generalize c end.
  intros c. rewrite Z.quot_mul by lia. lia.
Qed.

(** C2: for every point symbol (whose element symbols are point, line or
    area symbols) and every format in which an element header has the
    size of two coordinates, [exportPattern] appends exactly the
    [getPatternSize] bytes computed beforehand; hence the record that
    [exportPointSymbol] returns has [header_size + pattern_size] bytes,
    the value stored (converted to the member's type) in [base.size],
    with [pattern_size / 8] in [data_size]. *)
Theorem pattern_size_matches (C : Context) (point_symbol : PointSymbol)
    (st st' : Exporter) (base : OcdBaseSymbol) :
  let F := ctx_format C in
  let header := header_size (sizeof_PointSymbol F) F in
  let pattern_size := getPatternSize (Some point_symbol) in
  Z.of_nat (sizeof_Element F) = 2 * sizeof_OcdPoint32 ->
  (sizeof_Element F <= sizeof_PointSymbol F)%nat ->
  drawableElements point_symbol ->
  setupBaseSymbol C (SymPoint point_symbol) st = (Return base, st') ->
  (forall byte_array,
      exists n appended,
        exportPattern (patternContext C st') (Some point_symbol) byte_array
        = Some (n, byte_array ++ appended)
        /\ Z.of_nat (length appended) = pattern_size) /\
  exists ocd_symbol data,
    exportPointSymbol_record C point_symbol st = (Return (ocd_symbol, data), st')
    /\ Z.of_nat (length data) = header + pattern_size
    /\ base_size (ocd_base ocd_symbol) = size_type F (header + pattern_size)
    /\ ocd_data_size ocd_symbol = data_size_type F (pattern_size ÷ 8)
    /\ 8 * (pattern_size ÷ 8) = pattern_size.
Proof.
  intros F header pattern_size Helement Hheader Hdrawable Hbase.
  assert (Hpattern : forall byte_array,
             exists n appended,
               exportPattern (patternContext C st') (Some point_symbol) byte_array
               = Some (n, byte_array ++ appended)
               /\ Z.of_nat (length appended) = pattern_size).
  { intros byte_array. apply exportPattern_appends; [exact Helement |].
    now intros p [= <-]. }
  split; [exact Hpattern |].
  unfold exportPointSymbol_record.
  unfold mbind at 1, Export_bind. rewrite Hbase.
  unfold mbind at 1, Export_bind, getState.
  fold F. fold pattern_size. fold header.
  match goal with
  | |- context [exportPattern _ _ (memory ?img ?n)] =>
      destruct (Hpattern (memory img n)) as (k & appended & Hexp & Hlen); rewrite Hexp
  end.
  unfold liftOption, mbind, mret, Export_bind, Export_ret. cbn [fst snd].
  eexists _, _. split; [reflexivity |]. cbn [ocd_base ocd_data_size with_layout base_size].
  split; [| split; [reflexivity | split; [reflexivity |]]].
  - rewrite length_app, length_memory, Nat2Z.inj_add, Hlen.
    rewrite Z2Nat.id; [reflexivity |]. unfold header, header_size. lia.
  - apply getPatternSize_multiple_of_8.
Qed.

Lemma pattern_size_matches_witness :
  exists ocd_symbol data,
    exportPointSymbol_record (example_context 9 (example_map [] []))
      (example_point 1 101 0) (newExporter [] 100)
    = (Return (ocd_symbol, data),
       snd (setupBaseSymbol (example_context 9 (example_map [] []))
              (SymPoint (example_point 1 101 0)) (newExporter [] 100)))
    /\ Z.of_nat (length data) = 48 + 56.
Proof.
  destruct (pattern_size_matches (example_context 9 (example_map [] []))
              (example_point 1 101 0) (newExporter [] 100)
              (snd (setupBaseSymbol (example_context 9 (example_map [] []))
                      (SymPoint (example_point 1 101 0)) (newExporter [] 100)))
              (mkOcdBaseSymbol 101000 false false Point 0 0 0))
    as [_ (ocd_symbol & data & Hrun & Hlen & _)].
  - reflexivity.
  - cbn. lia.
  - apply Forall_cons. split; [right; left; reflexivity | constructor].
  - vm_compute. reflexivity.
  - exists ocd_symbol, data. split; [exact Hrun | exact Hlen].
Defined.

(** ** The uniqueness loop of [setupBaseSymbol] *)

Lemma wrap_in_range (lo hi z : Z) : lo <= z <= hi -> Int.wrap lo hi z = z.
Proof. intros H. unfold Int.wrap. rewrite Z.mod_small; lia. Qed.

(** The entries of the table whose number is at least [n]. *)
Definition entriesFrom (n : Z) (entries : list (nat * Z)) : list (nat * Z) :=
  filter (fun entry => n <= snd entry) entries.

Lemma entriesFrom_succ_le (n : Z) (entries : list (nat * Z)) :
  (length (entriesFrom (n + 1) entries) <= length (entriesFrom n entries))%nat.
Proof.
  unfold entriesFrom.
  induction entries as [| e entries IH]; [reflexivity |].
  rewrite !filter_cons.
  destruct (decide (n + 1 <= snd e)); destruct (decide (n <= snd e)); cbn [length]; lia.
Qed.

Lemma entriesFrom_succ_lt (n : Z) (entries : list (nat * Z)) :
  (exists e, e ∈ entries /\ snd e = n) ->
  (length (entriesFrom (n + 1) entries) < length (entriesFrom n entries))%nat.
Proof.
  intros (e0 & Hin & Heq). induction entries as [| e entries IH]; [inversion Hin |].
  unfold entriesFrom in *. rewrite !filter_cons.
  apply elem_of_cons in Hin as [<- | Hin].
  - pose proof (entriesFrom_succ_le n entries) as Hle. unfold entriesFrom in Hle.
    destruct (decide (n + 1 <= snd e0)); destruct (decide (n <= snd e0));
      cbn [length]; lia.
  - specialize (IH Hin).
    destruct (decide (n + 1 <= snd e)); destruct (decide (n <= snd e));
      cbn [length]; lia.
Qed.

Lemma matches_symbol_number_true (table : gmap nat Z) (number : Z) :
  matches_symbol_number table number = true ->
  exists key, table !! key = Some (Int.quint32 number).
Proof.
  unfold matches_symbol_number. rewrite existsb_exists.
  intros ([key v] & Hin & Heq). cbn [snd] in Heq.
  apply list_elem_of_In, elem_of_map_to_list in Hin.
  exists key. rewrite Hin. f_equal. lia.
Qed.

Lemma matches_symbol_number_false (table : gmap nat Z) (number : Z) :
  matches_symbol_number table number = false ->
  forall key, table !! key <> Some (Int.quint32 number).
Proof.
  intros Hfalse key Hkey.
  assert (matches_symbol_number table number = true); [| congruence].
  unfold matches_symbol_number. rewrite existsb_exists.
  exists (key, Int.quint32 number). split.
  - apply list_elem_of_In, elem_of_map_to_list. exact Hkey.
  - cbn [snd]. lia.
Qed.

Section Numbering.

Variable F : Format.

(** The number member can hold 1, and its values fit the [quint32] of the
    table. *)
Hypothesis number_range : number_min F <= 1 /\ number_max F < 2 ^ 32.

(** The loop ends, at a free number not far above the start. *)
Lemma ensureUnique_finds (fuel : nat) (table : gmap nat Z) (n : Z) :
  let taken := length (entriesFrom n (map_to_list table)) in
  (taken < fuel)%nat ->
  1 <= n ->
  n + Z.of_nat taken <= number_max F ->
  exists m,
    ensureUnique F fuel table n = Some m
    /\ n <= m <= n + Z.of_nat taken
    /\ forall key, table !! key <> Some m.
Proof.
  revert n. induction fuel as [| fuel IH]; intros n taken Hfuel Hn Hmax; [lia |].
  cbn [ensureUnique].
  destruct (matches_symbol_number table n) eqn:Hmatch.
  - apply matches_symbol_number_true in Hmatch as [key Hkey].
    rewrite IntFacts.quint32_small in Hkey by lia.
    assert (Hlt : (length (entriesFrom (n + 1) (map_to_list table)) < taken)%nat).
    { apply entriesFrom_succ_lt. exists (key, n). split; [| reflexivity].
      now apply elem_of_map_to_list. }
    unfold number_type. rewrite wrap_in_range by lia.
    destruct (IH (n + 1)) as (m & Hm & Hbound & Hfree); [lia | lia | lia |].
    exists m. split; [exact Hm |]. split; [lia | exact Hfree].
  - exists n. split; [reflexivity |]. split; [lia |].
    intros key Hkey. apply (matches_symbol_number_false _ _ Hmatch key).
    rewrite IntFacts.quint32_small by lia. exact Hkey.
Qed.

Variable C : Context.
Hypothesis format_of_C : ctx_format C = F.
Hypothesis factor_positive : 0 < symbol_number_factor F.

(** The number that a symbol asks for, with 0.0 promoted to 1. *)
Definition promoted (symbol : Symbol) : Z :=
  Z.max 1 (requestedNumber F (symbolBase symbol)).

Lemma requestedNumber_nonneg (symbol : Symbol) :
  0 <= numberComponent0 (symbolBase symbol) ->
  0 <= requestedNumber F (symbolBase symbol).
Proof.
  intros H0. unfold requestedNumber.
  destruct (Z.leb_spec 0 (numberComponent1 (symbolBase symbol))) as [H1 | H1].
  - pose proof (Z.rem_nonneg (numberComponent1 (symbolBase symbol))
                  (symbol_number_factor F) ltac:(lia) H1). nia.
  - nia.
Qed.

(** One call: the number is free, at least the promoted request, and the
    table gains exactly the entry of the symbol. *)
Lemma setupBaseSymbol_assigns (symbol : Symbol) (st : Exporter) :
  0 <= numberComponent0 (symbolBase symbol) ->
  promoted symbol + Z.of_nat (size (symbol_numbers st)) <= number_max F ->
  exists base,
    setupBaseSymbol C symbol st
    = (Return base,
       set_symbol_numbers
         (<[address (symbolBase symbol) := base_number base]> (symbol_numbers st)) st)
    /\ promoted symbol <= base_number base
       <= promoted symbol + Z.of_nat (size (symbol_numbers st))
    /\ forall key, symbol_numbers st !! key <> Some (base_number base).
Proof.
  intros Hc0 Hmax. unfold setupBaseSymbol. rewrite format_of_C.
  pose proof (requestedNumber_nonneg symbol Hc0) as Hreq.
  assert (Hstart : number_type F
                     (if requestedNumber F (symbolBase symbol) =? 0 then 1
                      else requestedNumber F (symbolBase symbol))
                   = promoted symbol).
  { unfold number_type, promoted in *.
    destruct (Z.eqb_spec (requestedNumber F (symbolBase symbol)) 0) as [-> | Hne];
      rewrite wrap_in_range; lia. }
  rewrite Hstart.
  pose proof (length_filter
                (fun entry : nat * Z => promoted symbol <= snd entry)
                (map_to_list (symbol_numbers st))) as Hle.
  rewrite length_map_to_list in Hle.
  destruct (ensureUnique_finds (S (size (symbol_numbers st))) (symbol_numbers st)
              (promoted symbol)) as (m & Hm & Hbound & Hfree).
  - unfold entriesFrom. lia.
  - unfold promoted. lia.
  - unfold entriesFrom. lia.
  - rewrite Hm. unfold entriesFrom in Hbound.
    exists (mkOcdBaseSymbol m (isProtected (symbolBase symbol))
              (isHidden (symbolBase symbol)) (getType symbol) 0 0 0).
    cbn [base_number].
    rewrite IntFacts.quint32_small by (unfold promoted in *; lia).
    split; [reflexivity |]. split; [lia | exact Hfree].
Qed.

End Numbering.

(** The loop steps over taken numbers only. *)
Lemma ensureUnique_least (F : Format) (fuel : nat) (table : gmap nat Z) (n m : Z) :
  number_min F <= 1 /\ number_max F < 2 ^ 32 ->
  1 <= n -> n + Z.of_nat fuel <= number_max F + 1 ->
  ensureUnique F fuel table n = Some m ->
  forall k, n <= k < m -> exists key, table !! key = Some k.
Proof.
  intros Hrange. revert n.
  induction fuel as [| fuel IH]; intros n Hn Hmax Hrun k Hk; [discriminate Hrun |].
  cbn [ensureUnique] in Hrun.
  destruct (matches_symbol_number table n) eqn:Hmatch.
  - apply matches_symbol_number_true in Hmatch as [key Hkey].
    rewrite IntFacts.quint32_small in Hkey by lia.
    destruct (Z.eq_dec k n) as [-> | Hne]; [now exists key |].
    destruct fuel as [| fuel']; [discriminate Hrun |].
    unfold number_type in Hrun. rewrite wrap_in_range in Hrun by lia.
    apply (IH (n + 1)); [lia | lia | exact Hrun | lia].
  - injection Hrun as <-. lia.
Qed.


(** ** C6: combinations that cannot be decomposed *)

(** The decision that [exportCombinedSymbol] takes, as a function of the
    version and the parts. *)
Definition linesHandled (line0 line1 : LineSymbol) (line2 : option LineSymbol) : bool :=
  match arrangeDoubleLine line0 line1 line2 with
  | None => false
  | Some (line0, line1, double_line) =>
      let '(main_line, framing) := arrangeFraming line0 line1 in
      maybe_framing framing
      && negb (bool_decide (is_Some double_line)
               && hasBorder (LineSym.attributes main_line))
  end.

Definition twoOrThreeHandled (version : Z) (part0 part1 : Symbol) (part2 : option Symbol) : bool :=
  if bool_decide (getType part0 <> Line) && bool_decide (getType part1 <> Line)
  then false
  else
    let '(part0, part1) :=
      if bool_decide (getType part1 = Area) then (part1, part0) else (part0, part1) in
    match part0 with
    | SymArea _ => negb ((version <? 9) || bool_decide (is_Some part2))
    | SymLine line0 =>
        match part1, part2 with
        | SymLine line1, None => linesHandled line0 line1 None
        | SymLine line1, Some (SymLine line2) => linesHandled line0 line1 (Some line2)
        | _, _ => false
        end
    | _ => false
    end.

Definition combinedHandled (version : Z) (combined_symbol : CombinedSymbol) : bool :=
  match nonNullParts combined_symbol with
  | [part] =>
      match part with
      | SymArea _ | SymLine _ => true
      | _ => false
      end
  | [part0; part1] => twoOrThreeHandled version part0 part1 None
  | [part0; part1; part2] => twoOrThreeHandled version part0 part1 (Some part2)
  | _ => false
  end.

(** The supported decomposition cases, in the words of the specification:
    exactly one area or line part; one area plus one border line under
    version 9 or later; two or three line parts with a consistent
    assignment of framing and double-line filling. *)
Inductive supportedCombination (version : Z) (combined_symbol : CombinedSymbol) : Prop :=
| single_part (part : Symbol) :
    nonNullParts combined_symbol = [part] ->
    getType part = Area \/ getType part = Line ->
    supportedCombination version combined_symbol
| area_with_border (area border : Symbol) :
    9 <= version ->
    nonNullParts combined_symbol ≡ₚ [area; border] ->
    getType area = Area -> getType border = Line ->
    supportedCombination version combined_symbol
| line_with_framing (main_line framing : LineSymbol) :
    nonNullParts combined_symbol ≡ₚ [SymLine main_line; SymLine framing] ->
    maybe_framing framing = true ->
    supportedCombination version combined_symbol
| line_with_framing_and_double_line (main_line framing double_line : LineSymbol) :
    nonNullParts combined_symbol
      ≡ₚ [SymLine main_line; SymLine framing; SymLine double_line] ->
    maybe_framing framing = true ->
    maybe_double_filling double_line = true ->
    hasBorder (LineSym.attributes main_line) = false ->
    supportedCombination version combined_symbol.

(** The state after the warning alone; the heap address counts the
    duplicates made and discarded on the way. *)
Definition warnedState (combined_symbol : CombinedSymbol) (heap : nat) (st : Exporter) : Exporter :=
  set_heap_next heap
    (set_warnings (warnings st ++ [unhandled_combined_symbol combined_symbol]) st).

Lemma unhandled_run (combined_symbol : CombinedSymbol) (st : Exporter) :
  unhandled combined_symbol st = (Return tt, warnedState combined_symbol (heap_next st) st).
Proof. reflexivity. Qed.

Lemma exportLineWithFraming_unhandled (C : Context) (combined_symbol : CombinedSymbol)
    (line0 line1 : LineSymbol) (line2 : option LineSymbol) (st : Exporter) :
  linesHandled line0 line1 line2 = false ->
  exists heap,
    exportLineWithFraming C combined_symbol line0 line1 line2 st
    = (Return tt, warnedState combined_symbol heap st).
Proof.
  unfold linesHandled, exportLineWithFraming. intros Hnot.
  destruct (arrangeDoubleLine line0 line1 line2) as [[[a b] d] |];
    [| eexists; apply unhandled_run].
  destruct (arrangeFraming a b) as [main_line framing].
  destruct (maybe_framing framing); [| eexists; apply unhandled_run].
  cbn [andb] in Hnot. apply negb_false_iff in Hnot.
  destruct main_line as [mb ma ms mm me md].
  unfold mbind, Export_bind, make_duplicate. cbn [withBase LineSym.with_base].
  cbn [LineSym.attributes] in Hnot |- *. rewrite Hnot.
  eexists. reflexivity.
Qed.

Lemma exportTwoOrThreeParts_unhandled (C : Context) (combined_symbol : CombinedSymbol)
    (part0 part1 : Symbol) (part2 : option Symbol) (st : Exporter) :
  twoOrThreeHandled (ocd_version st) part0 part1 part2 = false ->
  exists heap,
    exportTwoOrThreeParts C combined_symbol part0 part1 part2 st
    = (Return tt, warnedState combined_symbol heap st).
Proof.
  unfold twoOrThreeHandled, exportTwoOrThreeParts. intros Hnot.
  destruct (bool_decide (getType part0 <> Line) && bool_decide (getType part1 <> Line))
    eqn:Hlines; [eexists; apply unhandled_run |].
  destruct (if bool_decide (getType part1 = Area) then (part1, part0) else (part0, part1))
    as [q0 q1] eqn:Hswap.
  destruct q0 as [p | line0 | a | t | c]; try (eexists; apply unhandled_run).
  - (* lines *)
    destruct q1 as [p | line1 | a | t | c]; try (eexists; apply unhandled_run).
    destruct part2 as [[p | line2 | a | t | c] |]; try (eexists; apply unhandled_run).
    + now apply exportLineWithFraming_unhandled.
    + now apply exportLineWithFraming_unhandled.
  - (* an area first: version 8, or a third part *)
    apply negb_false_iff in Hnot.
    unfold mbind, Export_bind, getState. rewrite Hnot.
    eexists. apply unhandled_run.
Qed.

(** The parts of a combined symbol are line, area or combined symbols. *)
Definition combinableParts (combined_symbol : CombinedSymbol) : Prop :=
  Forall (fun part => getType part <> Point /\ getType part <> Text)
    (nonNullParts combined_symbol).

Lemma exportCombinedSymbol_unhandled (C : Context) (combined_symbol : CombinedSymbol)
    (st : Exporter) :
  combinableParts combined_symbol ->
  combinedHandled (ocd_version st) combined_symbol = false ->
  exists heap,
    exportCombinedSymbol C combined_symbol st
    = (Return tt, warnedState combined_symbol heap st).
Proof.
  unfold combinableParts, combinedHandled, exportCombinedSymbol. intros Hparts Hnot.
  destruct (nonNullParts combined_symbol) as [| part0 [| part1 [| part2 [| part3 rest]]]];
    try (eexists; apply unhandled_run).
  - (* one part: it is a combined symbol *)
    apply Forall_cons in Hparts as [[Hpoint Htext] _].
    destruct part0 as [p | l | a | t | c]; try discriminate Hnot;
      try (exfalso; apply Hpoint; reflexivity);
      try (exfalso; apply Htext; reflexivity).
    destruct c as [b ps].
    unfold mbind, Export_bind, make_duplicate. cbn [withBase].
    unfold mret, Export_ret. rewrite bool_decide_eq_true_2 by reflexivity.
    eexists. reflexivity.
  - now apply exportTwoOrThreeParts_unhandled.
  - now apply exportTwoOrThreeParts_unhandled.
Qed.

Lemma linesHandled_supported (version : Z) (combined_symbol : CombinedSymbol)
    (line0 line1 : LineSymbol) (line2 : option LineSymbol) :
  nonNullParts combined_symbol
    ≡ₚ SymLine line0 :: SymLine line1 :: match line2 with
                                          | Some l => [SymLine l]
                                          | None => []
                                          end ->
  linesHandled line0 line1 line2 = true ->
  supportedCombination version combined_symbol.
Proof.
  unfold linesHandled, arrangeDoubleLine, arrangeFraming. intros Hperm Hyes.
  destruct line2 as [l2 |].
  - destruct (maybe_double_filling l2) eqn:D2;
      [| destruct (maybe_double_filling line0) eqn:D0;
         [| destruct (maybe_double_filling line1) eqn:D1; [| discriminate Hyes]]].
    + destruct (maybe_framing line1) eqn:F1; cbn [negb] in Hyes.
      * apply andb_prop in Hyes as [_ Hb]. apply negb_true_iff in Hb.
        rewrite bool_decide_eq_true_2 in Hb by eauto. cbn [andb] in Hb.
        eapply (line_with_framing_and_double_line _ _ line0 line1 l2); eauto.
      * apply andb_prop in Hyes as [Hf Hb]. apply negb_true_iff in Hb.
        rewrite bool_decide_eq_true_2 in Hb by eauto. cbn [andb] in Hb.
        eapply (line_with_framing_and_double_line _ _ line1 line0 l2); eauto.
        rewrite Hperm. apply perm_swap.
    + destruct (maybe_framing line1) eqn:F1; cbn [negb] in Hyes.
      * apply andb_prop in Hyes as [_ Hb]. apply negb_true_iff in Hb.
        rewrite bool_decide_eq_true_2 in Hb by eauto. cbn [andb] in Hb.
        eapply (line_with_framing_and_double_line _ _ l2 line1 line0); eauto.
        rewrite Hperm.
        change (?a :: ?b :: [?c]) with ([a] ++ [b] ++ [c]). solve_Permutation.
      * apply andb_prop in Hyes as [Hf Hb]. apply negb_true_iff in Hb.
        rewrite bool_decide_eq_true_2 in Hb by eauto. cbn [andb] in Hb.
        eapply (line_with_framing_and_double_line _ _ line1 l2 line0); eauto.
        rewrite Hperm. solve_Permutation.
    + destruct (maybe_framing l2) eqn:F2; cbn [negb] in Hyes.
      * apply andb_prop in Hyes as [_ Hb]. apply negb_true_iff in Hb.
        rewrite bool_decide_eq_true_2 in Hb by eauto. cbn [andb] in Hb.
        eapply (line_with_framing_and_double_line _ _ line0 l2 line1); eauto.
        rewrite Hperm. solve_Permutation.
      * apply andb_prop in Hyes as [Hf Hb]. apply negb_true_iff in Hb.
        rewrite bool_decide_eq_true_2 in Hb by eauto. cbn [andb] in Hb.
        eapply (line_with_framing_and_double_line _ _ l2 line0 line1); eauto.
        rewrite Hperm. solve_Permutation.
  - destruct (maybe_framing line1) eqn:F1; cbn [negb] in Hyes.
    + eapply (line_with_framing _ _ line0 line1); eauto.
    + apply andb_prop in Hyes as [Hf _].
      eapply (line_with_framing _ _ line1 line0); eauto.
      rewrite Hperm. apply perm_swap.
Qed.

Lemma twoOrThreeHandled_supported (version : Z) (combined_symbol : CombinedSymbol)
    (part0 part1 : Symbol) (part2 : option Symbol) :
  nonNullParts combined_symbol
  = part0 :: part1 :: match part2 with Some p => [p] | None => [] end ->
  twoOrThreeHandled version part0 part1 part2 = true ->
  supportedCombination version combined_symbol.
Proof.
  unfold twoOrThreeHandled. intros Hparts Hyes.
  destruct (bool_decide (getType part0 <> Line) && bool_decide (getType part1 <> Line))
    eqn:Hlines; [discriminate Hyes |].
  destruct part0 as [p0 | l0 | a0 | t0 | c0]; destruct part1 as [p1 | l1 | a1 | t1 | c1];
    cbn in Hlines; try discriminate Hlines;
    cbn in Hyes; try discriminate Hyes.
  - (* line, line *)
    destruct part2 as [[p2 | l2 | a2 | t2 | c2] |]; try discriminate Hyes.
    + apply (linesHandled_supported version combined_symbol l0 l1 (Some l2));
        [now rewrite Hparts | exact Hyes].
    + apply (linesHandled_supported version combined_symbol l0 l1 None);
        [now rewrite Hparts | exact Hyes].
  - (* line, area *)
    apply negb_true_iff, orb_false_iff in Hyes as [Hv Hp2].
    destruct part2; [rewrite bool_decide_eq_true_2 in Hp2 by eauto; discriminate |].
    apply (area_with_border version combined_symbol (SymArea a1) (SymLine l0));
      [lia | rewrite Hparts; apply perm_swap | reflexivity | reflexivity].
  - (* area, line *)
    apply negb_true_iff, orb_false_iff in Hyes as [Hv Hp2].
    destruct part2; [rewrite bool_decide_eq_true_2 in Hp2 by eauto; discriminate |].
    apply (area_with_border version combined_symbol (SymArea a0) (SymLine l1));
      [lia | now rewrite Hparts | reflexivity | reflexivity].
Qed.

Lemma combinedHandled_supported (version : Z) (combined_symbol : CombinedSymbol) :
  combinedHandled version combined_symbol = true ->
  supportedCombination version combined_symbol.
Proof.
  unfold combinedHandled. intros Hyes.
  destruct (nonNullParts combined_symbol)
    as [| part0 [| part1 [| part2 [| part3 rest]]]] eqn:Hparts;
    try discriminate Hyes.
  - apply (single_part version combined_symbol part0 Hparts).
    destruct part0; try discriminate Hyes; [now right | now left].
  - now apply (twoOrThreeHandled_supported version combined_symbol part0 part1 None).
  - now apply (twoOrThreeHandled_supported version combined_symbol part0 part1 (Some part2)).
Qed.

(** C6: for a combined symbol (of line, area or combined parts) that
    matches none of the supported decomposition cases,
    [exportCombinedSymbol] returns normally, appends the warning
    "Unhandled combined symbol: name", and leaves the symbol section, the
    symbol-number table and everything else of the exporter as they were:
    no record is emitted and the export goes on. *)
Theorem unhandled_combination_warns (C : Context) (combined_symbol : CombinedSymbol)
    (st : Exporter) :
  combinableParts combined_symbol ->
  ~ supportedCombination (ocd_version st) combined_symbol ->
  exists st',
    exportCombinedSymbol C combined_symbol st = (Return tt, st')
    /\ warnings st' = warnings st ++ [unhandled_combined_symbol combined_symbol]
    /\ file st' = file st
    /\ symbol_numbers st' = symbol_numbers st
    /\ text_format_mapping st' = text_format_mapping st
    /\ stream st' = stream st
    /\ ocd_version st' = ocd_version st.
Proof.
  intros Hparts Hunsupported.
  destruct (combinedHandled (ocd_version st) combined_symbol) eqn:Hhandled.
  - exfalso. apply Hunsupported. now apply combinedHandled_supported.
  - destruct (exportCombinedSymbol_unhandled C combined_symbol st Hparts Hhandled)
      as [heap Hrun].
    exists (warnedState combined_symbol heap st). split; [exact Hrun |].
    repeat split.
Qed.

(** An area with a border line: supported from version 9 on only. *)
Definition example_area (address : nat) (n0 n1 : Z) : AreaSymbol :=
  mkAreaSymbol (mkSymbolBase address n0 n1 "Area" false false true) (Some 12%nat) [].

Definition example_area_with_border : CombinedSymbol :=
  mkCombinedSymbol (example_base 5 301 0 "Bordered area")
    [(Some (SymArea (example_area 6 301 1)), false);
     (None, false);
     (Some (SymLine (example_line 7 301 2 "Border")), true)].

Lemma example_area_with_border_unsupported :
  ~ supportedCombination 8 example_area_with_border.
Proof.
  intros [part Hparts _ | area border Hversion _ _ _
          | main_line framing Hperm _ | main_line framing double_line Hperm _ _ _].
  - discriminate Hparts.
  - lia.
  - cbn in Hperm.
    assert (Hin : SymArea (example_area 6 301 1) ∈ [SymLine main_line; SymLine framing]).
    { rewrite <- Hperm. left. }
    rewrite !elem_of_cons, elem_of_nil in Hin.
    destruct Hin as [Hin | [Hin | []]]; discriminate Hin.
  - apply Permutation_length in Hperm. discriminate Hperm.
Qed.

Lemma unhandled_combination_warns_witness :
  exists st',
    exportCombinedSymbol (example_context 8 (example_map [] []))
      example_area_with_border (set_ocd_version 8 (newExporter [] 100))
    = (Return tt, st')
    /\ warnings st' = ["Unhandled combined symbol: Bordered area"]
    /\ file st' = file (newExporter [] 100).
Proof.
  destruct (unhandled_combination_warns (example_context 8 (example_map [] []))
              example_area_with_border (set_ocd_version 8 (newExporter [] 100)))
    as (st' & Hrun & Hwarnings & Hfile & _).
  - repeat constructor; discriminate.
  - exact example_area_with_border_unsupported.
  - exists st'. split; [exact Hrun |]. split; [exact Hwarnings | exact Hfile].
Defined.

(** ** What the symbol and object encoders leave alone *)

(** [preserves R m]: whatever the outcome, the state after [m] is related
    by [R] to the state before. *)
Definition preserves (R : Exporter -> Exporter -> Prop) {A : Type} (m : Export A) : Prop :=
  forall st, R st (snd (m st)).

Section Preserves.

Variable R : Exporter -> Exporter -> Prop.
Context `{!PreOrder R}.

Lemma preserves_ret {A : Type} (a : A) : preserves R (mret a).
Proof. intros st. reflexivity. Qed.

Lemma preserves_bind {A B : Type} (m : Export A) (f : A -> Export B) :
  preserves R m -> (forall a, preserves R (f a)) -> preserves R (m ≫= f).
Proof.
  intros Hm Hf st. unfold mbind, Export_bind.
  specialize (Hm st). destruct (m st) as [[a | e | |] st1]; cbn [snd] in *; try exact Hm.
  etransitivity; [exact Hm | apply Hf].
Qed.

Lemma preserves_getState : preserves R getState.
Proof. intros st. reflexivity. Qed.

Lemma preserves_throw {A : Type} (message : string) : preserves R (@throw A message).
Proof. intros st. reflexivity. Qed.

Lemma preserves_unreachable {A : Type} : preserves R (@unreachable A).
Proof. intros st. reflexivity. Qed.

Lemma preserves_liftOption {A : Type} (o : option A) : preserves R (liftOption o).
Proof. destruct o; [apply preserves_ret | apply preserves_unreachable]. Qed.

Lemma preserves_forEach {A : Type} (body : A -> Export unit) (l : list A) :
  (forall x, preserves R (body x)) -> preserves R (forEach body l).
Proof.
  intros Hbody. induction l as [| x l IH]; cbn [forEach].
  - apply preserves_ret.
  - apply preserves_bind; [apply Hbody | intros _; exact IH].
Qed.

Lemma preserves_modify (f : Exporter -> Exporter) :
  (forall st, R st (f st)) -> preserves R (modify f).
Proof. intros Hf st. apply Hf. Qed.

End Preserves.

(** The frame of the symbol and object encoders: entries of the
    symbol-number table stay (their values may change), warnings are only
    appended, and the version, the registration flag, the encoding, the
    offset, the stream, the byte array with its notes and the strings are
    untouched. *)
Record frame (st st' : Exporter) : Prop := mkFrame {
  frame_numbers :
    forall key, is_Some (symbol_numbers st !! key) -> is_Some (symbol_numbers st' !! key);
  frame_warnings : warnings st `prefix_of` warnings st';
  frame_version : ocd_version st' = ocd_version st;
  frame_registration : uses_registration_color st' = uses_registration_color st;
  frame_encoding : custom_8bit_encoding st' = custom_8bit_encoding st;
  frame_offset : area_offset st' = area_offset st;
  frame_stream : stream st' = stream st;
  frame_byteArray : file_byteArray (file st') = file_byteArray (file st);
  frame_info_pos : header_info_pos (file st') = header_info_pos (file st);
  frame_info_size : header_info_size (file st') = header_info_size (file st);
  frame_strings : file_strings (file st') = file_strings (file st) }.

#[global] Instance frame_preorder : PreOrder frame.
Proof.
  split.
  - intros st. split; try reflexivity. auto.
  - intros st1 st2 st3 [] []. split; try congruence; try (etransitivity; eassumption).
    auto.
Qed.

Lemma frame_set_warnings (ws : list string) (st : Exporter) :
  frame st (set_warnings (warnings st ++ ws) st).
Proof. split; try reflexivity; [auto | now apply prefix_app_r]. Qed.

Lemma frame_set_symbol_numbers (key : nat) (value : Z) (st : Exporter) :
  frame st (set_symbol_numbers (<[key := value]> (symbol_numbers st)) st).
Proof.
  split; try reflexivity. intros k Hk. cbn.
  destruct (decide (key = k)) as [-> | Hne].
  - rewrite lookup_insert_eq. eauto.
  - now rewrite lookup_insert_ne.
Qed.

Lemma frame_addWarning (w : string) : preserves frame (addWarning w).
Proof. apply preserves_modify. intros st. apply frame_set_warnings. Qed.

Lemma frame_addWarnings (ws : list string) : preserves frame (addWarnings ws).
Proof. apply preserves_modify. intros st. apply frame_set_warnings. Qed.

Lemma frame_insertSymbol (ocd_symbol : QByteArray) : preserves frame (insertSymbol ocd_symbol).
Proof. apply preserves_modify. intros st. split; try reflexivity. auto. Qed.

Lemma frame_insertObject (ocd_object : QByteArray) (entry : IndexEntry) :
  preserves frame (insertObject ocd_object entry).
Proof. apply preserves_modify. intros st. split; try reflexivity. auto. Qed.

Lemma frame_symbolNumberAt (key : nat) : preserves frame (symbolNumberAt key).
Proof.
  intros st. unfold symbolNumberAt.
  destruct (symbol_numbers st !! key); cbn [snd]; [reflexivity |].
  apply frame_set_symbol_numbers.
Qed.

Lemma frame_setSymbolNumber (key : nat) (value : Z) :
  preserves frame (setSymbolNumber key value).
Proof. apply preserves_modify. intros st. apply frame_set_symbol_numbers. Qed.

Lemma frame_setupBaseSymbol (C : Context) (symbol : Symbol) :
  preserves frame (setupBaseSymbol C symbol).
Proof.
  intros st. unfold setupBaseSymbol.
  destruct (ensureUnique _ _ _ _); cbn [snd]; [| reflexivity].
  apply frame_set_symbol_numbers.
Qed.

Lemma frame_make_duplicate (combined_symbol : CombinedSymbol) (symbol : Symbol) :
  preserves frame (make_duplicate combined_symbol symbol).
Proof. intros st. split; try reflexivity. auto. Qed.

Lemma frame_unhandled (combined_symbol : CombinedSymbol) :
  preserves frame (unhandled combined_symbol).
Proof. apply frame_addWarning. Qed.

(** One step of a proof that a member function keeps the frame. *)
Create HintDb frame.

Ltac frame_step :=
  first
    [ solve [auto with frame nocore]
    | apply preserves_bind; [typeclasses eauto | | intros ?]
    | apply preserves_ret; typeclasses eauto
    | apply preserves_getState; typeclasses eauto
    | apply preserves_unreachable; typeclasses eauto
    | apply preserves_throw; typeclasses eauto
    | apply preserves_liftOption; typeclasses eauto
    | apply preserves_forEach; [typeclasses eauto | intros ?]
    | apply frame_addWarning
    | apply frame_addWarnings
    | apply frame_insertSymbol
    | apply frame_insertObject
    | apply frame_symbolNumberAt
    | apply frame_setSymbolNumber
    | apply frame_setupBaseSymbol
    | apply frame_make_duplicate
    | apply frame_unhandled
    | match goal with
      | |- preserves _ (if ?b then _ else _) => destruct b
      | |- preserves _ (match ?x with _ => _ end) => destruct x
      end ].

Ltac frame_steps := repeat (cbv zeta; frame_step).

Lemma frame_exportPointSymbol (C : Context) (p : PointSymbol) :
  preserves frame (exportPointSymbol C p).
Proof. unfold exportPointSymbol, exportPointSymbol_record. frame_steps. Qed.

#[local] Hint Resolve frame_exportPointSymbol : frame.


Lemma frame_exportAreaSymbol_record (C : Context) (a : AreaSymbol) :
  preserves frame (exportAreaSymbol_record C a).
Proof. unfold exportAreaSymbol_record. frame_steps. Qed.

#[local] Hint Resolve frame_exportAreaSymbol_record : frame.


Lemma frame_exportAreaSymbol (C : Context) (a : AreaSymbol) :
  preserves frame (exportAreaSymbol C a).
Proof. unfold exportAreaSymbol. frame_steps. Qed.

#[local] Hint Resolve frame_exportAreaSymbol : frame.


Lemma frame_exportLineSymbol_record (C : Context) (l : LineSymbol) :
  preserves frame (exportLineSymbol_record C l).
Proof. unfold exportLineSymbol_record. frame_steps. Qed.

#[local] Hint Resolve frame_exportLineSymbol_record : frame.


Lemma frame_exportLineSymbol (C : Context) (l : LineSymbol) :
  preserves frame (exportLineSymbol C l).
Proof. unfold exportLineSymbol. frame_steps. Qed.

#[local] Hint Resolve frame_exportLineSymbol : frame.


Lemma frame_exportTextSymbol (C : Context) (t : TextSymbol) (alignment : Z) :
  preserves frame (exportTextSymbol C t alignment).
Proof. unfold exportTextSymbol. frame_steps. Qed.

#[local] Hint Resolve frame_exportTextSymbol : frame.


Lemma frame_set_text_format_mapping (l : list TextFormatMapping) (st : Exporter) :
  frame st (set_text_format_mapping l st).
Proof. split; try reflexivity. auto. Qed.

Lemma frame_add_mapping (mapping : TextFormatMapping) :
  preserves frame
    (modify (fun st =>
               set_text_format_mapping (text_format_mapping st ++ [mapping]) st)).
Proof. apply preserves_modify. intros st. apply frame_set_text_format_mapping. Qed.

#[local] Hint Resolve frame_add_mapping : frame.

Lemma frame_handle_alignment (C : Context) (t : TextSymbol) (offset : nat) (o : Object) :
  preserves frame (handle_alignment C t offset o).
Proof. unfold handle_alignment. frame_steps. Qed.

#[local] Hint Resolve frame_handle_alignment : frame.


Lemma frame_exportTextSymbols (C : Context) (t : TextSymbol) :
  preserves frame (exportTextSymbols C t).
Proof. unfold exportTextSymbols. frame_steps. Qed.

#[local] Hint Resolve frame_exportTextSymbols : frame.


Lemma frame_adoptNumber (c : CombinedSymbol) (duplicate : Symbol) :
  preserves frame (adoptNumber c duplicate).
Proof. unfold adoptNumber. frame_steps. Qed.

#[local] Hint Resolve frame_adoptNumber : frame.


Lemma frame_exportCombinedAreaSymbol (C : Context) (a : AreaSymbol) (l : LineSymbol) :
  preserves frame (exportCombinedAreaSymbol C a l).
Proof. unfold exportCombinedAreaSymbol. frame_steps. Qed.

#[local] Hint Resolve frame_exportCombinedAreaSymbol : frame.


Lemma frame_exportCombinedLineSymbol (C : Context) (main_line framing : LineSymbol)
    (double_line : option LineSymbol) :
  preserves frame (exportCombinedLineSymbol C main_line framing double_line).
Proof. unfold exportCombinedLineSymbol. frame_steps. Qed.

#[local] Hint Resolve frame_exportCombinedLineSymbol : frame.


Lemma frame_exportAreaWithBorder (C : Context) (c : CombinedSymbol) (area : Symbol)
    (border_symbol : LineSymbol) :
  preserves frame (exportAreaWithBorder C c area border_symbol).
Proof. unfold exportAreaWithBorder. frame_steps. Qed.

#[local] Hint Resolve frame_exportAreaWithBorder : frame.


Lemma frame_exportLineWithFraming (C : Context) (c : CombinedSymbol)
    (line0 line1 : LineSymbol) (line2 : option LineSymbol) :
  preserves frame (exportLineWithFraming C c line0 line1 line2).
Proof. unfold exportLineWithFraming. frame_steps. Qed.

#[local] Hint Resolve frame_exportLineWithFraming : frame.


Lemma frame_exportTwoOrThreeParts (C : Context) (c : CombinedSymbol)
    (part0 part1 : Symbol) (part2 : option Symbol) :
  preserves frame (exportTwoOrThreeParts C c part0 part1 part2).
Proof. unfold exportTwoOrThreeParts. frame_steps. Qed.

#[local] Hint Resolve frame_exportTwoOrThreeParts : frame.


Lemma frame_exportCombinedSymbol (C : Context) (c : CombinedSymbol) :
  preserves frame (exportCombinedSymbol C c).
Proof. unfold exportCombinedSymbol. frame_steps. Qed.

#[local] Hint Resolve frame_exportCombinedSymbol : frame.


Lemma frame_exportSymbol (C : Context) (symbol : Symbol) :
  preserves frame (exportSymbol C symbol).
Proof. unfold exportSymbol. frame_steps. Qed.

#[local] Hint Resolve frame_exportSymbol : frame.


Lemma frame_exportSymbols (C : Context) : preserves frame (exportSymbols C).
Proof. unfold exportSymbols. frame_steps. Qed.

#[local] Hint Resolve frame_exportSymbols : frame.


Lemma frame_exportObjectCommon (C : Context) (object : Object) (ocd_object : OcdObject)
    (entry : IndexEntry) :
  preserves frame (exportObjectCommon C object ocd_object entry).
Proof. unfold exportObjectCommon. frame_steps. Qed.

#[local] Hint Resolve frame_exportObjectCommon : frame.


Lemma frame_exportObject (C : Context) (object : Object) :
  preserves frame (exportObject C object).
Proof. unfold exportObject, exportPointObject, exportPathObject, exportTextObject. frame_steps. Qed.

#[local] Hint Resolve frame_exportObject : frame.


Lemma frame_exportObjects (C : Context) : preserves frame (exportObjects C).
Proof. unfold exportObjects. frame_steps. Qed.

#[local] Hint Resolve frame_exportObjects : frame.


(** ** C5: symbols have their numbers before objects are encoded *)

Lemma bind_Return {A B : Type} (m : Export A) (f : A -> Export B) (st st' : Exporter) (b : B) :
  (m ≫= f) st = (Return b, st') ->
  exists a st1, m st = (Return a, st1) /\ f a st1 = (Return b, st').
Proof.
  unfold mbind, Export_bind. intros H.
  destruct (m st) as [[a | e | |] st1]; try discriminate H.
  exists a, st1. split; [reflexivity | exact H].
Qed.

Lemma ret_Return {A : Type} (a b : A) (st st' : Exporter) :
  (mret a : Export A) st = (Return b, st') -> a = b /\ st = st'.
Proof. unfold mret, Export_ret. now intros [= -> ->]. Qed.

Lemma preserves_run (R : Exporter -> Exporter -> Prop) {A : Type} (m : Export A)
    (st st' : Exporter) (o : Outcome A) :
  preserves R m -> m st = (o, st') -> R st st'.
Proof. intros Hm Hrun. specialize (Hm st). now rewrite Hrun in Hm. Qed.

Lemma forEach_cons_Return {A : Type} (body : A -> Export unit) (x : A) (l : list A)
    (st st' : Exporter) :
  forEach body (x :: l) st = (Return tt, st') ->
  exists st1, body x st = (Return tt, st1) /\ forEach body l st1 = (Return tt, st').
Proof.
  cbn [forEach]. intros H. apply bind_Return in H as ([] & st1 & H1 & H2). eauto.
Qed.

(** The symbol at [key] has an entry in the symbol-number table. *)
Definition numbered (key : nat) (st : Exporter) : Prop :=
  is_Some (symbol_numbers st !! key).

Lemma numbered_frame (key : nat) (st st' : Exporter) :
  frame st st' -> numbered key st -> numbered key st'.
Proof. intros [Hn] H. now apply Hn. Qed.

Lemma setupBaseSymbol_numbers (C : Context) (symbol : Symbol) (st st' : Exporter)
    (base : OcdBaseSymbol) :
  setupBaseSymbol C symbol st = (Return base, st') ->
  numbered (address (symbolBase symbol)) st'.
Proof.
  unfold setupBaseSymbol. destruct (ensureUnique _ _ _ _); intros [= _ <-].
  unfold numbered. cbn. rewrite lookup_insert_eq. eauto.
Qed.

(** A function that first sets up the base symbol and then keeps the
    frame leaves the symbol numbered. *)
Lemma numbered_after_setup {A B : Type} (C : Context) (symbol : Symbol)
    (rest : OcdBaseSymbol -> Export B) (st st' : Exporter) (b : B) :
  (forall base, preserves frame (rest base)) ->
  (setupBaseSymbol C symbol ≫= rest) st = (Return b, st') ->
  numbered (address (symbolBase symbol)) st'.
Proof.
  intros Hrest Hrun. apply bind_Return in Hrun as (base & st1 & Hsetup & Hrun).
  eapply numbered_frame.
  - eapply preserves_run; [apply Hrest | exact Hrun].
  - eapply setupBaseSymbol_numbers. exact Hsetup.
Qed.

Lemma exportPointSymbol_record_numbers (C : Context) (p : PointSymbol) (st st' : Exporter) r :
  exportPointSymbol_record C p st = (Return r, st') ->
  numbered (address (PointSym.base p)) st'.
Proof.
  unfold exportPointSymbol_record. intros H.
  apply (numbered_after_setup (A := unit) C (SymPoint p)) in H; [exact H |].
  intros base. frame_steps.
Qed.

Lemma exportAreaSymbol_record_numbers (C : Context) (a : AreaSymbol) (st st' : Exporter) r :
  exportAreaSymbol_record C a st = (Return r, st') ->
  numbered (address (AreaSym.base a)) st'.
Proof.
  unfold exportAreaSymbol_record. intros H.
  apply (numbered_after_setup (A := unit) C (SymArea a)) in H; [exact H |].
  intros base. frame_steps.
Qed.

Lemma exportLineSymbol_record_numbers (C : Context) (l : LineSymbol) (st st' : Exporter) r :
  exportLineSymbol_record C l st = (Return r, st') ->
  numbered (address (LineSym.base l)) st'.
Proof.
  unfold exportLineSymbol_record. intros H.
  apply (numbered_after_setup (A := unit) C (SymLine l)) in H; [exact H |].
  intros base. frame_steps.
Qed.

Lemma exportTextSymbol_numbers (C : Context) (t : TextSymbol) (alignment : Z)
    (st st' : Exporter) r :
  exportTextSymbol C t alignment st = (Return r, st') ->
  numbered (address (text_base t)) st'.
Proof.
  unfold exportTextSymbol. intros H.
  apply (numbered_after_setup (A := unit) C (SymText t)) in H; [exact H |].
  intros base. frame_steps.
Qed.

(** Each alignment either is known already or gets a record. *)
Lemma handle_alignment_numbers (C : Context) (t : TextSymbol) (offset : nat) (o : Object)
    (st st' : Exporter) :
  handle_alignment C t offset o st = (Return tt, st') ->
  st' = st \/ numbered (address (text_base t)) st'.
Proof.
  unfold handle_alignment. intros H.
  apply bind_Return in H as (st0 & st1 & Hget & H). injection Hget as <- <-.
  destruct (existsb _ _).
  - left. now apply ret_Return in H as [_ <-].
  - right. apply bind_Return in H as (d & st1 & Hexport & H).
    eapply numbered_frame; [| eapply exportTextSymbol_numbers; exact Hexport].
    eapply preserves_run; [| exact H]. frame_steps.
Qed.

Lemma forEach_handle_alignment_numbers (C : Context) (t : TextSymbol) (offset : nat)
    (objects : list Object) (st st' : Exporter) :
  forEach (handle_alignment C t offset) objects st = (Return tt, st') ->
  st' = st \/ numbered (address (text_base t)) st'.
Proof.
  revert st. induction objects as [| o objects IH]; intros st H.
  - left. now apply ret_Return in H as [_ <-].
  - apply forEach_cons_Return in H as (st1 & Hstep & Hrest).
    apply handle_alignment_numbers in Hstep as [-> | Hnumbered]; [now apply IH |].
    right. eapply numbered_frame; [| exact Hnumbered].
    eapply preserves_run; [| exact Hrest]. frame_steps.
Qed.

Lemma exportTextSymbols_numbers (C : Context) (t : TextSymbol) (st st' : Exporter) :
  exportTextSymbols C t st = (Return tt, st') ->
  numbered (address (text_base t)) st'.
Proof.
  unfold exportTextSymbols. intros H.
  apply bind_Return in H as (st0 & st1 & Hget & H). injection Hget as <- <-.
  apply bind_Return in H as ([] & st1 & Hloop & H).
  apply bind_Return in H as (st2 & st3 & Hget & H). injection Hget as <- <-.
  apply forEach_handle_alignment_numbers in Hloop as [-> | Hnumbered].
  - rewrite bool_decide_eq_true_2 in H by reflexivity.
    apply bind_Return in H as (d & st2 & Hexport & H).
    eapply numbered_frame; [| eapply exportTextSymbol_numbers; exact Hexport].
    eapply preserves_run; [| exact H]. frame_steps.
  - eapply numbered_frame; [| exact Hnumbered].
    eapply preserves_run; [| exact H]. frame_steps.
Qed.

Lemma adoptNumber_numbers (combined_symbol : CombinedSymbol) (duplicate : Symbol)
    (st st' : Exporter) :
  adoptNumber combined_symbol duplicate st = (Return tt, st') ->
  numbered (address (CombinedSym.base combined_symbol)) st'.
Proof.
  unfold adoptNumber. intros H.
  apply bind_Return in H as (n & st1 & _ & H).
  injection H as <-. unfold numbered. cbn. rewrite lookup_insert_eq. eauto.
Qed.

(** Patterns are appended after the header. *)
Lemma exportSubPattern_extends (P : PatternContext) (coords : MapCoordVector)
    (symbol : Symbol) (byte_array after : QByteArray) (n : Z) :
  exportSubPattern P coords symbol byte_array = Some (n, after) ->
  byte_array `prefix_of` after.
Proof.
  destruct symbol as [p | l | a | t | c]; cbn [exportSubPattern]; intros H;
    try discriminate H; injection H as H; apply (f_equal snd) in H; cbn [snd] in H;
    subst after.
  - destruct (hasInnerDot p); destruct (hasOuterCircle p); cbn [fst snd];
      repeat match goal with
             | |- context [writeElement P ?e coords ?s ?k ?b] =>
                 let a := fresh "a" in
                 let E := fresh "E" in
                 destruct (writeElement_appends P e coords s k b) as (a & E & _);
                 rewrite E
             end;
      rewrite <- ?app_assoc; try apply prefix_app_r; reflexivity.
  - destruct (writeElement_appends P
                (mkElement TypeLine
                   (if bool_decide (capStyle (LineSym.attributes l) = RoundCap) then 1
                    else if bool_decide (joinStyle (LineSym.attributes l) = MiterJoin)
                         then 4 else 0)
                   (convertColor (pc_map P) (pc_uses_registration P)
                      (lineColor (LineSym.attributes l)))
                   (convertSize (lineWidth (LineSym.attributes l))) 0 0)
                coords (SymLine l) 0 byte_array) as (a & E & _).
    rewrite E. now apply prefix_app_r.
  - destruct (writeElement_appends P
                (mkElement TypeArea 0
                   (convertColor (pc_map P) (pc_uses_registration P) (AreaSym.getColor a))
                   0 0 0)
                coords (SymArea a) 0 byte_array) as (a' & E & _).
    rewrite E. now apply prefix_app_r.
Qed.

Lemma exportPattern_loop_extends (P : PatternContext)
    (elements : list (Symbol * MapCoordVector)) (k n : Z) (byte_array after : QByteArray) :
  exportPattern_loop P elements k byte_array = Some (n, after) ->
  byte_array `prefix_of` after.
Proof.
  revert k byte_array. induction elements as [| [s c] elements IH]; intros k byte_array H.
  - now injection H as _ <-.
  - cbn [exportPattern_loop] in H.
    destruct (exportSubPattern P c s byte_array) as [[n1 b1] |] eqn:E; [| discriminate H].
    etransitivity; [eapply exportSubPattern_extends; exact E | eapply IH; exact H].
Qed.

Lemma exportPattern_extends (P : PatternContext) (point : option PointSymbol)
    (n : Z) (byte_array after : QByteArray) :
  exportPattern P point byte_array = Some (n, after) ->
  byte_array `prefix_of` after.
Proof.
  destruct point as [point |]; cbn [exportPattern]; intros H.
  - destruct (exportSubPattern P [MapCoord_default] (SymPoint point) byte_array)
      as [[n1 b1] |] eqn:E; [| discriminate H].
    etransitivity; [eapply exportSubPattern_extends; exact E
                   | eapply exportPattern_loop_extends; exact H].
  - now injection H as _ <-.
Qed.

Lemma prefix_nonempty {A : Type} (l k : list A) : l `prefix_of` k -> l <> [] -> k <> [].
Proof. intros [t ->] Hl. destruct l; [congruence | discriminate]. Qed.

Lemma memory_nonempty (image : nat -> Byte.byte) (n : nat) : (0 < n)%nat -> memory image n <> [].
Proof.
  intros Hn Hnil. apply (f_equal length) in Hnil. rewrite length_memory in Hnil.
  cbn in Hnil. lia.
Qed.

Lemma exportAreaSymbol_nonempty (C : Context) (a : AreaSymbol) (st st' : Exporter) d :
  (sizeof_Element (ctx_format C) < sizeof_AreaSymbol (ctx_format C))%nat ->
  exportAreaSymbol C a st = (Return d, st') -> d <> [].
Proof.
  intros Hsize H. unfold exportAreaSymbol, exportAreaSymbol_record in H.
  apply bind_Return in H as ([ocd data] & st1 & H & Hret).
  apply ret_Return in Hret as [<- _]. cbn [snd].
  apply bind_Return in H as (base & st2 & _ & H).
  apply bind_Return in H as (st3 & st4 & Hget & H). injection Hget as <- <-.
  destruct (exportAreaSymbolCommon _ _ _ _) as [[flags pattern_symbol] ws].
  apply bind_Return in H as ([] & st3 & _ & H).
  apply bind_Return in H as ([n after] & st4 & Hpattern & H).
  apply ret_Return in H as [[= _ <-] _]. cbn [snd].
  unfold liftOption in Hpattern.
  destruct (exportPattern _ _ _) as [[n' after'] |] eqn:E; [| discriminate Hpattern].
  apply ret_Return in Hpattern as [[= -> ->] _].
  eapply prefix_nonempty; [eapply exportPattern_extends; exact E |].
  apply memory_nonempty. unfold header_size. lia.
Qed.

Lemma exportLinePatterns_extends (P : PatternContext) (l : LineSymbol)
    (data after : QByteArray) :
  exportLinePatterns P l data = Some after -> data `prefix_of` after.
Proof.
  unfold exportLinePatterns. intros H.
  destruct (exportPattern P (LineSym.getMidSymbol l) data) as [[n1 b1] |] eqn:E1;
    [| discriminate H]. cbn in H.
  destruct (exportPattern P (LineSym.getDashSymbol l) b1) as [[n2 b2] |] eqn:E2;
    [| discriminate H]. cbn in H.
  destruct (exportPattern P (LineSym.getStartSymbol l) b2) as [[n3 b3] |] eqn:E3;
    [| discriminate H]. cbn in H.
  destruct (exportPattern P (LineSym.getEndSymbol l) b3) as [[n4 b4] |] eqn:E4;
    [| discriminate H]. cbn in H. injection H as <-.
  apply exportPattern_extends in E1, E2, E3, E4.
  repeat (etransitivity; [eassumption |]). reflexivity.
Qed.

Lemma exportLineSymbol_nonempty (C : Context) (l : LineSymbol) (st st' : Exporter) d :
  (sizeof_Element (ctx_format C) < sizeof_LineSymbol (ctx_format C))%nat ->
  exportLineSymbol C l st = (Return d, st') -> d <> [].
Proof.
  intros Hsize H. unfold exportLineSymbol, exportLineSymbol_record in H.
  apply bind_Return in H as ([ocd data] & st1 & H & Hret).
  apply ret_Return in Hret as [<- _]. cbn [snd].
  apply bind_Return in H as (base & st2 & _ & H).
  apply bind_Return in H as (st3 & st4 & Hget & H). injection Hget as <- <-.
  apply bind_Return in H as ([] & st3 & _ & H).
  apply bind_Return in H as (after & st4 & Hpattern & H).
  apply ret_Return in H as [[= _ <-] _].
  unfold liftOption in Hpattern.
  destruct (exportLinePatterns _ _ _) as [after' |] eqn:E; [| discriminate Hpattern].
  apply ret_Return in Hpattern as [-> _].
  eapply prefix_nonempty; [eapply exportLinePatterns_extends; exact E |].
  apply memory_nonempty. unfold header_size. lia.
Qed.

(** The supported decompositions end in [adoptNumber]. *)
Lemma exportAreaWithBorder_numbers (C : Context) (c : CombinedSymbol) (area : Symbol)
    (border_symbol : LineSymbol) (st st' : Exporter) :
  exportAreaWithBorder C c area border_symbol st = (Return tt, st') ->
  numbered (address (CombinedSym.base c)) st'.
Proof.
  unfold exportAreaWithBorder. intros H.
  apply bind_Return in H as (st0 & st1 & Hget & H). injection Hget as <- <-.
  apply bind_Return in H as (b & st1 & _ & H).
  apply bind_Return in H as (duplicate & st2 & _ & H).
  destruct duplicate as [p | l | a | t | c']; try discriminate H.
  apply bind_Return in H as (d & st3 & _ & H).
  apply bind_Return in H as ([] & st4 & _ & H).
  eapply adoptNumber_numbers. exact H.
Qed.

Lemma exportLineWithFraming_numbers (C : Context) (c : CombinedSymbol)
    (line0 line1 : LineSymbol) (line2 : option LineSymbol) (st st' : Exporter) :
  linesHandled line0 line1 line2 = true ->
  exportLineWithFraming C c line0 line1 line2 st = (Return tt, st') ->
  numbered (address (CombinedSym.base c)) st'.
Proof.
  unfold linesHandled, exportLineWithFraming. intros Hyes H.
  destruct (arrangeDoubleLine line0 line1 line2) as [[[a b] d] |]; [| discriminate Hyes].
  destruct (arrangeFraming a b) as [main_line framing].
  destruct (maybe_framing framing); [| discriminate Hyes].
  cbn [andb] in Hyes. apply negb_true_iff in Hyes.
  apply bind_Return in H as (duplicate & st1 & Hduplicate & H).
  unfold make_duplicate in Hduplicate. injection Hduplicate as <- <-.
  destruct main_line as [mb ma ms mm me md].
  cbn [withBase LineSym.with_base LineSym.attributes] in Hyes, H.
  rewrite Hyes in H.
  apply bind_Return in H as (data & st2 & _ & H).
  apply bind_Return in H as ([] & st3 & _ & H).
  eapply adoptNumber_numbers. exact H.
Qed.

Lemma exportTwoOrThreeParts_numbers (C : Context) (c : CombinedSymbol)
    (part0 part1 : Symbol) (part2 : option Symbol) (st st' : Exporter) :
  twoOrThreeHandled (ocd_version st) part0 part1 part2 = true ->
  exportTwoOrThreeParts C c part0 part1 part2 st = (Return tt, st') ->
  numbered (address (CombinedSym.base c)) st'.
Proof.
  unfold twoOrThreeHandled, exportTwoOrThreeParts. intros Hyes H.
  destruct (bool_decide (getType part0 <> Line) && bool_decide (getType part1 <> Line));
    [discriminate Hyes |].
  destruct (if bool_decide (getType part1 = Area) then (part1, part0) else (part0, part1))
    as [q0 q1].
  destruct q0 as [p | line0 | a | t | c0]; try discriminate Hyes.
  - destruct q1 as [p | line1 | a | t | c1]; try discriminate Hyes.
    destruct part2 as [[p | line2 | a | t | c2] |]; try discriminate Hyes.
    + eapply exportLineWithFraming_numbers; eassumption.
    + eapply exportLineWithFraming_numbers; eassumption.
  - apply negb_true_iff in Hyes.
    apply bind_Return in H as (st0 & st1 & Hget & H). injection Hget as <- <-.
    rewrite Hyes in H.
    destruct q1 as [p | border | a' | t | c1]; try discriminate H.
    eapply exportAreaWithBorder_numbers. exact H.
Qed.

Section SymbolsBeforeObjects.

Variable C : Context.

(** The record structures are larger than their trailing element array. *)
Hypothesis area_header : (sizeof_Element (ctx_format C) < sizeof_AreaSymbol (ctx_format C))%nat.
Hypothesis line_header : (sizeof_Element (ctx_format C) < sizeof_LineSymbol (ctx_format C))%nat.

Lemma exportCombinedSymbol_numbers (c : CombinedSymbol) (st st' : Exporter) :
  combinedHandled (ocd_version st) c = true ->
  exportCombinedSymbol C c st = (Return tt, st') ->
  numbered (address (CombinedSym.base c)) st'.
Proof.
  unfold combinedHandled, exportCombinedSymbol. intros Hyes H.
  destruct (nonNullParts c) as [| part0 [| part1 [| part2 [| part3 rest]]]];
    try discriminate Hyes.
  - apply bind_Return in H as (duplicate & st1 & Hduplicate & H).
    unfold make_duplicate in Hduplicate. injection Hduplicate as <- <-.
    destruct part0 as [p | l | a | t | c0]; try discriminate Hyes;
      cbn [withBase] in H;
      apply bind_Return in H as (data & st2 & Hexport & H).
    + apply exportLineSymbol_nonempty in Hexport; [| exact line_header].
      rewrite bool_decide_eq_false_2 in H by exact Hexport.
      apply bind_Return in H as ([] & st3 & _ & H).
      eapply adoptNumber_numbers. exact H.
    + apply exportAreaSymbol_nonempty in Hexport; [| exact area_header].
      rewrite bool_decide_eq_false_2 in H by exact Hexport.
      apply bind_Return in H as ([] & st3 & _ & H).
      eapply adoptNumber_numbers. exact H.
  - eapply exportTwoOrThreeParts_numbers; eassumption.
  - eapply exportTwoOrThreeParts_numbers; eassumption.
Qed.

(** The symbols that get a record: all but the combined symbols that
    cannot be decomposed. *)
Definition exported (version : Z) (symbol : Symbol) : bool :=
  match symbol with
  | SymCombined c => combinedHandled version c
  | _ => true
  end.

Lemma exportSymbol_numbers (symbol : Symbol) (st st' : Exporter) :
  exported (ocd_version st) symbol = true ->
  exportSymbol C symbol st = (Return tt, st') ->
  numbered (address (symbolBase symbol)) st'.
Proof.
  unfold exportSymbol. intros Hyes H.
  apply bind_Return in H as (st0 & st1 & Hget & H). injection Hget as <- <-.
  destruct (bool_decide (is_Some (symbol_numbers st !! address (symbolBase symbol))))
    eqn:Hknown.
  - apply ret_Return in H as [_ <-]. now apply bool_decide_eq_true_1 in Hknown.
  - destruct symbol as [p | l | a | t | c]; cbn [symbolBase exported] in *.
    + apply bind_Return in H as (data & st1 & Hexport & H).
      unfold exportPointSymbol in Hexport.
      apply bind_Return in Hexport as (r & st2 & Hrecord & Hret).
      apply ret_Return in Hret as [_ <-].
      eapply numbered_frame; [| eapply exportPointSymbol_record_numbers; exact Hrecord].
      eapply preserves_run; [| exact H]. frame_steps.
    + apply bind_Return in H as (data & st1 & Hexport & H).
      unfold exportLineSymbol in Hexport.
      apply bind_Return in Hexport as (r & st2 & Hrecord & Hret).
      apply ret_Return in Hret as [_ <-].
      eapply numbered_frame; [| eapply exportLineSymbol_record_numbers; exact Hrecord].
      eapply preserves_run; [| exact H]. frame_steps.
    + apply bind_Return in H as (data & st1 & Hexport & H).
      unfold exportAreaSymbol in Hexport.
      apply bind_Return in Hexport as (r & st2 & Hrecord & Hret).
      apply ret_Return in Hret as [_ <-].
      eapply numbered_frame; [| eapply exportAreaSymbol_record_numbers; exact Hrecord].
      eapply preserves_run; [| exact H]. frame_steps.
    + eapply exportTextSymbols_numbers. exact H.
    + eapply exportCombinedSymbol_numbers; eassumption.
Qed.

Lemma forEach_exportSymbol_numbers (l : list Symbol) (symbol : Symbol) (st st' : Exporter) :
  symbol ∈ l ->
  exported (ocd_version st) symbol = true ->
  forEach (exportSymbol C) l st = (Return tt, st') ->
  numbered (address (symbolBase symbol)) st'.
Proof.
  revert st. induction l as [| x l IH]; intros st Hin Hyes H.
  - now apply elem_of_nil in Hin.
  - apply forEach_cons_Return in H as (st1 & Hstep & Hrest).
    apply elem_of_cons in Hin as [-> | Hin].
    + eapply numbered_frame; [| eapply exportSymbol_numbers; eassumption].
      eapply preserves_run; [| exact Hrest]. frame_steps.
    + apply (IH st1 Hin); [| exact Hrest].
      assert (Hframe : frame st st1)
        by (eapply preserves_run; [apply frame_exportSymbol | exact Hstep]).
      now rewrite (frame_version _ _ Hframe).
Qed.

End SymbolsBeforeObjects.

(** The objects that [exportObjects] has encoded when it reaches object
    [o] of part [l]. *)
Definition objectsBefore (m : Map) (l o : nat) : list Object :=
  concat (take l (parts m)) ++ take o (default [] (parts m !! l)).

Lemma forEach_app {A : Type} (body : A -> Export unit) (l k : list A) (st : Exporter) :
  forEach body (l ++ k) st = (forEach body l ;; forEach body k) st.
Proof.
  revert st. induction l as [| x l IH]; intros st; [reflexivity |].
  cbn [app forEach]. unfold mbind, Export_bind in *.
  destruct (body x st) as [[[] | e | |] st1]; try reflexivity. apply IH.
Qed.

Lemma forEach_concat {A : Type} (body : A -> Export unit) (ls : list (list A)) (st : Exporter) :
  forEach (fun l => forEach body l) ls st = forEach body (concat ls) st.
Proof.
  revert st. induction ls as [| l ls IH]; intros st; [reflexivity |].
  cbn [concat forEach]. rewrite forEach_app. unfold mbind, Export_bind.
  destruct (forEach body l st) as [[[] | e | |] st1]; try reflexivity. apply IH.
Qed.

(** [exportObjects] reaches object [o] of part [l] after the objects
    before it, and goes on with the rest. *)
Lemma exportObjects_split (C : Context) (l o : nat) (part : list Object) (object : Object)
    (st : Exporter) :
  parts (ctx_map C) !! l = Some part ->
  part !! o = Some object ->
  exportObjects C st
  = (forEach (exportObject C) (objectsBefore (ctx_map C) l o) ;;
     exportObject C object ;;
     forEach (exportObject C) (drop (S o) part ++ concat (drop (S l) (parts (ctx_map C))))) st.
Proof.
  intros Hpart Hobject. unfold exportObjects, objectsBefore.
  rewrite forEach_concat, Hpart. cbn [default].
  rewrite <- (take_drop_middle _ _ _ Hpart) at 1.
  rewrite concat_app, concat_cons.
  rewrite <- (take_drop_middle _ _ _ Hobject) at 1.
  rewrite <- !app_assoc. rewrite app_assoc.
  rewrite forEach_app. reflexivity.
Qed.


(** A map with one line symbol and two paths that use it, exported with
    the version 9 layout. *)
Definition example_text_data : TextData :=
  mkTextData "" 0 true 0
    (MapCoord_default, MapCoord_default, MapCoord_default, MapCoord_default,
     MapCoord_default)
    (MapCoord_default, MapCoord_default, MapCoord_default, MapCoord_default).

Definition example_path (symbol : Symbol) (x : Z) : Object :=
  mkObject PathObject (Some symbol)
    [mkMapCoord x 0 false false false; mkMapCoord (x + 1000) 500 false false false]
    (mkMapCoord x 0 false false false) (mkMapCoord (x + 1000) 500 false false false)
    0 example_text_data.

Definition example_road : Symbol := SymLine (example_line 7 301 0 "Road").

Definition example_road_map : Map :=
  example_map [example_road] [[example_path example_road 0; example_path example_road 2000]].

(** The exporter before the symbols, after them, and after the first
    path. *)
Definition example_road_context : Context := example_context 9 example_road_map.

Definition example_road_start : Exporter := set_ocd_version 9 (newExporter [] 100).

Definition example_road_symbols_done : Exporter :=
  snd (exportSymbols example_road_context example_road_start).

Definition example_road_first_path_done : Exporter :=
  snd (exportObject example_road_context (example_path example_road 0)
         example_road_symbols_done).


(** A path whose symbol is an area with a border line, exported with the
    version 8 layout: the combination cannot be decomposed, the symbol
    has no entry when the path is encoded, and the lookup inserts 0. *)
Definition example_bordered_path : Object :=
  example_path (SymCombined example_area_with_border) 0.

Definition example_bordered_map : Map :=
  example_map [SymCombined example_area_with_border] [[example_bordered_path]].

Definition example_bordered_context : Context := example_context 8 example_bordered_map.

Definition example_bordered_start : Exporter := set_ocd_version 8 (newExporter [] 100).


(** ** C9: the size in the index entry *)

(** [exportObjectCommon] returns: the padded record, and an entry whose
    size is [indexEntrySize] of the record before padding, which begins
    with the header. *)
Lemma exportObjectCommon_returns (C : Context) (object : Object) (ocd_object : OcdObject)
    (entry : IndexEntry) (st : Exporter) :
  exists data entry' st',
    exportObjectCommon C object ocd_object entry st
    = (Return (addPadding (ctx_format C) data, entry'), st')
    /\ entry_size entry' = indexEntrySize (ctx_format C) (ocd_version st) data
    /\ (Z.to_nat (object_header_size (ctx_format C)) <= length data)%nat.
Proof.
  unfold exportObjectCommon.
  unfold mbind, Export_bind, getState, addWarnings, modify, mret, Export_ret. cbv zeta.
  match goal with
  | |- context [match (if ?c then ?a else ?b) with _ => _ end] =>
      destruct (if c then a else b) as [[[num_items num_text] text_data] ws]
  end.
  cbn [fst snd].
  destruct (handleObjectExtras _ _ _) as [ocd_object' entry1].
  eexists _, _, _. split; [reflexivity |]. split; [reflexivity |].
  destruct (0 <? object_num_items ocd_object');
    [destruct (object_type ocd_object' =? 4);
     [| destruct (object_type ocd_object' =? 5)] |].
  - unfold exportTextCoordinatesSingle.
    destruct (singleAnchorCoords (textData object)) as [[[[a b] c] d] e].
    rewrite !length_app, length_memory. lia.
  - unfold exportTextCoordinatesBox.
    destruct (boxCoords (textData object)) as [[[a b] c] d].
    rewrite !length_app, length_memory. lia.
  - destruct (exportCoordinates_appends (point_flags (ctx_format C))
                (getRawCoordinateVector object) (getSymbol object)
                (memory (image_Object (ctx_format C) ocd_object')
                   (Z.to_nat (object_header_size (ctx_format C))))) as (appended & -> & _).
    rewrite length_app, length_memory. lia.
  - rewrite length_memory. lia.
Qed.

(** The byte counts that the size member of the index entry represents. *)
Definition representable (F : Format) (bytes : Z) : Prop :=
  bytes < 2 ^ 64 /\ forall z, 0 <= z <= bytes -> entry_size_type F z = z.

(** C9: the size that [exportObjectCommon] stores in the index entry is
    the byte count of the padded record when the version is 11 or later;
    for an earlier version it is the byte count without the record header,
    divided by the size of one [OcdPoint32].  (The padding appends only,
    the record structure holds at least one coordinate, and the byte count
    fits the size member.) *)
Theorem index_entry_size_units (C : Context) (object : Object) (ocd_object : OcdObject)
    (entry entry' : IndexEntry) (record : QByteArray) (st st' : Exporter) :
  (forall data, (length data <= length (addPadding (ctx_format C) data))%nat) ->
  sizeof_OcdPoint32 <= Z.of_nat (sizeof_Object (ctx_format C)) ->
  exportObjectCommon C object ocd_object entry st = (Return (record, entry'), st') ->
  representable (ctx_format C) (Z.of_nat (length record)) ->
  (11 <= ocd_version st -> entry_size entry' = Z.of_nat (length record))
  /\ (ocd_version st < 11 ->
      entry_size entry'
      = (Z.of_nat (length record) - object_header_size (ctx_format C)) / sizeof_OcdPoint32).
Proof.
  intros Hpadding Hheader Hrun [Hsize Hfits].
  destruct (exportObjectCommon_returns C object ocd_object entry st)
    as (data & entry1 & st1 & Hrun1 & Hentry & Hdata).
  rewrite Hrun1 in Hrun. injection Hrun as <- <- <-.
  rewrite Hentry. unfold indexEntrySize.
  specialize (Hpadding data).
  assert (Hbounds : 0 <= object_header_size (ctx_format C)
                    <= Z.of_nat (length (addPadding (ctx_format C) data)))
    by (unfold object_header_size, sizeof_OcdPoint32 in *; lia).
  split; intros Hversion.
  - rewrite (proj2 (Z.ltb_ge _ _)) by lia. apply Hfits. lia.
  - rewrite (proj2 (Z.ltb_lt _ _)) by lia.
    rewrite (Hfits (Z.of_nat (length (addPadding (ctx_format C) data)))) by lia.
    rewrite (Hfits (object_header_size (ctx_format C))) by lia.
    unfold Int.size_t. rewrite Z.mod_small by lia.
    apply Hfits. unfold sizeof_OcdPoint32.
    split; [apply Z.div_pos; lia |].
    apply Z.div_le_upper_bound; lia.
Qed.

Lemma length_pad8 (data : QByteArray) : (length data <= length (pad8 data))%nat.
Proof. unfold pad8. rewrite length_app. lia. Qed.

(** A path of two points: 32 header bytes and 16 coordinate bytes.  The
    entry holds 2 for version 9 and 48 for version 12. *)
Lemma index_entry_size_units_witness :
  exists record9 entry9 st9 record12 entry12 st12,
    exportObjectCommon (example_context 9 example_road_map) (example_path example_road 0)
      (mkOcdObject 2 301000 0 0 0 0) IndexEntry_default example_road_start
    = (Return (record9, entry9), st9)
    /\ exportObjectCommon (example_context 12 example_road_map) (example_path example_road 0)
         (mkOcdObject 2 301000 0 0 0 0) IndexEntry_default
         (set_ocd_version 12 example_road_start)
       = (Return (record12, entry12), st12)
    /\ length record9 = 48%nat /\ entry_size entry9 = 2
    /\ length record12 = 48%nat /\ entry_size entry12 = 48.
Proof.
  assert (Hrun9 : exists record entry' st',
             exportObjectCommon (example_context 9 example_road_map)
               (example_path example_road 0) (mkOcdObject 2 301000 0 0 0 0)
               IndexEntry_default example_road_start
             = (Return (record, entry'), st')
             /\ length record = 48%nat)
    by (eexists _, _, _; split; vm_compute; reflexivity).
  assert (Hrun12 : exists record entry' st',
             exportObjectCommon (example_context 12 example_road_map)
               (example_path example_road 0) (mkOcdObject 2 301000 0 0 0 0)
               IndexEntry_default (set_ocd_version 12 example_road_start)
             = (Return (record, entry'), st')
             /\ length record = 48%nat)
    by (eexists _, _, _; split; vm_compute; reflexivity).
  destruct Hrun9 as (record9 & entry9 & st9 & Hrun9 & H9).
  destruct Hrun12 as (record12 & entry12 & st12 & Hrun12 & H12).
  exists record9, entry9, st9, record12, entry12, st12.
  split; [exact Hrun9 |]. split; [exact Hrun12 |].
  assert (Hfits : forall version, representable (example_format version) 48).
  { intros version. split; [lia |]. intros z Hz. cbn. unfold Int.quint16.
    apply Z.mod_small. lia. }
  destruct (index_entry_size_units (example_context 9 example_road_map) _ _ _ _ _ _ _
              (fun data => length_pad8 data) ltac:(vm_compute; discriminate) Hrun9
              ltac:(rewrite H9; apply Hfits)) as [_ Hold].
  destruct (index_entry_size_units (example_context 12 example_road_map) _ _ _ _ _ _ _
              (fun data => length_pad8 data) ltac:(vm_compute; discriminate) Hrun12
              ltac:(rewrite H12; apply Hfits)) as [Hnew _].
  split; [exact H9 |]. split; [rewrite Hold by (cbn; lia); now rewrite H9 |].
  split; [exact H12 |]. rewrite Hnew by (cbn; lia). now rewrite H12.
Defined.

(** ** C4 and C8: the setup of a version 8 file *)

(** The codec that [determineEncoding] returns for a format with a custom
    8-bit encoding. *)
Definition encodingV8 (E : Environment) : string -> QByteArray :=
  match codecFromSettings E with
  | Some encoding => encoding
  | None => codecForLocale E
  end.

(** What follows [exportSetup] in [exportImplementation]. *)
Definition exportSections (C : Context) : Export unit :=
  exportSymbols C ;;
  exportObjects C ;;
  st ← getState;
  modify (set_stream (stream st ++ constByteArray (ctx_format C) (file st))).

(** The colours are entered in the colour table; the byte array and the
    position and size of the notes stay. *)
Lemma addColors_byteArray (table : list MapColor) (ocd_number : Z) (f : OcdFile) :
  file_byteArray (snd (addColors table ocd_number f)) = file_byteArray f
  /\ header_info_pos (snd (addColors table ocd_number f)) = header_info_pos f
  /\ header_info_size (snd (addColors table ocd_number f)) = header_info_size f.
Proof.
  revert ocd_number f. induction table as [| color table IH]; intros ocd_number f.
  - repeat split.
  - cbn [addColors]. destruct (IH (Int.quint16 (ocd_number + 1)) (addColor color ocd_number f))
      as (-> & -> & ->). repeat split.
Qed.

Lemma exportNotesV8_long (notes : QByteArray) (f : OcdFile) :
  32767 < Z.of_nat (length notes) ->
  file_byteArray (exportNotesV8 notes f)
  = file_byteArray f ++ take (Z.to_nat 23767) notes ++ [Byte.x00]
  /\ header_info_pos (exportNotesV8 notes f)
     = Int.quint32 (Z.of_nat (length (file_byteArray f)))
  /\ header_info_size (exportNotesV8 notes f) = 32768.
Proof.
  intros Hlong. unfold exportNotesV8.
  rewrite bool_decide_eq_false_2 by (intros ->; cbn in Hlong; lia).
  rewrite (proj2 (Z.ltb_lt _ _)) by lia.
  repeat split.
Qed.

(** The state in which a version 8 export either stops for the colours or
    goes on with the sections. *)
Record setupV8 (C : Context) (st st1 : Exporter) : Prop := mkSetupV8 {
  setup_warning : work_in_progress_warning ∈ warnings st1;
  setup_byteArray :
    32767 < Z.of_nat (length (encodingV8 (ctx_env C) (getMapNotes (ctx_map C)))) ->
    file_byteArray (file st1)
    = initial_file (ctx_format C)
      ++ take (Z.to_nat 23767) (encodingV8 (ctx_env C) (getMapNotes (ctx_map C)))
      ++ [Byte.x00]
    /\ header_info_pos (file st1)
       = Int.quint32 (Z.of_nat (length (initial_file (ctx_format C))))
    /\ header_info_size (file st1) = 32768;
  setup_stream : stream st1 = stream st }.

Lemma exportImplementation_V8 (C : Context) (actual_version : Z) (st : Exporter) :
  format_version (ctx_format C) = 8 ->
  custom_8bit (ctx_format C) = true ->
  exists st1,
    setupV8 C st st1
    /\ exportImplementation C actual_version st
       = if (if registrationColorUsed (ctx_map C) then 255 else 256)
            <? Z.of_nat (length (colors (ctx_map C)))
         then (Throw more_than_256_colors, st1)
         else exportSections C st1.
Proof.
  intros Hversion Hcustom.
  unfold exportImplementation, exportSetup, determineEncoding, exportSetupV8, exportSections.
  rewrite Hversion, Hcustom. cbn [Z.eqb Pos.eqb].
  unfold mbind, Export_bind, addWarning, addWarnings, modifyFile, modify, getState, mret,
    Export_ret, liftOption, throw.
  destruct (codecFromSettings (ctx_env C)) as [encoding |] eqn:Hcodec; cbn;
    destruct ((if registrationColorUsed (ctx_map C) then 255 else 256)
              <? Z.of_nat (length (colors (ctx_map C))));
    try destruct (registrationColorUsed (ctx_map C));
    (eexists; split; [| reflexivity]);
    (split; cbn;
     [ rewrite ?elem_of_app, list_elem_of_singleton; tauto
     | unfold encodingV8; rewrite Hcodec; intros Hlong
     | reflexivity ]);
    repeat match goal with
           | |- context [addColors ?t ?n ?f] =>
               let Hb := fresh "Hb" in
               let Hp := fresh "Hp" in
               let Hz := fresh "Hz" in
               destruct (addColors_byteArray t n f) as (Hb & Hp & Hz);
               destruct (addColors t n f) as [? ?];
               cbn [snd] in Hb, Hp, Hz; cbn; rewrite Hb, Hp, Hz; cbn
           end;
    apply exportNotesV8_long; exact Hlong.
Qed.

(** C4: when version 8 is selected and the map has more than 256 colours
    (255 if the registration colour is used by a symbol, so that an entry
    is made for it), [doExport] ends with the exception and the output
    stream is as it was. *)
Theorem too_many_colors_V8 (Fs : Formats) (E : Environment) (m : Map)
    (default_version : Z) (file_name : option string) (st : Exporter) :
  selectVersion default_version file_name = 8 ->
  format_version (FormatV8 Fs) = 8 ->
  custom_8bit (FormatV8 Fs) = true ->
  (if registrationColorUsed m then 255 else 256) < Z.of_nat (length (colors m)) ->
  exists st',
    doExport Fs E m default_version file_name st = (Throw more_than_256_colors, st')
    /\ stream st' = stream st.
Proof.
  intros Hselect Hversion Hcustom Hcolors.
  unfold doExport. rewrite Hselect. cbn [Z.eqb Pos.eqb].
  destruct (exportImplementation_V8 (mkContext (FormatV8 Fs) E m)
              (format_version (FormatV8 Fs)) st Hversion Hcustom)
    as (st1 & Hsetup & ->).
  cbn [ctx_map]. rewrite (proj2 (Z.ltb_lt _ _)) by exact Hcolors.
  exists st1. split; [reflexivity | apply Hsetup].
Qed.

(** Four formats with the shapes of the example layouts, and a map with
    257 colours. *)
Definition example_formats : Formats :=
  mkFormats (example_format 8) (example_format 9) (example_format 11) (example_format 12).

Definition example_crowded_map : Map :=
  mkMap (map (fun i => mkMapColor i "Colour") (seq 11 257))
    (mkMapColor 10 "Registration black") false [] []
    "notes" None (MapCoord_default, []) (fun _ => "scale") (fun _ c => colorName c).

Lemma too_many_colors_V8_witness :
  exists st',
    doExport example_formats example_environment example_crowded_map 8 None
      (newExporter [] 100)
    = (Throw more_than_256_colors, st')
    /\ stream st' = [].
Proof.
  apply (too_many_colors_V8 example_formats example_environment example_crowded_map 8 None
           (newExporter [] 100)).
  - reflexivity.
  - reflexivity.
  - reflexivity.
  - vm_compute. reflexivity.
Defined.

(** ** C3: the alignment variants of a text symbol share numbers *)

(** The number that the uniqueness loop settles on: the least number from
    [requested] upwards that no entry of the table holds. *)
Definition leastFree (table : gmap nat Z) (requested n : Z) : Prop :=
  requested <= n
  /\ (forall key, table !! key <> Some n)
  /\ (forall k, requested <= k < n -> exists key, table !! key = Some k).

Lemma leastFree_unique (table : gmap nat Z) (requested n n' : Z) :
  leastFree table requested n -> leastFree table requested n' -> n = n'.
Proof.
  intros (Hn & Hfree & Hbelow) (Hn' & Hfree' & Hbelow').
  destruct (Z.lt_trichotomy n n') as [Hlt | [Heq | Hgt]]; [| exact Heq |].
  - destruct (Hbelow' n ltac:(lia)) as [key Hkey]. now destruct (Hfree key).
  - destruct (Hbelow n' ltac:(lia)) as [key Hkey]. now destruct (Hfree' key).
Qed.

(** When the symbol at [key] is set up a second and a third time, the
    third number is the first again: the table only holds the second. *)
Lemma leastFree_third (table : gmap nat Z) (key : nat) (requested n1 n2 n3 : Z) :
  table !! key = None ->
  leastFree table requested n1 ->
  leastFree (<[key := n1]> table) requested n2 ->
  leastFree (<[key := n2]> (<[key := n1]> table)) requested n3 ->
  n1 <> n2 /\ n3 = n1.
Proof.
  intros Hkey (Hn1 & Hfree1 & Hbelow1) (Hn2 & Hfree2 & Hbelow2) H3.
  assert (Hne : n1 <> n2).
  { intros ->. apply (Hfree2 key). apply lookup_insert_eq. }
  split; [exact Hne |].
  apply (leastFree_unique _ _ _ _ H3). rewrite insert_insert_eq.
  split; [exact Hn1 |]. split.
  - intros key' Hkey'. destruct (decide (key = key')) as [<- | Hother].
    + rewrite lookup_insert_eq in Hkey'. congruence.
    + rewrite lookup_insert_ne in Hkey' by exact Hother. now destruct (Hfree1 key').
  - intros k Hk. destruct (Hbelow1 k Hk) as [key' Hkey']. exists key'.
    rewrite lookup_insert_ne; [exact Hkey' | congruence].
Qed.

Lemma match_alignment_other (key : nat) (alignment other n : Z) :
  other <> alignment ->
  match_alignment key alignment (mkTextFormatMapping key other n) = false.
Proof.
  intros Hother. unfold match_alignment. cbn.
  rewrite (proj2 (Z.eqb_neq _ _) Hother). apply andb_false_r.
Qed.

Section TextVariants.

Variable C : Context.
Variable t : TextSymbol.

Let F := ctx_format C.
Let key := address (text_base t).
Let requested := Z.max 1 (requestedNumber F (text_base t)).

(** The number member can hold 1 and fits the [quint32] of the table, and
    the symbol has a number. *)
Hypothesis number_range : number_min F <= 1 /\ number_max F < 2 ^ 32.
Hypothesis factor_positive : 0 < symbol_number_factor F.
Hypothesis numbered_symbol : 0 <= numberComponent0 (text_base t).

(** One record of the text symbol: its number is the least free one, and
    it replaces the entry of the symbol. *)
Lemma exportTextSymbol_least (alignment : Z) (st : Exporter) :
  requested + Z.of_nat (size (symbol_numbers st)) <= number_max F ->
  exists n data st',
    exportTextSymbol C t alignment st = (Return data, st')
    /\ leastFree (symbol_numbers st) requested n
    /\ symbol_numbers st' = <[key := n]> (symbol_numbers st)
    /\ text_format_mapping st' = text_format_mapping st
    /\ file st' = file st.
Proof.
  intros Hfits.
  destruct (setupBaseSymbol_assigns F number_range C eq_refl factor_positive
              (SymText t) st numbered_symbol Hfits) as (base & Hrun & Hbound & Hfree).
  assert (Hleast : leastFree (symbol_numbers st) requested (base_number base)).
  { split; [apply Hbound |]. split; [exact Hfree |].
    pose proof (requestedNumber_nonneg F factor_positive (SymText t) numbered_symbol)
      as Hreq.
    pose proof Hrun as Hloop. unfold setupBaseSymbol in Hloop. fold F in Hloop.
    assert (Hstart : number_type F
                       (if requestedNumber F (symbolBase (SymText t)) =? 0 then 1
                        else requestedNumber F (symbolBase (SymText t)))
                     = requested).
    { subst requested. cbn [symbolBase] in *. unfold number_type.
      destruct (Z.eqb_spec (requestedNumber F (text_base t)) 0) as [-> | Hne];
        rewrite wrap_in_range; lia. }
    rewrite Hstart in Hloop.
    destruct (ensureUnique F (S (size (symbol_numbers st))) (symbol_numbers st) requested)
      as [m |] eqn:Hm; [| discriminate Hloop].
    injection Hloop as Hbase _. rewrite <- Hbase. cbn [base_number].
    apply (ensureUnique_least F (S (size (symbol_numbers st))) (symbol_numbers st)
             requested m number_range); [subst requested; lia | | exact Hm].
    unfold promoted in Hfits. cbn [symbolBase] in Hfits. fold requested in Hfits. lia. }
  unfold exportTextSymbol, mbind, Export_bind. rewrite Hrun. cbv zeta.
  unfold addWarnings, modify, mret, Export_ret.
  eexists (base_number base), _, _. split; [reflexivity |].
  split; [exact Hleast |]. now repeat split.
Qed.

(** An object whose alignment has no mapping yet gets a record and a
    mapping under the number of that record. *)
Lemma handle_alignment_new (offset : nat) (object : Object) (st : Exporter) :
  requested + Z.of_nat (size (symbol_numbers st)) <= number_max F ->
  existsb (match_alignment key (getHorizontalAlignment (textData object)))
    (drop offset (text_format_mapping st)) = false ->
  exists n data st',
    handle_alignment C t offset object st = (Return tt, st')
    /\ leastFree (symbol_numbers st) requested n
    /\ symbol_numbers st' = <[key := n]> (symbol_numbers st)
    /\ text_format_mapping st'
       = text_format_mapping st
         ++ [mkTextFormatMapping key (getHorizontalAlignment (textData object)) n]
    /\ file st' = set_file_symbols (file_symbols (file st) ++ [data]) (file st).
Proof.
  intros Hfits Hnew.
  destruct (exportTextSymbol_least (getHorizontalAlignment (textData object)) st Hfits)
    as (n & data & st1 & Hrun & Hleast & Htable & Hmapping & Hfile).
  unfold handle_alignment. cbv zeta. unfold mbind at 1, Export_bind, getState.
  fold key. rewrite Hnew.
  unfold mbind at 1, Export_bind. rewrite Hrun.
  unfold mbind, Export_bind, insertSymbol, modify, symbolNumberAt.
  cbn [symbol_numbers set_file]. fold key. rewrite Htable, lookup_insert_eq.
  exists n, data. eexists. split; [reflexivity |].
  split; [exact Hleast |]. cbn. rewrite Htable, Hmapping, Hfile. now repeat split.
Qed.

End TextVariants.

(** C3: symbol numbers are not unique when a text symbol is used with
    three horizontal alignments.  [exportSymbols] writes one record of the
    symbol per alignment, and [setupBaseSymbol] compares the number of
    each record with the entries of the table only, where the entry of the
    symbol holds the number of its latest record: the second record gets
    another number than the first, and the third record gets the number
    of the first again.  (The symbol has no entry yet, its first number
    component is not negative, and the number member has room for one
    more entry than the table holds.) *)
Theorem text_variants_repeat_number (C : Context) (t : TextSymbol) (o1 o2 o3 : Object)
    (st : Exporter) :
  let F := ctx_format C in
  let key := address (text_base t) in
  let requested := Z.max 1 (requestedNumber F (text_base t)) in
  let alignment (o : Object) := getHorizontalAlignment (textData o) in
  number_min F <= 1 /\ number_max F < 2 ^ 32 ->
  0 < symbol_number_factor F ->
  0 <= numberComponent0 (text_base t) ->
  requested + Z.of_nat (size (symbol_numbers st)) + 1 <= number_max F ->
  symbol_numbers st !! key = None ->
  objectsWithSymbol (ctx_map C) key = [o1; o2; o3] ->
  NoDup [alignment o1; alignment o2; alignment o3] ->
  exists n1 n2 records st',
    exportSymbol C (SymText t) st = (Return tt, st')
    /\ text_format_mapping st'
       = text_format_mapping st
         ++ [mkTextFormatMapping key (alignment o1) n1;
             mkTextFormatMapping key (alignment o2) n2;
             mkTextFormatMapping key (alignment o3) n1]
    /\ file st' = set_file_symbols (file_symbols (file st) ++ records) (file st)
    /\ length records = 3%nat
    /\ requested <= n1
    /\ n1 <> n2.
Proof.
  intros F key requested alignment Hrange Hfactor Hc0 Hfits Hkey Husers Hdistinct.
  apply NoDup_cons in Hdistinct as [H1 Hdistinct].
  apply NoDup_cons in Hdistinct as [H2 _].
  rewrite !elem_of_cons, elem_of_nil in H1. rewrite elem_of_cons, elem_of_nil in H2.
  assert (H12 : alignment o1 <> alignment o2) by tauto.
  assert (H13 : alignment o1 <> alignment o3) by tauto.
  assert (H23 : alignment o2 <> alignment o3) by tauto.
  set (offset := length (text_format_mapping st)).
  destruct (handle_alignment_new C t Hrange Hfactor Hc0 offset o1 st)
    as (n1 & d1 & st1 & Hrun1 & Hleast1 & Htable1 & Hmapping1 & Hfile1).
  { fold F requested. lia. }
  { subst offset. now rewrite drop_all. }
  destruct (handle_alignment_new C t Hrange Hfactor Hc0 offset o2 st1)
    as (n2 & d2 & st2 & Hrun2 & Hleast2 & Htable2 & Hmapping2 & Hfile2).
  { fold F requested. rewrite Htable1, map_size_insert_None by exact Hkey. lia. }
  { rewrite Hmapping1. subst offset. rewrite drop_app_length. cbn [existsb].
    now rewrite match_alignment_other by exact H12. }
  destruct (handle_alignment_new C t Hrange Hfactor Hc0 offset o3 st2)
    as (n3 & d3 & st3 & Hrun3 & Hleast3 & Htable3 & Hmapping3 & Hfile3).
  { fold F requested. rewrite Htable2, Htable1.
    rewrite map_size_insert_Some by (rewrite lookup_insert_eq; eauto).
    rewrite map_size_insert_None by exact Hkey. lia. }
  { rewrite Hmapping2, Hmapping1, <- app_assoc. subst offset. rewrite drop_app_length.
    cbn [existsb app].
    now rewrite !match_alignment_other by first [exact H13 | exact H23]. }
  fold F key requested in Hleast1, Hleast2, Hleast3, Htable1, Htable2, Htable3,
    Hmapping1, Hmapping2, Hmapping3.
  rewrite Htable1 in Hleast2. rewrite Htable2, Htable1 in Hleast3.
  destruct (leastFree_third _ _ _ _ _ _ Hkey Hleast1 Hleast2 Hleast3) as [Hne ->].
  exists n1, n2, [d1; d2; d3], st3.
  split; [| split; [| split; [| split; [| split]]]].
  - unfold exportSymbol. unfold mbind at 1, Export_bind, getState. cbn [symbolBase].
    fold key. rewrite Hkey.
    rewrite bool_decide_eq_false_2 by (intros [x Hx]; discriminate Hx).
    unfold exportTextSymbols. cbv zeta. fold key. rewrite Husers. cbn [forEach].
    unfold mbind, Export_bind, getState, mret, Export_ret. fold offset.
    rewrite Hrun1. cbv beta iota. rewrite Hrun2. cbv beta iota.
    rewrite Hrun3. cbv beta iota.
    rewrite bool_decide_eq_false_2; [reflexivity |].
    rewrite Hmapping3, Hmapping2, Hmapping1, !length_app. subst offset. cbn. lia.
  - rewrite Hmapping3, Hmapping2, Hmapping1, <- !app_assoc. reflexivity.
  - rewrite Hfile3, Hfile2, Hfile1. cbn. rewrite <- !app_assoc. reflexivity.
  - reflexivity.
  - apply Hleast1.
  - exact Hne.
Qed.

(** A text symbol with the number 401.0, used by three objects that are
    aligned to the left, centred and aligned to the right. *)
Definition example_caption : TextSymbol :=
  mkTextSymbol (example_base 9 401 0 "Caption") None 0 false false.

Definition example_caption_object (alignment : Z) : Object :=
  mkObject TextObject (Some (SymText example_caption)) [] MapCoord_default MapCoord_default 0
    (mkTextData "A" alignment true 1
       (MapCoord_default, MapCoord_default, MapCoord_default, MapCoord_default,
        MapCoord_default)
       (MapCoord_default, MapCoord_default, MapCoord_default, MapCoord_default)).

Definition example_caption_map : Map :=
  example_map [SymText example_caption]
    [[example_caption_object 0; example_caption_object 1; example_caption_object 2]].

(** The export of that map, with the version 9 and the version 8 layout. *)
Definition example_caption_run (version : Z) : Outcome unit * Exporter :=
  doExport example_formats example_environment example_caption_map version None
    (newExporter [] 100).

(** The symbol numbers in the index entries of the objects. *)
Definition entrySymbols (st : Exporter) : list Z :=
  (fun record => entry_symbol (snd record)) <$> file_objects (file st).

Lemma text_variants_repeat_number_witness :
  (exists st',
     exportSymbol (example_context 9 example_caption_map) (SymText example_caption)
       example_road_start
     = (Return tt, st')
     /\ text_format_mapping st'
        = [mkTextFormatMapping 9 0 401000; mkTextFormatMapping 9 1 401001;
           mkTextFormatMapping 9 2 401000]
     /\ length (file_symbols (file st')) = 3%nat)
  /\ fst (example_caption_run 9) = Return tt
  /\ entrySymbols (snd (example_caption_run 9)) = [401000; 401001; 401000]
  /\ fst (example_caption_run 8) = Return tt
  /\ entrySymbols (snd (example_caption_run 8)) = [4010; 4011; 4010].
Proof.
  split; [| repeat split; vm_compute; reflexivity].
  destruct (text_variants_repeat_number (example_context 9 example_caption_map)
              example_caption (example_caption_object 0) (example_caption_object 1)
              (example_caption_object 2) example_road_start)
    as (n1 & n2 & records & st' & Hrun & _ & Hfile & Hrecords & _).
  - cbn. lia.
  - cbn. lia.
  - cbn. lia.
  - vm_compute. discriminate.
  - reflexivity.
  - reflexivity.
  - cbn. repeat (apply NoDup_cons; split; [rewrite ?elem_of_cons, elem_of_nil; lia |]).
    apply NoDup_nil_2.
  - exists st'. split; [exact Hrun |].
    assert (Hmapping : text_format_mapping
                         (snd (exportSymbol (example_context 9 example_caption_map)
                                 (SymText example_caption) example_road_start))
                       = [mkTextFormatMapping 9 0 401000; mkTextFormatMapping 9 1 401001;
                          mkTextFormatMapping 9 2 401000]) by (vm_compute; reflexivity).
    rewrite Hrun in Hmapping. split; [exact Hmapping |].
    rewrite Hfile. cbn. rewrite Hrecords. reflexivity.
Defined.

(** ** C8: long notes in a version 8 file *)

(** C8: when the encoded map notes are longer than 32767 bytes, the setup
    of a version 8 file stores their first 23767 bytes and a terminating
    zero, but enters 32768 as their size in the header: the range that
    the header gives for the notes ends 9000 bytes behind the end of the
    byte array.  No warning is added for the truncation (it is a todo in
    the source): the warnings of the setup are the one on the registration
    colour, if a symbol uses it, and the one on spot colours, as for any
    other notes. *)
Theorem long_notes_V8_unreported (C : Context) (st st' : Exporter)
    (encoding : string -> QByteArray) :
  let notes := encoding (getMapNotes (ctx_map C)) in
  custom_8bit_encoding st = Some encoding ->
  32767 < Z.of_nat (length notes) ->
  Z.of_nat (length (file_byteArray (file st))) < 2 ^ 32 ->
  exportSetupV8 C st = (Return tt, st') ->
  file_byteArray (file st')
  = file_byteArray (file st) ++ take (Z.to_nat 23767) notes ++ [Byte.x00]
  /\ header_info_pos (file st') = Z.of_nat (length (file_byteArray (file st)))
  /\ header_info_size (file st') = 32768
  /\ header_info_pos (file st') + header_info_size (file st')
     = Z.of_nat (length (file_byteArray (file st'))) + 9000
  /\ warnings st'
     = warnings st
       ++ (if uses_registration_color st then [registration_black_warning] else [])
       ++ [spot_color_warning].
Proof.
  intros notes Hencoding Hlong Hsize. unfold exportSetupV8.
  unfold mbind, Export_bind, addWarning, modifyFile, modify, getState, mret, Export_ret,
    liftOption, throw, unreachable.
  rewrite Hencoding. cbn [fst snd uses_registration_color set_file].
  destruct (_ <? _); [discriminate |].
  assert (Hbytes : forall f,
             file_byteArray f = file_byteArray (file st) ->
             file_byteArray (exportNotesV8 notes f)
             = file_byteArray (file st) ++ take (Z.to_nat 23767) notes ++ [Byte.x00]
             /\ header_info_pos (exportNotesV8 notes f)
                = Z.of_nat (length (file_byteArray (file st)))
             /\ header_info_size (exportNotesV8 notes f) = 32768).
  { intros f Hf. destruct (exportNotesV8_long notes f Hlong) as (-> & -> & ->).
    rewrite Hf, IntFacts.quint32_small by lia. repeat split. }
  assert (Hend : Z.of_nat (length (file_byteArray (file st))) + 32768
                 = Z.of_nat (length (file_byteArray (file st)
                                     ++ take (Z.to_nat 23767) notes ++ [Byte.x00]))
                   + 9000).
  { rewrite !length_app, length_take. cbn [length]. lia. }
  destruct (uses_registration_color st); cbn;
    intros [= <-]; cbn;
    match goal with
    | |- context [addColors ?t ?n ?f] =>
        destruct (addColors_byteArray t n f) as (Hb & Hp & Hz);
        destruct (addColors t n f) as [ocd_number f']
    end;
    cbn [snd] in Hb, Hp, Hz; cbn; rewrite Hb, Hp, Hz; cbn;
    match goal with
    | |- context [exportNotesV8 ?n ?f] =>
        change n with notes; destruct (Hbytes f eq_refl) as (-> & -> & ->)
    end;
    rewrite <- ?app_assoc; repeat split; exact Hend.
Qed.

(** A map whose notes are 40000 letters, and the exporter before the
    setup of its version 8 file. *)
Definition example_long_notes_map : Map :=
  mkMap example_colors (mkMapColor 10 "Registration black") false [] []
    (String.string_of_list_ascii (replicate (Z.to_nat 40000) (Ascii.ascii_of_nat 97)))
    None (MapCoord_default, []) (fun _ => "scale") (fun _ c => colorName c).

Definition example_long_notes_start : Exporter :=
  set_custom_8bit_encoding (Some (codecForLocale example_environment))
    (set_file (newFile (example_format 8) 8) (set_ocd_version 8 (newExporter [] 100))).

Definition example_long_notes_setup : Outcome unit * Exporter :=
  exportSetupV8 (example_context 8 example_long_notes_map) example_long_notes_start.

(** The export of that map, and of the map with the notes "notes". *)
Definition example_long_notes_run : Outcome unit * Exporter :=
  doExport example_formats example_environment example_long_notes_map 8 None
    (newExporter [] 100).

Definition example_short_notes_run : Outcome unit * Exporter :=
  doExport example_formats example_environment (example_map [] []) 8 None
    (newExporter [] 100).

Lemma long_notes_V8_unreported_witness :
  fst example_long_notes_setup = Return tt
  /\ Z.of_nat (length (file_byteArray (file (snd example_long_notes_setup)))) = 23768
  /\ header_info_pos (file (snd example_long_notes_setup)) = 0
  /\ header_info_size (file (snd example_long_notes_setup)) = 32768
  /\ warnings (snd example_long_notes_setup) = [spot_color_warning]
  /\ fst example_long_notes_run = Return tt
  /\ Z.of_nat (length (file_byteArray (file (snd example_long_notes_run)))) = 23768
  /\ header_info_size (file (snd example_long_notes_run)) = 32768
  /\ warnings (snd example_long_notes_run) = [work_in_progress_warning; spot_color_warning]
  /\ warnings (snd example_short_notes_run) = [work_in_progress_warning; spot_color_warning].
Proof.
  assert (Hreturns : fst example_long_notes_setup = Return tt) by (vm_compute; reflexivity).
  destruct (long_notes_V8_unreported (example_context 8 example_long_notes_map)
              example_long_notes_start (snd example_long_notes_setup)
              (codecForLocale example_environment))
    as (Hbytes & Hpos & Hsize & _ & Hwarnings).
  - reflexivity.
  - vm_compute. reflexivity.
  - vm_compute. reflexivity.
  - revert Hreturns. unfold example_long_notes_setup.
    destruct (exportSetupV8 (example_context 8 example_long_notes_map)
                example_long_notes_start) as [o st'].
    cbn [fst snd]. now intros ->.
  - split; [exact Hreturns |].
    split; [rewrite Hbytes; vm_compute; reflexivity |].
    split; [rewrite Hpos; vm_compute; reflexivity |].
    split; [exact Hsize |].
    split; [rewrite Hwarnings; reflexivity |].
    repeat split; vm_compute; reflexivity.
Defined.

(** * Part III: further properties of the exporter *)

(** ** Coordinates and sizes *)

(** Whatever the coordinate, [convertPointMember] leaves the low byte of
    the member clear and stays within 24 signed bits above it. *)
Lemma convertPointMember_shape (v : Z) :
  exists k, convertPointMember v = 256 * k /\ - 2 ^ 23 <= k < 2 ^ 23.
Proof.
  unfold convertPointMember.
  destruct (v <? -5).
  - rewrite land_field_quint32.
    pose proof (Z.mod_pos_bound ((v - 4) ÷ 10) (2 ^ 23) ltac:(lia)) as Hm.
    rewrite Z.shiftl_mul_pow2 by lia.
    change 0x80000000 with (2 ^ 31).
    rewrite IntFacts.lor_high_bit by lia.
    rewrite IntFacts.qint32_high by lia.
    exists (((v - 4) ÷ 10) mod 2 ^ 23 - 2 ^ 23). lia.
  - rewrite land_field_quint32.
    pose proof (Z.mod_pos_bound ((v + 5) ÷ 10) (2 ^ 23) ltac:(lia)) as Hm.
    rewrite Z.shiftl_mul_pow2 by lia.
    rewrite IntFacts.qint32_small by lia.
    exists (((v + 5) ÷ 10) mod 2 ^ 23). lia.
Qed.

Lemma convertPointMember_low_byte (v : Z) : Z.land (convertPointMember v) 255 = 0.
Proof.
  destruct (convertPointMember_shape v) as (k & -> & _).
  change 255 with (Z.ones 8). rewrite Z.land_ones by lia.
  rewrite Z.mul_comm. apply Z.mod_mul. lia.
Qed.

(** Or-ing a flag of the low byte into a member. *)
Lemma lor_flag (a f : Z) :
  0 <= f < 256 ->
  Z.land (Z.lor a f) 255 = Z.lor (Z.land a 255) f
  /\ Z.shiftr (Z.lor a f) 8 = Z.shiftr a 8.
Proof.
  intros Hf. split.
  - rewrite Z.land_lor_distr_l. f_equal.
    change 255 with (Z.ones 8). rewrite Z.land_ones by lia. apply Z.mod_small. lia.
  - rewrite Z.shiftr_lor. rewrite (Z.shiftr_div_pow2 f) by lia.
    rewrite (Z.div_small f) by lia. apply Z.lor_0_r.
Qed.

(** X1: The flags that [exportCoordinates] sets and the coordinate do not
    disturb each other: with flag values below 256, the bits above the low
    byte of both members are those of the converted coordinate, and the
    low bytes hold exactly the flags set: the two control-point flags in
    [x], the dash-point flag (corner or dash) and the hole flag in [y]. *)
Theorem flags_leave_coordinates (fl : PointFlags) (symbol : option Symbol)
    (curve_start hole_point curve_continue : bool) (point : MapCoord) :
  Forall (fun f => 0 <= f < 256)
    [FlagCtl1 fl; FlagCtl2 fl; FlagCorner fl; FlagHole fl; FlagDash fl] ->
  let p := flaggedPoint fl symbol curve_start hole_point curve_continue point in
  Z.shiftr (px p) 8 = Z.shiftr (convertPointMember (nativeX point)) 8
  /\ Z.shiftr (py p) 8 = Z.shiftr (convertPointMember (- nativeY point)) 8
  /\ Z.land (px p) 255
     = Z.lor (if curve_start then FlagCtl1 fl else 0)
         (if curve_continue then FlagCtl2 fl else 0)
  /\ Z.land (py p) 255
     = Z.lor (if isDashPoint point then dashPointFlag fl symbol else 0)
         (if hole_point then FlagHole fl else 0).
Proof.
  intros Hflags p.
  apply Forall_cons in Hflags as [H1 Hflags]. apply Forall_cons in Hflags as [H2 Hflags].
  apply Forall_cons in Hflags as [Hc Hflags]. apply Forall_cons in Hflags as [Hh Hflags].
  apply Forall_cons in Hflags as [Hd _].
  assert (Hdash : 0 <= dashPointFlag fl symbol < 256).
  { unfold dashPointFlag. destruct symbol as [[? | l | ? | ? | ?] |]; try exact Hc.
    destruct (_ && _); assumption. }
  pose proof (convertPointMember_low_byte (nativeX point)) as Hx.
  pose proof (convertPointMember_low_byte (- nativeY point)) as Hy.
  subst p. unfold flaggedPoint, convertPoint, convertPointXY.
  destruct (isDashPoint point), curve_start, hole_point, curve_continue; cbn [px py];
    repeat match goal with
           | |- context [Z.lor ?a ?f] =>
               lazymatch a with
               | 0 => fail
               | _ =>
                   let Hl := fresh "Hl" in
                   let Hs := fresh "Hs" in
                   destruct (lor_flag a f ltac:(assumption)) as [Hl Hs];
                   rewrite ?Hl, ?Hs; clear Hl Hs
               end
           end;
    rewrite ?Hx, ?Hy, ?Z.lor_0_l, ?Z.lor_0_r; repeat split; reflexivity.
Qed.

(** A dash point after a curve start that was a hole point. *)
Definition example_flagged_point : OcdPoint32 :=
  flaggedPoint (mkPointFlags 1 2 1 2 8) None true true true
    (mkMapCoord (-1234) 5678 false false true).

Lemma flags_leave_coordinates_witness :
  Z.shiftr (px example_flagged_point) 8 = -123
  /\ Z.shiftr (py example_flagged_point) 8 = -568
  /\ Z.land (px example_flagged_point) 255 = 3
  /\ Z.land (py example_flagged_point) 255 = 3.
Proof.
  destruct (flags_leave_coordinates (mkPointFlags 1 2 1 2 8) None true true true
              (mkMapCoord (-1234) 5678 false false true))
    as (Hx & Hy & Hfx & Hfy).
  - repeat constructor; cbn; lia.
  - unfold example_flagged_point. rewrite Hx, Hy, Hfx, Hfy. repeat split; reflexivity.
Defined.

(** X2: [convertSize] on [qint32]: within the range of [qint16] a size of -5
    or more is divided by ten and rounded half up; a size below -5 is
    rounded towards zero after the shift by 5, so that it is never rounded
    down; and outside the range the result wraps around with period
    655360. *)
Theorem convertSize_rounding (size : Z) :
  -327685 <= size <= 327674 ->
  -32768 <= convertSize size <= 32767
  /\ (-5 <= size ->
      convertSize size = (size + 5) / 10 /\ -4 <= 10 * convertSize size - size <= 5)
  /\ (size < -5 ->
      convertSize size = - ((- size - 5) / 10) /\ 5 <= 10 * convertSize size - size <= 14)
  /\ (0 <= size -> convertSize (size + 655360) = convertSize size).
Proof.
  intros Hrange. unfold convertSize.
  assert (Hq : -32768 <= (size + 5) ÷ 10 <= 32767).
  { destruct (Z_lt_ge_dec size (-5)).
    - rewrite <- (Z.opp_involutive (size + 5)), Z.quot_opp_l by lia.
      rewrite Z.quot_div_nonneg by lia.
      pose proof (Z.div_le_upper_bound (- (size + 5)) 10 32768 ltac:(lia) ltac:(lia)).
      pose proof (Z.div_pos (- (size + 5)) 10 ltac:(lia) ltac:(lia)). lia.
    - rewrite Z.quot_div_nonneg by lia.
      pose proof (Z.div_lt_upper_bound (size + 5) 10 32768 ltac:(lia) ltac:(lia)).
      pose proof (Z.div_pos (size + 5) 10 ltac:(lia) ltac:(lia)). lia. }
  assert (Hwrap : Int.qint16 ((size + 5) ÷ 10) = (size + 5) ÷ 10).
  { unfold Int.qint16. rewrite Z.mod_small; lia. }
  rewrite Hwrap. split; [exact Hq |]. split; [| split].
  - intros Hsize. rewrite Z.quot_div_nonneg by lia.
    split; [reflexivity |].
    pose proof (Z.div_mod (size + 5) 10 ltac:(lia)).
    pose proof (Z.mod_pos_bound (size + 5) 10 ltac:(lia)). lia.
  - intros Hsize.
    rewrite <- (Z.opp_involutive (size + 5)), Z.quot_opp_l by lia.
    rewrite Z.quot_div_nonneg by lia.
    replace (- (size + 5)) with (- size - 5) by lia.
    split; [reflexivity |].
    pose proof (Z.div_mod (- size - 5) 10 ltac:(lia)).
    pose proof (Z.mod_pos_bound (- size - 5) 10 ltac:(lia)). lia.
  - intros Hsize. rewrite !Z.quot_div_nonneg in * by lia.
    replace (size + 655360 + 5) with (size + 5 + 65536 * 10) by lia.
    rewrite Z.div_add by lia.
    unfold Int.qint16.
    replace ((size + 5) / 10 + 65536 + 2 ^ 15)
      with ((size + 5) / 10 + 2 ^ 15 + 1 * 2 ^ 16) by lia.
    rewrite Z.mod_add by lia. rewrite Z.mod_small; lia.
Qed.

Lemma convertSize_rounding_witness :
  convertSize 14 = 1 /\ convertSize 15 = 2 /\ convertSize (-14) = 0
  /\ convertSize (-15) = -1 /\ convertSize (327675 + 327685) = convertSize 0.
Proof.
  destruct (convertSize_rounding 14 ltac:(lia)) as (_ & H14 & _).
  destruct (convertSize_rounding 15 ltac:(lia)) as (_ & H15 & _).
  destruct (convertSize_rounding (-14) ltac:(lia)) as (_ & _ & Hm14 & _).
  destruct (convertSize_rounding (-15) ltac:(lia)) as (_ & _ & Hm15 & _).
  destruct (convertSize_rounding 0 ltac:(lia)) as (_ & _ & _ & H0).
  split; [exact (proj1 (H14 ltac:(lia))) |].
  split; [exact (proj1 (H15 ltac:(lia))) |].
  split; [exact (proj1 (Hm14 ltac:(lia))) |].
  split; [exact (proj1 (Hm15 ltac:(lia))) |].
  exact (H0 ltac:(lia)).
Defined.

(** ** The coordinate encoder in closed form *)

(** What the loop of [exportCoordinates] remembers at point [i]: a
    property of the point before it. *)
Definition flagBefore (f : MapCoord -> bool) (coords : MapCoordVector) (i : nat) : bool :=
  match i with
  | O => false
  | S j => from_option f false (coords !! j)
  end.

(** The encoded point at position [i]: it is the first control point when
    the point before it starts a curve, the second when the point two
    before it does, and the first point of a hole when the point before it
    ends a part. *)
Definition exportedPoint (fl : PointFlags) (symbol : option Symbol)
    (coords : MapCoordVector) (i : nat) (point : MapCoord) : OcdPoint32 :=
  flaggedPoint fl symbol
    (flagBefore isCurveStart coords i)
    (flagBefore isHolePoint coords i)
    (flagBefore isCurveStart coords (pred i))
    point.

Lemma exportCoordinates_loop_closed (fl : PointFlags) (symbol : option Symbol)
    (rest done : MapCoordVector) (n : Z) (byte_array : QByteArray) :
  0 <= n < 2 ^ 16 ->
  exportCoordinates_loop fl symbol rest
    (flagBefore isCurveStart (done ++ rest) (length done))
    (flagBefore isHolePoint (done ++ rest) (length done))
    (flagBefore isCurveStart (done ++ rest) (pred (length done)))
    n byte_array
  = ((n + Z.of_nat (length rest)) mod 2 ^ 16,
     byte_array
     ++ flat_map bytes_of_OcdPoint32
          (imap (fun i => exportedPoint fl symbol (done ++ rest) (length done + i)) rest)).
Proof.
  revert done n byte_array.
  induction rest as [| point rest IH]; intros done n byte_array Hn.
  - cbn. rewrite app_nil_r, Z.add_0_r, Z.mod_small by lia. reflexivity.
  - cbn [exportCoordinates_loop].
    assert (Hall : done ++ point :: rest = (done ++ [point]) ++ rest)
      by now rewrite <- app_assoc.
    assert (Hnext : length (done ++ [point]) = S (length done))
      by (rewrite length_app; cbn; lia).
    assert (Hat : (done ++ point :: rest) !! length done = Some point)
      by now rewrite lookup_app_r, Nat.sub_diag by lia.
    specialize (IH (done ++ [point]) (Int.quint16 (n + 1))
                  (byte_array
                   ++ bytes_of_OcdPoint32
                        (flaggedPoint fl symbol
                           (flagBefore isCurveStart (done ++ point :: rest) (length done))
                           (flagBefore isHolePoint (done ++ point :: rest) (length done))
                           (flagBefore isCurveStart (done ++ point :: rest)
                              (pred (length done)))
                           point))).
    rewrite Hnext, <- Hall in IH. cbn [flagBefore pred] in IH. rewrite Hat in IH.
    cbn [from_option] in IH.
    rewrite IH by (unfold Int.quint16; apply Z.mod_pos_bound; lia).
    f_equal.
    + unfold Int.quint16. rewrite Zplus_mod_idemp_l. f_equal. cbn [length]. lia.
    + rewrite <- app_assoc. f_equal. cbn [imap flat_map]. unfold exportedPoint at 2.
      rewrite Nat.add_0_r. f_equal. f_equal.
      apply imap_ext. intros i x _. cbn. f_equal. lia.
Qed.

(** X3: [exportCoordinates] keeps the bytes that are there, appends the
    encoded points in order, each with the flags that the points before it
    call for (the first point never has a control or hole flag), and
    returns the number of points as a [quint16]. *)
Theorem exportCoordinates_layout (fl : PointFlags) (coords : MapCoordVector)
    (symbol : option Symbol) (byte_array : QByteArray) :
  exportCoordinates fl coords symbol byte_array
  = (Z.of_nat (length coords) mod 2 ^ 16,
     byte_array
     ++ flat_map bytes_of_OcdPoint32 (imap (exportedPoint fl symbol coords) coords))
  /\ length (flat_map bytes_of_OcdPoint32 (imap (exportedPoint fl symbol coords) coords))
     = (8 * length coords)%nat.
Proof.
  split.
  - unfold exportCoordinates.
    exact (exportCoordinates_loop_closed fl symbol coords [] 0 byte_array ltac:(lia)).
  - generalize (exportedPoint fl symbol coords). intros f. revert f.
    induction coords as [| point coords IH]; intros f; [reflexivity |].
    cbn [imap flat_map]. rewrite length_app, length_bytes_of_OcdPoint32, IH.
    cbn [length]. lia.
Qed.

(** ** Text blocks *)

(** The text as the OCD format has it: a leading newline is doubled, and
    every newline becomes carriage return and newline. *)
Definition ocdText (text : string) : list Ascii.ascii :=
  let text := String.list_ascii_of_string text in
  replaceNewlines
    (match text with
     | c :: _ => if bool_decide (c = newline) then newline :: text else text
     | [] => text
     end).

Lemma length_utf16le (text : list Ascii.ascii) :
  length (utf16le text) = (2 * length text)%nat.
Proof.
  unfold utf16le. induction text as [| c text IH]; [reflexivity |].
  cbn [flat_map length app]. rewrite IH. lia.
Qed.

(** Filling up to a multiple of the chunk size. *)
Lemma chunk_padding (chunk_size max_chunks text_size : Z) :
  0 < chunk_size -> 0 <= text_size < chunk_size * max_chunks ->
  let padding := Z.rem (chunk_size * max_chunks - text_size) chunk_size in
  0 <= padding < chunk_size
  /\ (text_size + padding) mod chunk_size = 0
  /\ text_size + padding <= chunk_size * max_chunks
  /\ padding = (- text_size) mod chunk_size.
Proof.
  intros Hchunk Hsize padding. subst padding.
  rewrite Z.rem_mod_nonneg by lia.
  set (m := chunk_size * max_chunks) in *.
  pose proof (Z.div_mod (m - text_size) chunk_size ltac:(lia)) as Hdm.
  pose proof (Z.mod_pos_bound (m - text_size) chunk_size ltac:(lia)) as Hb.
  assert (Hq : 0 <= (m - text_size) / chunk_size) by (apply Z.div_pos; lia).
  set (q := (m - text_size) / chunk_size) in *.
  set (r := (m - text_size) mod chunk_size) in *.
  assert (Hsum : text_size + r = chunk_size * (max_chunks - q)) by (subst m; lia).
  split; [lia |]. split; [| split].
  - rewrite Hsum, Z.mul_comm. apply Z.mod_mul. lia.
  - nia.
  - apply Z.mod_unique with (q := q - max_chunks); [lia |]. subst m. lia.
Qed.

(** X4: [exportTextData] returns the UTF-16 text, cut to the characters that
    fit below [chunk_size * max_chunks] bytes, and filled with zeros to the
    next multiple of [chunk_size]: the assertions of the source hold.  A
    warning is added exactly when the text is cut.  When the text fills
    its chunks exactly, no zero follows it. *)
Theorem exportTextData_chunks (object : Object) (chunk_size max_chunks : Z) :
  0 < chunk_size -> 0 < max_chunks ->
  let max_size := chunk_size * max_chunks in
  let text := ocdText (getText (textData object)) in
  let fits := 2 * Z.of_nat (length text) <? max_size in
  let kept := if fits then text else take (Z.to_nat ((max_size - 1) / 2)) text in
  let text_size := 2 * Z.of_nat (length kept) in
  text_size < max_size
  /\ fst (exportTextData object chunk_size max_chunks)
     = utf16le kept ++ replicate (Z.to_nat ((- text_size) mod chunk_size)) Byte.x00
  /\ Z.of_nat (length (fst (exportTextData object chunk_size max_chunks))) <= max_size
  /\ Z.of_nat (length (fst (exportTextData object chunk_size max_chunks))) mod chunk_size = 0
  /\ snd (exportTextData object chunk_size max_chunks)
     = (if fits then [] else [textTruncationWarning text (length kept)])
  /\ (fits = false -> Z.of_nat (length kept) = (max_size - 1) / 2).
Proof.
  intros Hchunk Hchunks. cbv zeta.
  set (max_size := chunk_size * max_chunks).
  set (text := ocdText (getText (textData object))).
  assert (Hmax : 0 < max_size) by (subst max_size; nia).
  assert (Hrun : forall kept ws,
             0 <= 2 * Z.of_nat (length kept) < max_size ->
             (if max_size <=? Z.of_nat (length (utf16le text))
              then (utf16le (take (Z.to_nat ((max_size - 1) ÷ 2)) text),
                    [textTruncationWarning text
                       (length (take (Z.to_nat ((max_size - 1) ÷ 2)) text))])
              else (utf16le text, []))
             = (utf16le kept, ws) ->
             2 * Z.of_nat (length kept) < max_size
             /\ fst (exportTextData object chunk_size max_chunks)
                = utf16le kept
                  ++ replicate (Z.to_nat ((- (2 * Z.of_nat (length kept))) mod chunk_size))
                       Byte.x00
             /\ Z.of_nat (length (fst (exportTextData object chunk_size max_chunks)))
                <= max_size
             /\ Z.of_nat (length (fst (exportTextData object chunk_size max_chunks)))
                  mod chunk_size = 0
             /\ snd (exportTextData object chunk_size max_chunks) = ws).
  { intros kept ws Hsize Hcut.
    destruct (chunk_padding chunk_size max_chunks (2 * Z.of_nat (length kept)) Hchunk Hsize)
      as (Hpad & Hmod & Hle & Heq).
    unfold exportTextData. fold (ocdText (getText (textData object))). fold text.
    fold max_size. rewrite Hcut. cbn [fst snd].
    rewrite length_app, length_utf16le, length_replicate.
    replace (Z.of_nat (2 * length kept)) with (2 * Z.of_nat (length kept)) by lia.
    fold max_size in Hpad, Hmod, Hle, Heq. rewrite <- Heq.
    replace (Z.of_nat (2 * length kept
                       + Z.to_nat (Z.rem (max_size - 2 * Z.of_nat (length kept)) chunk_size)))
      with (2 * Z.of_nat (length kept)
            + Z.rem (max_size - 2 * Z.of_nat (length kept)) chunk_size) by lia.
    repeat split; try assumption; lia. }
  rewrite length_utf16le in Hrun.
  destruct (Z.ltb_spec (2 * Z.of_nat (length text)) max_size) as [Hlt | Hge].
  - destruct (Hrun text []) as (H1 & H2 & H3 & H4 & H5); [lia | |].
    + now rewrite (proj2 (Z.leb_gt _ _)) by lia.
    + repeat split; try assumption. discriminate.
  - assert (Hkept : Z.of_nat (length (take (Z.to_nat ((max_size - 1) / 2)) text))
                    = (max_size - 1) / 2).
    { rewrite length_take.
      pose proof (Z.div_pos (max_size - 1) 2 ltac:(lia) ltac:(lia)).
      pose proof (Z.div_mod (max_size - 1) 2 ltac:(lia)).
      pose proof (Z.mod_pos_bound (max_size - 1) 2 ltac:(lia)). lia. }
    destruct (Hrun (take (Z.to_nat ((max_size - 1) / 2)) text)
                [textTruncationWarning text
                   (length (take (Z.to_nat ((max_size - 1) / 2)) text))])
      as (H1 & H2 & H3 & H4 & H5).
    + rewrite Hkept.
      pose proof (Z.div_pos (max_size - 1) 2 ltac:(lia) ltac:(lia)).
      pose proof (Z.div_mod (max_size - 1) 2 ltac:(lia)).
      pose proof (Z.mod_pos_bound (max_size - 1) 2 ltac:(lia)). lia.
    + rewrite (proj2 (Z.leb_le _ _)) by lia.
      now rewrite Z.quot_div_nonneg by lia.
    + repeat split; try assumption. intros _. exact Hkept.
Qed.

(** A text of 40 letters in chunks of 64 bytes: 80 bytes and 48 zeros; a
    text of 32 letters fills one chunk and gets no zero. *)
Definition example_text_object (text : string) : Object :=
  mkObject TextObject None [] MapCoord_default MapCoord_default 0
    (mkTextData text 0 true 1
       (MapCoord_default, MapCoord_default, MapCoord_default, MapCoord_default,
        MapCoord_default)
       (MapCoord_default, MapCoord_default, MapCoord_default, MapCoord_default)).

Lemma exportTextData_chunks_witness :
  length (fst (exportTextData
                 (example_text_object "0123456789012345678901234567890123456789") 64 128))
  = 128%nat
  /\ length (fst (exportTextData
                    (example_text_object "01234567890123456789012345678901") 64 128))
     = 64%nat.
Proof.
  destruct (exportTextData_chunks
              (example_text_object "0123456789012345678901234567890123456789") 64 128
              ltac:(lia) ltac:(lia)) as (_ & H40 & _).
  destruct (exportTextData_chunks
              (example_text_object "01234567890123456789012345678901") 64 128
              ltac:(lia) ltac:(lia)) as (_ & H32 & _).
  rewrite H40, H32. split; reflexivity.
Defined.

(** ** The palette quantizers return a nearest entry *)

Section ScanMinimum.

Variable distance : Z -> Z.

(** The search loop either keeps its start value, no candidate being
    closer, or stops at the first candidate of least distance. *)
Lemma scan_first_minimum (l : list Z) (acc : Z * Z) :
  (scan distance l acc = acc /\ forall j, j ∈ l -> snd acc <= distance j)
  \/ exists before after,
       l = before ++ fst (scan distance l acc) :: after
       /\ snd (scan distance l acc) = distance (fst (scan distance l acc))
       /\ snd (scan distance l acc) < snd acc
       /\ (forall j, j ∈ before -> snd (scan distance l acc) < distance j)
       /\ (forall j, j ∈ after -> snd (scan distance l acc) <= distance j).
Proof.
  revert acc. induction l as [| j l IH]; intros acc.
  - left. split; [reflexivity |]. intros j Hj. inversion Hj.
  - replace (scan distance (j :: l) acc)
      with (scan distance l (if distance j <? snd acc then (j, distance j) else acc))
      by reflexivity.
    destruct (Z.ltb_spec (distance j) (snd acc)) as [Hlt | Hge].
    + right. destruct (IH (j, distance j)) as [[-> Hall] | Hfound].
      * exists [], l. cbn [fst snd app] in *. repeat split; try lia.
        -- intros k Hk. inversion Hk.
        -- exact Hall.
      * destruct Hfound as (before & after & Hl & Hd & Hless & Hb & Ha).
        cbn [snd] in Hless.
        exists (j :: before), after. split; [cbn [app]; now f_equal |].
        split; [exact Hd |]. split; [lia |]. split; [| exact Ha].
        intros k Hk. apply elem_of_cons in Hk as [-> | Hk]; [lia | now apply Hb].
    + destruct (IH acc) as [[-> Hall] | Hfound].
      * left. split; [reflexivity |].
        intros k Hk. apply elem_of_cons in Hk as [-> | Hk]; [lia | now apply Hall].
      * right. destruct Hfound as (before & after & Hl & Hd & Hless & Hb & Ha).
        exists (j :: before), after. split; [cbn [app]; now f_equal |].
        split; [exact Hd |]. split; [exact Hless |]. split; [| exact Ha].
        intros k Hk. apply elem_of_cons in Hk as [-> | Hk]; [lia | now apply Hb].
Qed.

End ScanMinimum.

(** The colour channels are bytes. *)
Lemma channel_range (rgb : Z) :
  0 <= Qt.qRed rgb <= 255 /\ 0 <= Qt.qGreen rgb <= 255 /\ 0 <= Qt.qBlue rgb <= 255.
Proof.
  unfold Qt.qRed, Qt.qGreen, Qt.qBlue. change 0xff with (Z.ones 8).
  rewrite !Z.land_ones by lia.
  pose proof (Z.mod_pos_bound (Z.shiftr rgb 16) (2 ^ 8) ltac:(lia)).
  pose proof (Z.mod_pos_bound (Z.shiftr rgb 8) (2 ^ 8) ltac:(lia)).
  pose proof (Z.mod_pos_bound rgb (2 ^ 8) ltac:(lia)).
  change (Z.ones 8) with 255. lia.
Qed.

(** The level of the colour cube next to a channel value. *)
Definition nearLevel (c : Z) : nat :=
  if c <? 32 then 0 else if c <? 96 then 1 else if c <? 160 then 2
  else if c <? 224 then 3 else 4.

Definition level (k : nat) : Z := nth k V9.color_levels 0.

Lemma nearLevel_close (c : Z) :
  0 <= c <= 255 -> (nearLevel c < 5)%nat /\ sq (c - level (nearLevel c)) <= 1024.
Proof.
  intros Hc. unfold nearLevel, level, sq.
  repeat match goal with
         | |- context [?a <? ?b] => destruct (Z.ltb_spec a b)
         end; cbn; split; try lia; nia.
Qed.

Lemma V9_palette_cube (kr kg kb : nat) :
  (kr < 5)%nat -> (kg < 5)%nat -> (kb < 5)%nat ->
  V9.palette_at (Z.of_nat (25 * kr + 5 * kg + kb))
  = V9.PC (level kr) (level kg) (level kb).
Proof.
  intros Hr Hg Hb.
  destruct kr as [| [| [| [| [| kr]]]]]; try lia;
    destruct kg as [| [| [| [| [| kg]]]]]; try lia;
    destruct kb as [| [| [| [| [| kb]]]]]; try lia; reflexivity.
Qed.

Lemma V9_candidates_range (j : Z) : j ∈ V9.candidates <-> 0 <= j <= 124.
Proof.
  unfold V9.candidates. rewrite list_elem_of_fmap. split.
  - intros (n & -> & Hn). apply elem_of_seq in Hn. lia.
  - intros Hj. exists (Z.to_nat j). split; [lia |]. apply elem_of_seq. lia.
Qed.

(** Some entry of the cube is closer than the start value of the loop. *)
Lemma V9_near_entry (rgb : Z) :
  exists j, j ∈ V9.candidates /\ V9.distance rgb j < 10000.
Proof.
  destruct (channel_range rgb) as (Hr & Hg & Hb).
  destruct (nearLevel_close _ Hr) as [Hkr Hdr].
  destruct (nearLevel_close _ Hg) as [Hkg Hdg].
  destruct (nearLevel_close _ Hb) as [Hkb Hdb].
  exists (Z.of_nat (25 * nearLevel (Qt.qRed rgb) + 5 * nearLevel (Qt.qGreen rgb)
                    + nearLevel (Qt.qBlue rgb))).
  split; [apply V9_candidates_range; lia |].
  unfold V9.distance. rewrite V9_palette_cube by assumption.
  cbn [V9.r V9.g V9.b]. lia.
Qed.

(** The candidates before an index in the loop order are the smaller
    indices. *)
Lemma V9_candidates_before (before after : list Z) (i j : Z) :
  V9.candidates = before ++ i :: after -> 0 <= j < i -> j ∈ before.
Proof.
  intros Hsplit Hj.
  assert (Hlen : (length before < 125)%nat).
  { apply (f_equal length) in Hsplit. rewrite length_app in Hsplit.
    unfold V9.candidates in Hsplit. rewrite length_map, length_seq in Hsplit.
    cbn [length] in Hsplit. lia. }
  assert (Hi : i = Z.of_nat (length before)).
  { assert (Hat : V9.candidates !! length before = Some i)
      by (rewrite Hsplit, lookup_app_r, Nat.sub_diag by lia; reflexivity).
    unfold V9.candidates in Hat. rewrite list_lookup_fmap, lookup_seq_lt in Hat by lia.
    cbn in Hat. now injection Hat as <-. }
  assert (Hin : V9.candidates !! Z.to_nat j = Some j).
  { unfold V9.candidates. rewrite list_lookup_fmap, lookup_seq_lt by lia.
    cbn. f_equal. lia. }
  rewrite Hsplit, lookup_app_l in Hin by lia.
  eapply list_elem_of_lookup_2. exact Hin.
Qed.

(** X5: [getPaletteColorV9] returns the index of a palette entry that is as
    close to the colour as any, in the weighted distance of the source,
    and the smallest such index: the start value 10000 of the loop is
    never the minimum. *)
Theorem getPaletteColorV9_nearest (rgb : Z) :
  0 <= V9.getPaletteColorV9 rgb <= 124
  /\ (forall j, 0 <= j <= 124 ->
                V9.distance rgb (V9.getPaletteColorV9 rgb) <= V9.distance rgb j)
  /\ (forall j, 0 <= j < V9.getPaletteColorV9 rgb ->
                V9.distance rgb (V9.getPaletteColorV9 rgb) < V9.distance rgb j).
Proof.
  assert (Hscan : exists before after,
             V9.candidates
             = before ++ fst (scan (V9.distance rgb) V9.candidates (0, 10000)) :: after
             /\ (forall j, j ∈ before ->
                   V9.distance rgb (fst (scan (V9.distance rgb) V9.candidates (0, 10000)))
                   < V9.distance rgb j)
             /\ (forall j, j ∈ after ->
                   V9.distance rgb (fst (scan (V9.distance rgb) V9.candidates (0, 10000)))
                   <= V9.distance rgb j)).
  { destruct (scan_first_minimum (V9.distance rgb) V9.candidates (0, 10000))
      as [[_ Hall] | (before & after & Hsplit & Hd & _ & Hb & Ha)].
    - destruct (V9_near_entry rgb) as (j & Hj & Hnear).
      specialize (Hall j Hj). cbn [snd] in Hall. lia.
    - exists before, after. rewrite <- Hd. auto. }
  destruct Hscan as (before & after & Hsplit & Hb & Ha).
  assert (Hgeneral :
            let i := fst (scan (V9.distance rgb) V9.candidates (0, 10000)) in
            0 <= i <= 124
            /\ (forall j, 0 <= j <= 124 -> V9.distance rgb i <= V9.distance rgb j)
            /\ (forall j, 0 <= j < i -> V9.distance rgb i < V9.distance rgb j)).
  { cbv zeta. split; [| split].
    - apply V9_candidates_range. rewrite Hsplit at 2.
      apply elem_of_app. right. left.
    - intros j Hj. apply V9_candidates_range in Hj. rewrite Hsplit in Hj.
      apply elem_of_app in Hj as [Hj | Hj]; [specialize (Hb j Hj); lia |].
      apply elem_of_cons in Hj as [-> | Hj]; [lia | now apply Ha].
    - intros j Hj. apply Hb. eapply V9_candidates_before; eassumption. }
  unfold V9.getPaletteColorV9.
  destruct (Z.eqb_spec rgb (Qt.qRgb 255 255 255)) as [-> | _]; [| exact Hgeneral].
  cbv zeta in Hgeneral.
  replace (fst (scan (V9.distance (Qt.qRgb 255 255 255)) V9.candidates (0, 10000)))
    with 124 in Hgeneral by (vm_compute; reflexivity).
  exact Hgeneral.
Qed.

(** X6: For a colour that is not white and has a hue and a saturation of at
    least 32, [getPaletteColorV6] returns one of the twelve true colours
    of the palette: the first in the order of the loop among those of
    least distance, in the weighted HSV distance of the source with its
    manual multipliers.  The start value 2100000 of the loop is never the
    minimum, dark green being closer than that to every colour. *)
Theorem getPaletteColorV6_nearest (toHsv : Z -> Qt.Hsv) (rgb : Z) :
  rgb <> Qt.qRgb 255 255 255 ->
  0 <= Qt.hue (toHsv rgb) < 360 ->
  32 <= Qt.saturation (toHsv rgb) <= 255 ->
  0 <= Qt.value (toHsv rgb) <= 255 ->
  exists before after,
    V6.candidates = before ++ V6.getPaletteColorV6 toHsv rgb :: after
    /\ (forall j, j ∈ before ->
          V6.distance (toHsv rgb) (V6.getPaletteColorV6 toHsv rgb)
          < V6.distance (toHsv rgb) j)
    /\ (forall j, j ∈ after ->
          V6.distance (toHsv rgb) (V6.getPaletteColorV6 toHsv rgb)
          <= V6.distance (toHsv rgb) j).
Proof.
  intros Hwhite Hhue Hsat Hvalue. unfold V6.getPaletteColorV6.
  rewrite (proj2 (Z.eqb_neq _ _) Hwhite).
  rewrite (proj2 (Z.eqb_neq _ _)) by lia.
  rewrite (proj2 (Z.ltb_ge _ _)) by lia. cbn [orb].
  destruct (scan_first_minimum (V6.distance (toHsv rgb)) V6.candidates (0, 2100000))
    as [[_ Hall] | (before & after & Hsplit & Hd & _ & Hb & Ha)].
  - exfalso. specialize (Hall 2 ltac:(right; left)).
    cbn [snd] in Hall.
    change (V6.distance (toHsv rgb) 2)
      with ((10 * sq (Z.min (Z.abs (Qt.hue (toHsv rgb) - 120))
                        (360 - Z.abs (Qt.hue (toHsv rgb) - 120)))
             + sq (Qt.saturation (toHsv rgb) - 255)
             + sq (Qt.value (toHsv rgb) - 128)) * 2) in Hall.
    unfold sq in Hall.
    destruct (Z.min_spec (Z.abs (Qt.hue (toHsv rgb) - 120))
                (360 - Z.abs (Qt.hue (toHsv rgb) - 120))) as [[_ Hm] | [_ Hm]];
      rewrite Hm in Hall; nia.
  - exists before, after. rewrite <- Hd. auto.
Qed.

Lemma getPaletteColorV6_nearest_witness :
  exists before after,
    V6.candidates = before ++ V6.getPaletteColorV6 Qt.hsv_of_rgb (Qt.qRgb 200 30 30) :: after
    /\ (forall j, j ∈ before ->
          V6.distance (Qt.hsv_of_rgb (Qt.qRgb 200 30 30))
            (V6.getPaletteColorV6 Qt.hsv_of_rgb (Qt.qRgb 200 30 30))
          < V6.distance (Qt.hsv_of_rgb (Qt.qRgb 200 30 30)) j)
    /\ (forall j, j ∈ after ->
          V6.distance (Qt.hsv_of_rgb (Qt.qRgb 200 30 30))
            (V6.getPaletteColorV6 Qt.hsv_of_rgb (Qt.qRgb 200 30 30))
          <= V6.distance (Qt.hsv_of_rgb (Qt.qRgb 200 30 30)) j).
Proof.
  apply (getPaletteColorV6_nearest Qt.hsv_of_rgb (Qt.qRgb 200 30 30)).
  - vm_compute. discriminate.
  - vm_compute. split; [discriminate | reflexivity].
  - vm_compute. split; discriminate.
  - vm_compute. split; discriminate.
Defined.

(** ** The roles of the parts of a combined line symbol *)

(** The optional third line as a list. *)
Definition optionalLine (line : option LineSymbol) : list LineSymbol :=
  match line with
  | Some l => [l]
  | None => []
  end.

(** What [exportLineWithFraming] does once the roles are assigned. *)
Definition exportArrangedLines (C : Context) (combined_symbol : CombinedSymbol)
    (main_line framing : LineSymbol) (double_line : option LineSymbol) : Export unit :=
  duplicate ← make_duplicate combined_symbol (SymLine main_line);
  match duplicate with
  | SymLine line_symbol =>
      if bool_decide (is_Some double_line) && hasBorder (LineSym.attributes line_symbol)
      then unhandled combined_symbol
      else
        ocd_symbol ← exportCombinedLineSymbol C line_symbol framing double_line;
        insertSymbol ocd_symbol ;;
        adoptNumber combined_symbol duplicate
  | _ => unreachable
  end.

(** X7: For two or three line parts, [exportCombinedSymbol] either gives up
    with the warning, or goes on with a main line, a framing and a double
    line that are the parts in some order; then the framing is a possible
    framing, there is a double line exactly when there are three parts,
    and the double line is a possible double-line filling: the two
    assertions of the source hold. *)
Theorem combined_line_roles (C : Context) (combined_symbol : CombinedSymbol)
    (line0 line1 : LineSymbol) (line2 : option LineSymbol) :
  exportLineWithFraming C combined_symbol line0 line1 line2 = unhandled combined_symbol
  \/ exists main_line framing double_line,
       exportLineWithFraming C combined_symbol line0 line1 line2
       = exportArrangedLines C combined_symbol main_line framing double_line
       /\ main_line :: framing :: optionalLine double_line
          ≡ₚ line0 :: line1 :: optionalLine line2
       /\ maybe_framing framing = true
       /\ (is_Some double_line <-> is_Some line2)
       /\ (forall d, double_line = Some d -> maybe_double_filling d = true).
Proof.
  unfold exportLineWithFraming, arrangeDoubleLine, arrangeFraming.
  assert (Hnone : forall l : LineSymbol, @None LineSymbol = Some l -> maybe_double_filling l = true)
    by (intros l H; discriminate H).
  assert (Hsome : forall a l : LineSymbol,
             maybe_double_filling a = true -> Some a = Some l -> maybe_double_filling l = true)
    by (intros a l Ha [= <-]; exact Ha).
  assert (Hiff_none : is_Some (@None LineSymbol) <-> is_Some (@None LineSymbol)) by tauto.
  assert (Hiff_some : forall a b : LineSymbol, is_Some (Some a) <-> is_Some (Some b))
    by (intros a b; split; eauto).
  destruct line2 as [l2 |]; cbn [optionalLine].
  - destruct (maybe_double_filling l2) eqn:D2;
      [| destruct (maybe_double_filling line0) eqn:D0;
         [| destruct (maybe_double_filling line1) eqn:D1; [| now left]]].
    + destruct (maybe_framing line1) eqn:F1; cbn [negb].
      * rewrite F1. right. exists line0, line1, (Some l2).
        split; [reflexivity |]. split; [reflexivity |]. split; [exact F1 |].
        split; [apply Hiff_some | intros d; apply Hsome; assumption].
      * destruct (maybe_framing line0) eqn:F0; [| now left].
        right. exists line1, line0, (Some l2).
        split; [reflexivity |]. split; [apply perm_swap |]. split; [exact F0 |].
        split; [apply Hiff_some | intros d; apply Hsome; assumption].
    + destruct (maybe_framing line1) eqn:F1; cbn [negb].
      * rewrite F1. right. exists l2, line1, (Some line0).
        split; [reflexivity |]. split; [| split; [exact F1 |
          split; [apply Hiff_some | intros d; apply Hsome; assumption]]].
        cbn [optionalLine].
        change (?a :: ?b :: [?c]) with ([a] ++ [b] ++ [c]). solve_Permutation.
      * destruct (maybe_framing l2) eqn:F2; [| now left].
        right. exists line1, l2, (Some line0).
        split; [reflexivity |]. split; [| split; [exact F2 |
          split; [apply Hiff_some | intros d; apply Hsome; assumption]]].
        cbn [optionalLine]. solve_Permutation.
    + destruct (maybe_framing l2) eqn:F2; cbn [negb].
      * rewrite F2. right. exists line0, l2, (Some line1).
        split; [reflexivity |]. split; [| split; [exact F2 |
          split; [apply Hiff_some | intros d; apply Hsome; assumption]]].
        cbn [optionalLine]. solve_Permutation.
      * destruct (maybe_framing line0) eqn:F0; [| now left].
        right. exists l2, line0, (Some line1).
        split; [reflexivity |]. split; [| split; [exact F0 |
          split; [apply Hiff_some | intros d; apply Hsome; assumption]]].
        cbn [optionalLine]. solve_Permutation.
  - destruct (maybe_framing line1) eqn:F1; cbn [negb].
    + rewrite F1. right. exists line0, line1, None.
      split; [reflexivity |]. split; [reflexivity |]. split; [exact F1 |].
      split; [exact Hiff_none | exact Hnone].
    + destruct (maybe_framing line0) eqn:F0; [| now left].
      right. exists line1, line0, None.
      split; [reflexivity |]. split; [apply perm_swap |]. split; [exact F0 |].
      split; [exact Hiff_none | exact Hnone].
Qed.

(** ** The output stream is written at the end, or not at all *)

(** The steps before the last one: nothing is written, and warnings are
    only appended. *)
Record unwritten (st st' : Exporter) : Prop := mkUnwritten {
  unwritten_stream : stream st' = stream st;
  unwritten_warnings : warnings st `prefix_of` warnings st' }.

#[global] Instance unwritten_preorder : PreOrder unwritten.
Proof.
  split.
  - intros st. now split.
  - intros st1 st2 st3 [] []. split; [congruence | etransitivity; eassumption].
Qed.

Lemma preserves_weaken (R R' : Exporter -> Exporter -> Prop) {A : Type} (m : Export A) :
  (forall st st', R st st' -> R' st st') -> preserves R m -> preserves R' m.
Proof. intros Himpl Hm st. apply Himpl, Hm. Qed.

Lemma unwritten_of_frame (st st' : Exporter) : frame st st' -> unwritten st st'.
Proof. intros []. now split. Qed.

Lemma unwritten_addWarning (w : string) : preserves unwritten (addWarning w).
Proof. apply preserves_modify. intros st. split; [reflexivity | now apply prefix_app_r]. Qed.

Lemma unwritten_addWarnings (ws : list string) : preserves unwritten (addWarnings ws).
Proof. apply preserves_modify. intros st. split; [reflexivity | now apply prefix_app_r]. Qed.

Lemma unwritten_modifyFile (f : OcdFile -> OcdFile) : preserves unwritten (modifyFile f).
Proof. apply preserves_modify. intros st. now split. Qed.

Lemma unwritten_addParameterString (C : Context) (string_type : Z) (s : string) :
  preserves unwritten (addParameterString C string_type s).
Proof.
  unfold addParameterString.
  apply preserves_bind; [typeclasses eauto | apply preserves_getState; typeclasses eauto |].
  intros st. apply unwritten_modifyFile.
Qed.

Lemma unwritten_addColorStrings (C : Context) (table : list MapColor) (ocd_number : Z) :
  preserves unwritten (addColorStrings C table ocd_number).
Proof.
  revert ocd_number. induction table as [| color table IH]; intros ocd_number.
  - apply preserves_ret. typeclasses eauto.
  - cbn [addColorStrings].
    apply preserves_bind; [typeclasses eauto | apply unwritten_addParameterString |].
    intros _. apply IH.
Qed.

(** One step of a proof that a member function writes nothing. *)
Ltac unwritten_step :=
  first
    [ apply preserves_bind; [typeclasses eauto | | intros ?]
    | apply preserves_ret; typeclasses eauto
    | apply preserves_getState; typeclasses eauto
    | apply preserves_throw; typeclasses eauto
    | apply preserves_liftOption; typeclasses eauto
    | apply unwritten_addWarning
    | apply unwritten_addWarnings
    | apply unwritten_modifyFile
    | apply unwritten_addParameterString
    | apply unwritten_addColorStrings
    | apply preserves_modify; [intros ?; split; reflexivity]
    | match goal with
      | |- preserves _ (if ?b then _ else _) => destruct b
      | |- preserves _ (match ?x with _ => _ end) => destruct x
      end ].

Lemma unwritten_exportSetup (C : Context) : preserves unwritten (exportSetup C).
Proof.
  unfold exportSetup, exportSetupV8, exportSetupGeneric.
  repeat (cbv zeta; unwritten_step).
Qed.

Lemma unwritten_determineEncoding (C : Context) : preserves unwritten (determineEncoding C).
Proof. unfold determineEncoding. repeat unwritten_step. Qed.

(** The outcome of a run that writes the file as its last step. *)
Definition writesAtEnd (F : Format) {A : Type} (m : Export A) : Prop :=
  forall st o st',
    m st = (o, st') ->
    warnings st `prefix_of` warnings st'
    /\ stream st'
       = match o with
         | Return _ => stream st ++ constByteArray F (file st')
         | _ => stream st
         end.

Lemma writesAtEnd_bind (F : Format) {A B : Type} (m : Export A) (k : A -> Export B) :
  preserves unwritten m -> (forall a, writesAtEnd F (k a)) -> writesAtEnd F (m ≫= k).
Proof.
  intros Hm Hk st o st'. unfold mbind, Export_bind.
  specialize (Hm st). destruct (m st) as [[a | e | |] st1]; cbn [snd] in Hm;
    destruct Hm as [Hs Hw]; try (intros [= <- <-]; now split).
  intros Hrun. destruct (Hk a st1 o st' Hrun) as [Hw' Hs'].
  split; [etransitivity; eassumption |]. now rewrite Hs', Hs.
Qed.

Lemma writesAtEnd_write (F : Format) :
  writesAtEnd F (st ← getState; modify (set_stream (stream st ++ constByteArray F (file st)))).
Proof. intros st o st' [= <- <-]. now split. Qed.

Lemma exportImplementation_writesAtEnd (C : Context) (actual_version : Z) :
  writesAtEnd (ctx_format C) (exportImplementation C actual_version).
Proof.
  unfold exportImplementation.
  do 11 (apply writesAtEnd_bind;
         [ first
             [ apply unwritten_addWarning
             | apply unwritten_addWarnings
             | apply unwritten_determineEncoding
             | apply unwritten_exportSetup
             | apply (preserves_weaken frame);
               [apply unwritten_of_frame | apply frame_exportSymbols]
             | apply (preserves_weaken frame);
               [apply unwritten_of_frame | apply frame_exportObjects]
             | apply preserves_modify; intros ?; split; reflexivity ]
         | intros ? ]).
  apply writesAtEnd_write.
Qed.

(** The formats that [doExport] instantiates [exportImplementation] with. *)
Definition formatOf (Fs : Formats) (version : Z) : option Format :=
  if version =? 8 then Some (FormatV8 Fs)
  else if (version =? 9) || (version =? 10) then Some (FormatV9 Fs)
  else if version =? 11 then Some (FormatV11 Fs)
  else if version =? 12 then Some (FormatV12 Fs)
  else None.

(** X8: A version other than 0, 8, 9, 10, 11 and 12 ends [doExport] with the
    exception that names the version; the exporter is left as it was: no
    warning, no output. *)
Theorem unsupported_version_throws (Fs : Formats) (E : Environment) (m : Map)
    (default_version : Z) (file_name : option string) (st : Exporter) :
  selectVersion default_version file_name <> 0 ->
  formatOf Fs (selectVersion default_version file_name) = None ->
  doExport Fs E m default_version file_name st
  = (Throw (version_not_supported (selectVersion default_version file_name)), st).
Proof.
  intros Hlegacy Hformat. unfold doExport, formatOf in *.
  destruct (Z.eqb_spec (selectVersion default_version file_name) 0) as [? | _]; [lia |].
  repeat match goal with
         | |- context [if ?v =? ?n then _ else _] =>
             destruct (v =? n); try discriminate Hformat
         end.
  reflexivity.
Qed.

Lemma unsupported_version_throws_witness :
  doExport example_formats example_environment example_crowded_map 7 None
    (newExporter [] 100)
  = (Throw "Could not write file: OCD files of version 7 are not supported!",
     newExporter [] 100).
Proof.
  apply (unsupported_version_throws example_formats example_environment
           example_crowded_map 7 None (newExporter [] 100)).
  - vm_compute. discriminate.
  - reflexivity.
Defined.

(** X9: For the versions 8 to 12, [doExport] writes the file with its last
    step: when it returns, the stream has grown by the bytes of the file
    it built, and when it ends in any other way (an exception of the
    setup, an unreachable case of the symbol or object encoder) the
    stream is untouched.  Warnings are only appended. *)
Theorem doExport_writes_at_end (Fs : Formats) (E : Environment) (m : Map)
    (default_version : Z) (file_name : option string) (st st' : Exporter)
    (o : Outcome unit) (F : Format) :
  formatOf Fs (selectVersion default_version file_name) = Some F ->
  doExport Fs E m default_version file_name st = (o, st') ->
  warnings st `prefix_of` warnings st'
  /\ stream st'
     = match o with
       | Return _ => stream st ++ constByteArray F (file st')
       | _ => stream st
       end.
Proof.
  unfold doExport, formatOf. intros Hformat Hrun.
  destruct (Z.eqb_spec (selectVersion default_version file_name) 8) as [-> | _].
  { injection Hformat as <-. cbn [Z.eqb Pos.eqb] in Hrun.
    exact (exportImplementation_writesAtEnd _ _ _ _ _ Hrun). }
  destruct (Z.eqb_spec (selectVersion default_version file_name) 9) as [-> | _].
  { injection Hformat as <-. cbn [Z.eqb Pos.eqb] in Hrun.
    exact (exportImplementation_writesAtEnd _ _ _ _ _ Hrun). }
  destruct (Z.eqb_spec (selectVersion default_version file_name) 10) as [-> | _].
  { injection Hformat as <-. cbn [Z.eqb Pos.eqb] in Hrun.
    exact (exportImplementation_writesAtEnd _ _ _ _ _ Hrun). }
  destruct (Z.eqb_spec (selectVersion default_version file_name) 11) as [-> | _].
  { injection Hformat as <-. cbn [Z.eqb Pos.eqb] in Hrun.
    exact (exportImplementation_writesAtEnd _ _ _ _ _ Hrun). }
  destruct (Z.eqb_spec (selectVersion default_version file_name) 12) as [-> | _].
  { injection Hformat as <-. cbn [Z.eqb Pos.eqb] in Hrun.
    exact (exportImplementation_writesAtEnd _ _ _ _ _ Hrun). }
  discriminate Hformat.
Qed.

(** The small road map, exported with version 9. *)
Definition example_road_run : Outcome unit * Exporter :=
  doExport example_formats example_environment example_road_map 9 None (newExporter [] 100).

Lemma doExport_writes_at_end_witness :
  fst example_road_run = Return tt
  /\ stream (snd example_road_run)
     = stream (newExporter [] 100)
       ++ constByteArray (example_format 9) (file (snd example_road_run)).
Proof.
  assert (Hreturns : fst example_road_run = Return tt) by (vm_compute; reflexivity).
  split; [exact Hreturns |].
  destruct (doExport_writes_at_end example_formats example_environment example_road_map
              9 None (newExporter [] 100) (snd example_road_run)
              (fst example_road_run) (example_format 9)) as [_ Hstream].
  - reflexivity.
  - unfold example_road_run.
    now destruct (doExport example_formats example_environment example_road_map 9 None
                    (newExporter [] 100)).
  - rewrite Hreturns in Hstream. exact Hstream.
Defined.

(** ** The colour numbers of the setup are those of [convertColor] *)

Lemma convertColor_at (m : Map) (uses_registration : bool) (i : nat) (c : MapColor) :
  Z.of_nat (length (colors m)) < 2 ^ 16 ->
  NoDup (map colorAddress (colors m)) ->
  colors m !! i = Some c ->
  convertColor m uses_registration (Some (colorAddress c))
  = (if uses_registration then 1 else 0) + Z.of_nat i.
Proof.
  intros Hsize Hnodup Hi. unfold convertColor, findColorIndex.
  rewrite (findColorIndex_from_present 0 _ i c Hnodup Hi).
  apply lookup_lt_Some in Hi.
  destruct (Z.leb_spec 0 (0 + Z.of_nat i)); [| lia].
  destruct uses_registration; rewrite IntFacts.quint16_small; lia.
Qed.

(** Numbering the colours from [start] is numbering them as
    [convertColor] does. *)
Lemma numbered_as_converted {A : Type} (m : Map) (uses_registration : bool)
    (entry : Z -> MapColor -> A) :
  Z.of_nat (length (colors m)) < 2 ^ 16 ->
  NoDup (map colorAddress (colors m)) ->
  imap (fun i c => entry ((if uses_registration then 1 else 0) + Z.of_nat i) c) (colors m)
  = map (fun c => entry (convertColor m uses_registration (Some (colorAddress c))) c)
      (colors m).
Proof.
  intros Hsize Hnodup. apply list_eq. intros i.
  rewrite list_lookup_imap, list_lookup_fmap.
  destruct (colors m !! i) as [c |] eqn:Hi; [| reflexivity].
  cbn. now rewrite (convertColor_at m uses_registration i c Hsize Hnodup Hi).
Qed.

Lemma addColors_numbers (table : list MapColor) (ocd_number : Z) (f : OcdFile) :
  0 <= ocd_number -> ocd_number + Z.of_nat (length table) < 2 ^ 16 ->
  fst (addColors table ocd_number f) = ocd_number + Z.of_nat (length table)
  /\ color_info (snd (addColors table ocd_number f))
     = color_info f
       ++ imap (fun i c => mkColorInfo (ocd_number + Z.of_nat i) (colorName c)) table.
Proof.
  revert ocd_number f. induction table as [| color table IH]; intros ocd_number f H0 Hmax.
  - cbn. rewrite app_nil_r. split; [lia | reflexivity].
  - cbn [addColors length] in *.
    rewrite IntFacts.quint16_small by lia.
    destruct (IH (ocd_number + 1) (addColor color ocd_number f)) as [-> ->]; [lia | lia |].
    split; [lia |]. cbn [addColor color_info imap]. rewrite <- app_assoc. cbn [app].
    rewrite Z.add_0_r. do 2 f_equal.
    apply imap_ext. intros i c _. cbn. f_equal. lia.
Qed.

Lemma exportNotesV8_color_info (notes : QByteArray) (f : OcdFile) :
  color_info (exportNotesV8 notes f) = color_info f.
Proof.
  unfold exportNotesV8. destruct (bool_decide (notes = [])); [reflexivity |].
  now destruct (32768 <? Z.of_nat (length notes) + 1).
Qed.

(** X10: When the setup of a version 8 file returns, the colour table holds,
    after the entry 0 for the registration colour if a symbol uses it, one
    entry per map colour, in order, under the number that [convertColor]
    gives for that colour; the colour count is their number.  At most 256
    entries are made. *)
Theorem colour_table_V8 (C : Context) (st st' : Exporter) :
  NoDup (map colorAddress (colors (ctx_map C))) ->
  exportSetupV8 C st = (Return tt, st') ->
  color_info (file st')
  = color_info (file st)
    ++ (if uses_registration_color st
        then [mkColorInfo 0 (colorName (registrationColor (ctx_map C)))] else [])
    ++ map (fun c =>
              mkColorInfo
                (convertColor (ctx_map C) (uses_registration_color st)
                   (Some (colorAddress c)))
                (colorName c))
         (colors (ctx_map C))
  /\ symbol_header_num_colors (file st')
     = (if uses_registration_color st then 1 else 0)
       + Z.of_nat (length (colors (ctx_map C)))
  /\ symbol_header_num_colors (file st') <= 256.
Proof.
  intros Hnodup. unfold exportSetupV8.
  unfold mbind, Export_bind, addWarning, modifyFile, modify, getState, mret, Export_ret,
    liftOption, throw, unreachable.
  destruct (custom_8bit_encoding st) as [encoding |]; [| discriminate].
  cbn [fst snd uses_registration_color set_file].
  destruct (Z.ltb_spec (if uses_registration_color st then 255 else 256)
              (Z.of_nat (length (colors (ctx_map C))))) as [Hmany | Hfew];
    [discriminate |].
  assert (Hsize : Z.of_nat (length (colors (ctx_map C))) < 2 ^ 16)
    by (destruct (uses_registration_color st); lia).
  rewrite <- (numbered_as_converted (ctx_map C) (uses_registration_color st)
                (fun n c => mkColorInfo n (colorName c)) Hsize Hnodup).
  destruct (uses_registration_color st); cbn;
    intros [= <-]; cbn;
    match goal with
    | |- context [addColors ?t ?n ?f] =>
        destruct (addColors_numbers t n f ltac:(lia) ltac:(lia)) as [Hn Hc];
        destruct (addColors t n f) as [ocd_number f']
    end;
    cbn [fst snd] in Hn, Hc; cbn; rewrite Hn, Hc; cbn;
    rewrite exportNotesV8_color_info; cbn.
  - rewrite <- app_assoc. repeat split; lia.
  - repeat split; lia.
Qed.

(** The exporter with a custom encoding, before the setup. *)
Definition example_setup_start : Exporter :=
  set_custom_8bit_encoding (Some (codecForLocale example_environment))
    (set_uses_registration_color true (newExporter [] 100)).

Lemma colour_table_V8_witness :
  color_info (file (snd (exportSetupV8 (example_context 8 (example_map [] []))
                           example_setup_start)))
  = [mkColorInfo 0 "Registration black"; mkColorInfo 1 "Black"; mkColorInfo 2 "Brown"].
Proof.
  destruct (colour_table_V8 (example_context 8 (example_map [] [])) example_setup_start
              (snd (exportSetupV8 (example_context 8 (example_map [] []))
                      example_setup_start))) as (Hinfo & _).
  - cbn. repeat (apply NoDup_cons; split; [rewrite ?elem_of_cons, elem_of_nil; lia |]).
    apply NoDup_nil_2.
  - vm_compute. reflexivity.
  - rewrite Hinfo. vm_compute. reflexivity.
Defined.

(** The encoding of the parameter strings: the custom 8-bit encoding of
    the format, or UTF-8. *)
Definition stringEncoding (C : Context) (st : Exporter) : string -> QByteArray :=
  match custom_8bit_encoding st with
  | Some encoding => encoding
  | None => toUtf8 (ctx_env C)
  end.

(** What a function that adds parameter strings and warnings leaves: the
    strings and the warnings added, the encoding and the registration flag
    as before. *)
Definition addsStrings (C : Context) (m : Export unit)
    (strings : Exporter -> list (Z * string)) (ws : list string) : Prop :=
  forall st,
    exists st',
      m st = (Return tt, st')
      /\ file_strings (file st')
         = file_strings (file st)
           ++ map (fun s => (fst s, stringEncoding C st (snd s))) (strings st)
      /\ warnings st' = warnings st ++ ws
      /\ custom_8bit_encoding st' = custom_8bit_encoding st
      /\ uses_registration_color st' = uses_registration_color st.

Lemma addsStrings_ret (C : Context) : addsStrings C (mret tt) (fun _ => []) [].
Proof.
  intros st. exists st. cbn. rewrite !app_nil_r. repeat split.
Qed.

Lemma addsStrings_parameter (C : Context) (string_type : Z) (s : string) :
  addsStrings C (addParameterString C string_type s) (fun _ => [(string_type, s)]) [].
Proof.
  intros st. unfold addParameterString, mbind, Export_bind, getState, modifyFile, modify.
  eexists. split; [reflexivity |]. cbn. rewrite app_nil_r. repeat split.
  unfold stringEncoding. now destruct (custom_8bit_encoding st).
Qed.

Lemma addsStrings_warning (C : Context) (w : string) :
  addsStrings C (addWarning w) (fun _ => []) [w].
Proof.
  intros st. unfold addWarning, modify.
  eexists. split; [reflexivity |]. cbn. rewrite app_nil_r. repeat split.
Qed.

Lemma addsStrings_seq (C : Context) (m k : Export unit)
    (strings1 strings2 : list (Z * string)) (ws1 ws2 : list string) :
  addsStrings C m (fun _ => strings1) ws1 ->
  addsStrings C k (fun _ => strings2) ws2 ->
  addsStrings C (m ;; k) (fun _ => strings1 ++ strings2) (ws1 ++ ws2).
Proof.
  intros Hm Hk st.
  destruct (Hm st) as (st1 & Hrun1 & Hs1 & Hw1 & He1 & Hu1).
  destruct (Hk st1) as (st2 & Hrun2 & Hs2 & Hw2 & He2 & Hu2).
  exists st2. unfold mbind, Export_bind. rewrite Hrun1. split; [exact Hrun2 |].
  unfold stringEncoding in *. rewrite He1 in Hs2.
  rewrite Hs2, Hs1, Hw2, Hw1, He2, He1, Hu2, Hu1, map_app, <- !app_assoc.
  repeat split.
Qed.

Lemma addsStrings_colors (C : Context) (table : list MapColor) (ocd_number : Z) :
  addsStrings C (addColorStrings C table ocd_number)
    (fun _ => imap (fun i c => (9, colorString (ctx_map C) (ocd_number + Z.of_nat i) c)) table)
    [].
Proof.
  revert ocd_number. induction table as [| color table IH]; intros ocd_number.
  - apply addsStrings_ret.
  - cbn [addColorStrings imap].
    pose proof (addsStrings_seq C _ _ _ _ _ _
                  (addsStrings_parameter C 9 (colorString (ctx_map C) ocd_number color))
                  (IH (ocd_number + 1))) as Hseq.
    intros st. destruct (Hseq st) as (st' & Hrun & Hs & Hrest).
    exists st'. split; [exact Hrun |]. split; [| exact Hrest].
    rewrite Hs. cbn [app map fst snd]. rewrite Z.add_0_r. do 3 f_equal.
    apply imap_ext. intros i c _. cbn. do 2 f_equal. lia.
Qed.



(** ** The notes of a version 8 file can be read back *)

Lemma exportNotesV8_short (notes : QByteArray) (f : OcdFile) :
  notes <> [] -> Z.of_nat (length notes) <= 32767 ->
  file_byteArray (exportNotesV8 notes f) = file_byteArray f ++ notes ++ [Byte.x00]
  /\ header_info_pos (exportNotesV8 notes f)
     = Int.quint32 (Z.of_nat (length (file_byteArray f)))
  /\ header_info_size (exportNotesV8 notes f) = Z.of_nat (length notes) + 1.
Proof.
  intros Hnotes Hshort. unfold exportNotesV8.
  rewrite bool_decide_eq_false_2 by exact Hnotes.
  rewrite (proj2 (Z.ltb_ge _ _)) by lia.
  cbn [file_byteArray header_info_pos header_info_size].
  rewrite (IntFacts.quint32_small (Z.of_nat (length notes) + 1)) by lia. repeat split.
Qed.

(** The setup of a version 8 file leaves the byte array and the header
    members of the notes as [exportNotesV8] made them. *)
Lemma exportSetupV8_notes (C : Context) (st st' : Exporter)
    (encoding : string -> QByteArray) :
  custom_8bit_encoding st = Some encoding ->
  exportSetupV8 C st = (Return tt, st') ->
  exists f,
    file_byteArray f = file_byteArray (file st)
    /\ header_info_pos f = header_info_pos (file st)
    /\ header_info_size f = header_info_size (file st)
    /\ file_byteArray (file st')
       = file_byteArray (exportNotesV8 (encoding (getMapNotes (ctx_map C))) f)
    /\ header_info_pos (file st')
       = header_info_pos (exportNotesV8 (encoding (getMapNotes (ctx_map C))) f)
    /\ header_info_size (file st')
       = header_info_size (exportNotesV8 (encoding (getMapNotes (ctx_map C))) f).
Proof.
  intros Hencoding. unfold exportSetupV8.
  unfold mbind, Export_bind, addWarning, modifyFile, modify, getState, mret, Export_ret,
    liftOption, throw, unreachable.
  rewrite Hencoding. cbn [fst snd uses_registration_color set_file].
  destruct (_ <? _); [discriminate |].
  eexists (set_setup_center _ (file st)).
  split; [reflexivity |]. split; [reflexivity |]. split; [reflexivity |].
  revert H. destruct (uses_registration_color st); cbn;
    intros [= <-]; cbn;
    match goal with
    | |- context [addColors ?t ?n ?f] =>
        destruct (addColors_byteArray t n f) as (Hb & Hp & Hz);
        destruct (addColors t n f) as [ocd_number f']
    end;
    cbn [snd] in Hb, Hp, Hz; cbn; rewrite Hb, Hp, Hz; cbn; repeat split.
Qed.

(** X12: When the setup of a version 8 file returns and the encoded notes are
    not empty and at most 32767 bytes long, the header's position and size
    of the notes select the notes and their terminating zero from the
    byte array; empty notes leave the byte array and both header members
    as they were. *)
Theorem notes_V8_read_back (C : Context) (st st' : Exporter)
    (encoding : string -> QByteArray) :
  custom_8bit_encoding st = Some encoding ->
  exportSetupV8 C st = (Return tt, st') ->
  Z.of_nat (length (file_byteArray (file st))) < 2 ^ 32 ->
  let notes := encoding (getMapNotes (ctx_map C)) in
  (notes = [] ->
   file_byteArray (file st') = file_byteArray (file st)
   /\ header_info_pos (file st') = header_info_pos (file st)
   /\ header_info_size (file st') = header_info_size (file st))
  /\ (notes <> [] -> Z.of_nat (length notes) <= 32767 ->
      file_byteArray (file st') = file_byteArray (file st) ++ notes ++ [Byte.x00]
      /\ take (Z.to_nat (header_info_size (file st')))
           (drop (Z.to_nat (header_info_pos (file st'))) (file_byteArray (file st')))
         = notes ++ [Byte.x00]).
Proof.
  intros Hencoding Hrun Hsize notes.
  destruct (exportSetupV8_notes C st st' encoding Hencoding Hrun)
    as (f & Hb & Hp & Hz & -> & -> & ->).
  fold notes. split.
  - intros Hempty. unfold exportNotesV8. rewrite Hempty.
    rewrite bool_decide_eq_true_2 by reflexivity. auto.
  - intros Hnotes Hshort.
    destruct (exportNotesV8_short notes f Hnotes Hshort) as (-> & -> & ->).
    rewrite Hb. split; [reflexivity |].
    rewrite IntFacts.quint32_small by lia. rewrite Nat2Z.id.
    rewrite drop_app_length.
    apply take_ge. rewrite length_app. cbn [length]. lia.
Qed.

Lemma notes_V8_read_back_witness :
  file_byteArray (file (snd (exportSetupV8 (example_context 8 (example_map [] []))
                               example_setup_start)))
  = map Ascii.byte_of_ascii (String.list_ascii_of_string "notes") ++ [Byte.x00].
Proof.
  destruct (notes_V8_read_back (example_context 8 (example_map [] [])) example_setup_start
              (snd (exportSetupV8 (example_context 8 (example_map [] []))
                      example_setup_start))
              (codecForLocale example_environment)) as [_ Hnotes].
  - reflexivity.
  - vm_compute. reflexivity.
  - cbn. lia.
  - destruct Hnotes as [Hbytes _].
    + vm_compute. discriminate.
    + vm_compute. discriminate.
    + rewrite Hbytes. reflexivity.
Defined.

(** ** The number that the uniqueness loop settles on *)

(** X13: From any table, [setupBaseSymbol] returns after at most as many
    increments as the table has entries, with the least number, from the
    requested one upwards (1 for a request of 0.0), that no entry of the
    table holds; the symbol's entry is set to it and the others stay. *)
Theorem setupBaseSymbol_least_free (C : Context) (symbol : Symbol) (st : Exporter) :
  let F := ctx_format C in
  let requested := Z.max 1 (requestedNumber F (symbolBase symbol)) in
  number_min F <= 1 /\ number_max F < 2 ^ 32 ->
  0 < symbol_number_factor F ->
  0 <= numberComponent0 (symbolBase symbol) ->
  requested + Z.of_nat (size (symbol_numbers st)) <= number_max F ->
  exists base,
    setupBaseSymbol C symbol st
    = (Return base,
       set_symbol_numbers
         (<[address (symbolBase symbol) := base_number base]> (symbol_numbers st)) st)
    /\ requested <= base_number base <= requested + Z.of_nat (size (symbol_numbers st))
    /\ (forall key, symbol_numbers st !! key <> Some (base_number base))
    /\ (forall k, requested <= k < base_number base ->
                  exists key, symbol_numbers st !! key = Some k).
Proof.
  intros F requested Hrange Hfactor Hc0 Hmax.
  destruct (setupBaseSymbol_assigns F Hrange C eq_refl Hfactor symbol st Hc0 Hmax)
    as (base & Hrun & Hbound & Hfree).
  exists base. split; [exact Hrun |]. split; [exact Hbound |]. split; [exact Hfree |].
  pose proof (requestedNumber_nonneg F Hfactor symbol Hc0) as Hreq.
  unfold setupBaseSymbol in Hrun. fold F in Hrun.
  assert (Hstart : number_type F
                     (if requestedNumber F (symbolBase symbol) =? 0 then 1
                      else requestedNumber F (symbolBase symbol))
                   = requested).
  { subst requested. unfold number_type.
    destruct (Z.eqb_spec (requestedNumber F (symbolBase symbol)) 0) as [-> | Hne];
      rewrite wrap_in_range; lia. }
  rewrite Hstart in Hrun.
  destruct (ensureUnique F (S (size (symbol_numbers st))) (symbol_numbers st) requested)
    as [m |] eqn:Hloop; [| discriminate Hrun].
  injection Hrun as Hbase _. rewrite <- Hbase. cbn [base_number].
  apply (ensureUnique_least F (S (size (symbol_numbers st))) (symbol_numbers st)
           requested m Hrange); [subst requested; lia | lia | exact Hloop].
Qed.

Lemma setupBaseSymbol_least_free_witness :
  exists base st',
    setupBaseSymbol (example_context 9 (example_map [] []))
      (SymLine (example_line 3 0 1 "Line"))
      (set_symbol_numbers (<[1%nat := 1]> (<[2%nat := 2]> ∅)) (newExporter [] 100))
    = (Return base, st')
    /\ base_number base = 3.
Proof.
  destruct (setupBaseSymbol_least_free (example_context 9 (example_map [] []))
              (SymLine (example_line 3 0 1 "Line"))
              (set_symbol_numbers (<[1%nat := 1]> (<[2%nat := 2]> ∅)) (newExporter [] 100)))
    as (base & Hrun & Hbound & Hfree & Hleast).
  - cbn. lia.
  - cbn. lia.
  - cbn. lia.
  - vm_compute. discriminate.
  - eexists base, _. split; [exact Hrun |].
    assert (Hn : base_number
                   (match fst (setupBaseSymbol (example_context 9 (example_map [] []))
                                 (SymLine (example_line 3 0 1 "Line"))
                                 (set_symbol_numbers (<[1%nat := 1]> (<[2%nat := 2]> ∅))
                                    (newExporter [] 100))) with
                    | Return b => b
                    | _ => base
                    end) = 3) by (vm_compute; reflexivity).
    rewrite Hrun in Hn. exact Hn.
Defined.

(** ** Area symbols *)

(** The components of the state of the loop over the fill patterns. *)
Definition loopFlags (s : AreaLoopState) : Z := snd (fst (fst s)).
Definition loopSymbol (s : AreaLoopState) : option PointSymbol := snd (fst s).
Definition loopWarnings (s : AreaLoopState) : list string := snd s.

Definition areaWarning (area_name : string) (w : string) : Prop :=
  w = skipping_fill_pattern area_name \/ w = assuming_shifted_rows area_name.

Lemma areaPattern_step_inv (F : Format) (m : Map) (uses : bool) (area_name : string)
    (acc : AreaLoopState) (pattern : FillPatternAttributes * option PointSymbol) :
  let r := areaPattern_step F m uses area_name acc pattern in
  (loopFlags r = loopFlags acc
   \/ loopFlags r = Z.lor (loopFlags acc) 1 /\ pattern_rotatable (fst pattern) = true)
  /\ (loopSymbol r = loopSymbol acc
      \/ pattern_type (fst pattern) = PointPattern /\ loopSymbol r = snd pattern)
  /\ (loopWarnings r = loopWarnings acc
      \/ exists w, areaWarning area_name w /\ loopWarnings r = loopWarnings acc ++ [w]).
Proof.
  destruct acc as [[[common flags] pattern_symbol] ws].
  unfold areaPattern_step, loopFlags, loopSymbol, loopWarnings, areaWarning.
  destruct (pattern_type (fst pattern)); destruct (pattern_rotatable (fst pattern));
    repeat match goal with
           | |- context [if ?b then _ else _] => destruct b
           end;
    cbn [fst snd]; repeat split; eauto 6.
Qed.

Lemma areaPattern_fold_inv (F : Format) (m : Map) (uses : bool) (area_name : string)
    (patterns : list (FillPatternAttributes * option PointSymbol)) (acc : AreaLoopState) :
  let r := fold_left (areaPattern_step F m uses area_name) patterns acc in
  (loopFlags r = loopFlags acc
   \/ loopFlags r = Z.lor (loopFlags acc) 1
      /\ exists pattern, pattern ∈ patterns /\ pattern_rotatable (fst pattern) = true)
  /\ (loopSymbol r = loopSymbol acc
      \/ exists pattern,
           pattern ∈ patterns /\ pattern_type (fst pattern) = PointPattern
           /\ loopSymbol r = snd pattern)
  /\ exists added,
       loopWarnings r = loopWarnings acc ++ added
       /\ (length added <= length patterns)%nat
       /\ Forall (areaWarning area_name) added.
Proof.
  revert acc. induction patterns as [| pattern patterns IH]; intros acc; cbn [fold_left].
  - split; [now left |]. split; [now left |]. exists []. rewrite app_nil_r.
    repeat split; [reflexivity | constructor].
  - destruct (areaPattern_step_inv F m uses area_name acc pattern) as (Hf1 & Hs1 & Hw1).
    destruct (IH (areaPattern_step F m uses area_name acc pattern)) as (Hf2 & Hs2 & Hw2).
    cbv zeta in *. split; [| split].
    + destruct Hf2 as [-> | (-> & p & Hp & Hr)].
      * destruct Hf1 as [-> | [-> Hr]]; [now left |].
        right. split; [reflexivity |]. exists pattern. split; [left | exact Hr].
      * right. split.
        -- destruct Hf1 as [-> | [-> _]]; [reflexivity |].
           now rewrite <- Z.lor_assoc, Z.lor_diag.
        -- exists p. split; [now right | exact Hr].
    + destruct Hs2 as [-> | (p & Hp & Ht & ->)].
      * destruct Hs1 as [-> | [Ht ->]]; [now left |].
        right. exists pattern. split; [left |]. now split.
      * right. exists p. split; [now right |]. now split.
    + destruct Hw2 as (added & -> & Hlen & Hall).
      destruct Hw1 as [-> | (w & Hw & ->)].
      * exists added. split; [reflexivity |]. split; [cbn [length]; lia | exact Hall].
      * exists (w :: added). rewrite <- app_assoc. split; [reflexivity |].
        split; [cbn [length]; lia | now constructor].
Qed.

(** The pattern symbol that [exportAreaSymbolCommon] selects is the point
    symbol of a point pattern of the area symbol. *)
Lemma exportAreaSymbolCommon_pattern_symbol (F : Format) (m : Map) (uses : bool)
    (area_symbol : AreaSymbol) :
  let r := exportAreaSymbolCommon F m uses area_symbol in
  snd (fst r) = None
  \/ exists pattern,
       pattern ∈ AreaSym.patterns area_symbol
       /\ pattern_type (fst pattern) = PointPattern
       /\ snd (fst r) = snd pattern.
Proof.
  unfold exportAreaSymbolCommon.
  destruct (areaPattern_fold_inv F m uses (name (AreaSym.base area_symbol))
              (AreaSym.patterns area_symbol) (mkAreaCommon 0 0 0, 0, None, []))
    as (_ & Hs & _).
  cbv zeta in *.
  destruct (fold_left _ _ _) as [[[common flags] pattern_symbol] ws].
  unfold loopSymbol in *. cbn [fst snd] in *. exact Hs.
Qed.

(** X14: [exportAreaSymbolCommon] returns the flag 1 only for a symbol with a
    rotatable fill pattern, and 0 otherwise; the pattern symbol, if there
    is one, is the point symbol of one of the symbol's point patterns; at
    most one warning is added per fill pattern, each naming the symbol. *)
Theorem area_symbol_common (F : Format) (m : Map) (uses : bool) (area_symbol : AreaSymbol) :
  let r := exportAreaSymbolCommon F m uses area_symbol in
  let patterns := AreaSym.patterns area_symbol in
  (fst (fst r) = 0
   \/ fst (fst r) = 1
      /\ exists pattern, pattern ∈ patterns /\ pattern_rotatable (fst pattern) = true)
  /\ (snd (fst r) = None
      \/ exists pattern,
           pattern ∈ patterns /\ pattern_type (fst pattern) = PointPattern
           /\ snd (fst r) = snd pattern)
  /\ (length (snd r) <= length patterns)%nat
  /\ Forall (areaWarning (name (AreaSym.base area_symbol))) (snd r).
Proof.
  unfold exportAreaSymbolCommon.
  destruct (areaPattern_fold_inv F m uses (name (AreaSym.base area_symbol))
              (AreaSym.patterns area_symbol) (mkAreaCommon 0 0 0, 0, None, []))
    as (Hf & Hs & added & Hw & Hlen & Hall).
  cbv zeta in *.
  destruct (fold_left _ _ _) as [[[common flags] pattern_symbol] ws].
  unfold loopFlags, loopSymbol, loopWarnings in *. cbn [fst snd app] in *. subst ws.
  split; [| split; [exact Hs | split; [exact Hlen | exact Hall]]].
  destruct Hf as [-> | [-> Hr]]; [now left | right; split; [reflexivity | exact Hr]].
Qed.

(** ** The records of area and line symbols have the size their header states *)

(** X15: The record of an area symbol consists of the header and the pattern
    of the pattern symbol that [exportAreaSymbolCommon] selects; its
    length is the sum that the header states, as the source asserts. *)
Theorem area_record_size (C : Context) (area_symbol : AreaSymbol) (st st' : Exporter)
    (ocd_symbol : OcdSymbol) (data : QByteArray) :
  let F := ctx_format C in
  let header := header_size (sizeof_AreaSymbol F) F in
  let pattern_symbol :=
    snd (fst (exportAreaSymbolCommon F (ctx_map C) (uses_registration_color st)
                area_symbol)) in
  let pattern_size := getPatternSize pattern_symbol in
  Z.of_nat (sizeof_Element F) = 2 * sizeof_OcdPoint32 ->
  (sizeof_Element F <= sizeof_AreaSymbol F)%nat ->
  (forall pattern p,
      pattern ∈ AreaSym.patterns area_symbol -> snd pattern = Some p -> drawableElements p) ->
  exportAreaSymbol_record C area_symbol st = (Return (ocd_symbol, data), st') ->
  Z.of_nat (length data) = header + pattern_size
  /\ base_size (ocd_base ocd_symbol) = size_type F (header + pattern_size)
  /\ ocd_data_size ocd_symbol = data_size_type F (pattern_size ÷ 8)
  /\ 8 * (pattern_size ÷ 8) = pattern_size.
Proof.
  intros F header pattern_symbol pattern_size Helement Hheader Hdrawable Hrun.
  unfold exportAreaSymbol_record in Hrun.
  apply bind_Return in Hrun as (base & st1 & Hsetup & Hrun).
  apply bind_Return in Hrun as (st2 & st3 & Hget & Hrun). injection Hget as <- <-.
  assert (Huses : uses_registration_color st1 = uses_registration_color st).
  { apply (frame_registration st st1).
    eapply preserves_run; [apply frame_setupBaseSymbol | exact Hsetup]. }
  rewrite Huses in Hrun. fold F in Hrun.
  pose proof (exportAreaSymbolCommon_pattern_symbol F (ctx_map C)
                (uses_registration_color st) area_symbol) as Hsymbol.
  cbv zeta in Hsymbol. fold pattern_symbol in Hsymbol.
  subst pattern_size. revert Hsymbol Hrun. subst pattern_symbol.
  destruct (exportAreaSymbolCommon F (ctx_map C) (uses_registration_color st) area_symbol)
    as [[flags pattern_symbol] ws].
  cbn [fst snd]. intros Hsymbol Hrun.
  apply bind_Return in Hrun as ([] & st2 & _ & Hrun).
  apply bind_Return in Hrun as ([n after] & st3 & Hpattern & Hrun).
  apply ret_Return in Hrun as [[= <- <-] _]. cbn [snd].
  unfold liftOption in Hpattern.
  destruct (exportPattern_appends (patternContext C st1) Helement pattern_symbol
              (memory
                 (image_Symbol F
                    (mkOcdSymbol
                       (with_layout base 0 flags
                          (size_type F
                             (header_size (sizeof_AreaSymbol F) F
                              + getPatternSize pattern_symbol)))
                       (data_size_type F (getPatternSize pattern_symbol ÷ 8)) false 0 0
                       (SymArea area_symbol) None None))
                 (Z.to_nat (header_size (sizeof_AreaSymbol F) F))))
    as (k & appended & Hexport & Hlength).
  { intros p ->. destruct Hsymbol as [Hnone | (pattern & Hin & _ & Heq)];
      [discriminate Hnone |]. eapply Hdrawable; [exact Hin | now symmetry]. }
  rewrite Hexport in Hpattern. apply ret_Return in Hpattern as [[= <- <-] _].
  cbn [snd ocd_base ocd_data_size with_layout base_size].
  split; [| split; [reflexivity | split; [reflexivity |]]].
  - rewrite length_app, length_memory, Nat2Z.inj_add, Hlength.
    rewrite Z2Nat.id; [reflexivity |]. unfold header_size. lia.
  - apply getPatternSize_multiple_of_8.
Qed.

(** An area symbol with a point pattern of the example point symbol. *)
Definition example_dotted_area : AreaSymbol :=
  mkAreaSymbol (example_base 8 401 0 "Dotted area") (Some 12%nat)
    [(mkFillPattern PointPattern None 0 1000 0 0 1000 false, Some (example_point 9 0 0))].

Lemma area_record_size_witness :
  exists ocd_symbol data st',
    exportAreaSymbol_record (example_context 9 (example_map [] [])) example_dotted_area
      (newExporter [] 100)
    = (Return (ocd_symbol, data), st')
    /\ Z.of_nat (length data) = 64 + 56.
Proof.
  assert (Hrun : exists ocd_symbol data st',
             exportAreaSymbol_record (example_context 9 (example_map [] []))
               example_dotted_area (newExporter [] 100)
             = (Return (ocd_symbol, data), st'))
    by (eexists _, _, _; vm_compute; reflexivity).
  destruct Hrun as (ocd_symbol & data & st' & Hrun).
  exists ocd_symbol, data, st'. split; [exact Hrun |].
  destruct (area_record_size (example_context 9 (example_map [] [])) example_dotted_area
              (newExporter [] 100) st' ocd_symbol data) as (Hlength & _).
  - reflexivity.
  - cbn. lia.
  - intros pattern p Hin Hp. cbn in Hin.
    apply list_elem_of_singleton in Hin as ->. injection Hp as <-.
    apply Forall_cons. split; [right; left; reflexivity | constructor].
  - exact Hrun.
  - exact Hlength.
Defined.

(** The pattern bytes of the four point symbols of a line symbol. *)
Definition linePatternSize (line_symbol : LineSymbol) : Z :=
  getPatternSize (LineSym.getMidSymbol line_symbol)
  + getPatternSize (LineSym.getDashSymbol line_symbol)
  + getPatternSize (LineSym.getStartSymbol line_symbol)
  + getPatternSize (LineSym.getEndSymbol line_symbol).

Lemma getPatternSize_nonneg (point : option PointSymbol) : 0 <= getPatternSize point.
Proof.
  destruct point as [point |]; [| reflexivity]. cbn [getPatternSize].
  assert (Hfold : forall elements count,
             0 <= count -> 0 <= fold_left patternSize_step elements count).
  { induction elements as [| e elements IH]; intros count Hcount; [exact Hcount |].
    cbn [fold_left]. apply IH. unfold patternSize_step.
    destruct (fst e) as [p | | | |];
      try destruct (hasInnerDot p); try destruct (hasOuterCircle p); lia. }
  specialize (Hfold (PointSym.elements point) 0 ltac:(lia)).
  unfold sizeof_OcdPoint32.
  destruct (hasInnerDot point); destruct (hasOuterCircle point); lia.
Qed.

(** When the data sizes fit their members, [exportLineSymbolCommon]
    returns the sum of the four pattern sizes. *)
Lemma lineSymbolCommon_pattern_size_sum (F : Format) (line_symbol : LineSymbol) :
  (forall z, 0 <= z <= linePatternSize line_symbol ÷ 8 -> data_size_type F z = z) ->
  linePatternSize line_symbol < 2 ^ 32 ->
  lineSymbolCommon_pattern_size F line_symbol = linePatternSize line_symbol.
Proof.
  intros Hfits Hsize. unfold lineSymbolCommon_pattern_size, linePatternSize in *.
  pose proof (getPatternSize_nonneg (LineSym.getMidSymbol line_symbol)) as H1.
  pose proof (getPatternSize_nonneg (LineSym.getDashSymbol line_symbol)) as H2.
  pose proof (getPatternSize_nonneg (LineSym.getStartSymbol line_symbol)) as H3.
  pose proof (getPatternSize_nonneg (LineSym.getEndSymbol line_symbol)) as H4.
  pose proof (getPatternSize_multiple_of_8 (LineSym.getMidSymbol line_symbol)) as M1.
  pose proof (getPatternSize_multiple_of_8 (LineSym.getDashSymbol line_symbol)) as M2.
  pose proof (getPatternSize_multiple_of_8 (LineSym.getStartSymbol line_symbol)) as M3.
  pose proof (getPatternSize_multiple_of_8 (LineSym.getEndSymbol line_symbol)) as M4.
  set (a := getPatternSize (LineSym.getMidSymbol line_symbol)) in *.
  set (b := getPatternSize (LineSym.getDashSymbol line_symbol)) in *.
  set (c := getPatternSize (LineSym.getStartSymbol line_symbol)) in *.
  set (d := getPatternSize (LineSym.getEndSymbol line_symbol)) in *.
  assert (Hsum : (a + b + c + d) ÷ 8 = a ÷ 8 + b ÷ 8 + c ÷ 8 + d ÷ 8).
  { rewrite <- M1, <- M2, <- M3, <- M4 at 1.
    replace (8 * (a ÷ 8) + 8 * (b ÷ 8) + 8 * (c ÷ 8) + 8 * (d ÷ 8))
      with ((a ÷ 8 + b ÷ 8 + c ÷ 8 + d ÷ 8) * 8) by lia.
    apply Z.quot_mul. lia. }
  rewrite Hsum in Hfits.
  rewrite !Hfits by lia.
  rewrite IntFacts.quint32_small; lia.
Qed.

(** X16: The record of a line symbol consists of the header and the patterns
    of the mid, dash, start and end symbol; its length is the sum that the
    header states, as the source asserts, provided the four data sizes fit
    their members. *)
Theorem line_record_size (C : Context) (line_symbol : LineSymbol) (st st' : Exporter)
    (ocd_symbol : OcdSymbol) (data : QByteArray) :
  let F := ctx_format C in
  let header := header_size (sizeof_LineSymbol F) F in
  Z.of_nat (sizeof_Element F) = 2 * sizeof_OcdPoint32 ->
  (sizeof_Element F <= sizeof_LineSymbol F)%nat ->
  (forall p,
      p ∈ [LineSym.getMidSymbol line_symbol; LineSym.getDashSymbol line_symbol;
            LineSym.getStartSymbol line_symbol; LineSym.getEndSymbol line_symbol] ->
      forall point, p = Some point -> drawableElements point) ->
  (forall z, 0 <= z <= linePatternSize line_symbol ÷ 8 -> data_size_type F z = z) ->
  linePatternSize line_symbol < 2 ^ 32 ->
  exportLineSymbol_record C line_symbol st = (Return (ocd_symbol, data), st') ->
  Z.of_nat (length data) = header + linePatternSize line_symbol
  /\ base_size (ocd_base ocd_symbol) = size_type F (header + linePatternSize line_symbol).
Proof.
  intros F header Helement Hheader Hdrawable Hfits Hsize Hrun.
  unfold exportLineSymbol_record in Hrun.
  apply bind_Return in Hrun as (base & st1 & Hsetup & Hrun).
  apply bind_Return in Hrun as (st2 & st3 & Hget & Hrun). injection Hget as <- <-.
  apply bind_Return in Hrun as ([] & st2 & _ & Hrun).
  apply bind_Return in Hrun as (after & st3 & Hpatterns & Hrun).
  apply ret_Return in Hrun as [[= <- <-] _].
  fold F in Hpatterns |- *.
  rewrite (lineSymbolCommon_pattern_size_sum F line_symbol Hfits Hsize) in Hpatterns |- *.
  cbn [ocd_base with_layout base_size]. split; [| reflexivity].
  unfold liftOption, exportLinePatterns in Hpatterns.
  set (P := patternContext C st1) in *.
  match type of Hpatterns with
  | context [exportPattern P _ (memory ?image ?n)] => set (start := memory image n) in *
  end.
  destruct (exportPattern_appends P Helement (LineSym.getMidSymbol line_symbol) start)
    as (n1 & a1 & E1 & L1); [apply Hdrawable; set_solver |].
  rewrite E1 in Hpatterns. cbn in Hpatterns.
  destruct (exportPattern_appends P Helement (LineSym.getDashSymbol line_symbol)
              (start ++ a1)) as (n2 & a2 & E2 & L2); [apply Hdrawable; set_solver |].
  rewrite E2 in Hpatterns. cbn in Hpatterns.
  destruct (exportPattern_appends P Helement (LineSym.getStartSymbol line_symbol)
              ((start ++ a1) ++ a2)) as (n3 & a3 & E3 & L3);
    [apply Hdrawable; set_solver |].
  rewrite E3 in Hpatterns. cbn in Hpatterns.
  destruct (exportPattern_appends P Helement (LineSym.getEndSymbol line_symbol)
              (((start ++ a1) ++ a2) ++ a3)) as (n4 & a4 & E4 & L4);
    [apply Hdrawable; set_solver |].
  rewrite E4 in Hpatterns. cbn in Hpatterns.
  apply ret_Return in Hpatterns as [<- _].
  rewrite !length_app. subst start. rewrite length_memory.
  unfold linePatternSize, header, header_size in *. lia.
Qed.

(** A line symbol with the example point symbol at its start. *)
Definition example_arrow : LineSymbol :=
  mkLineSymbol (example_base 10 501 0 "Arrow") example_line_attributes
    (Some (example_point 11 0 0)) None None None.

Lemma line_record_size_witness :
  exists ocd_symbol data st',
    exportLineSymbol_record (example_context 9 (example_map [] [])) example_arrow
      (newExporter [] 100)
    = (Return (ocd_symbol, data), st')
    /\ Z.of_nat (length data) = 80 + 56.
Proof.
  assert (Hrun : exists ocd_symbol data st',
             exportLineSymbol_record (example_context 9 (example_map [] []))
               example_arrow (newExporter [] 100)
             = (Return (ocd_symbol, data), st'))
    by (eexists _, _, _; vm_compute; reflexivity).
  destruct Hrun as (ocd_symbol & data & st' & Hrun).
  exists ocd_symbol, data, st'. split; [exact Hrun |].
  destruct (line_record_size (example_context 9 (example_map [] [])) example_arrow
              (newExporter [] 100) st' ocd_symbol data) as (Hlength & _).
  - reflexivity.
  - cbn. lia.
  - intros p Hin point ->.
    assert (Hpoint : point = example_point 11 0 0).
    { cbn in Hin. rewrite !elem_of_cons, elem_of_nil in Hin.
      destruct Hin as [H | [H | [H | [H | []]]]]; try discriminate H.
      now injection H as ->. }
    subst point. apply Forall_cons. split; [right; left; reflexivity | constructor].
  - intros z Hz. assert (Hquot : linePatternSize example_arrow ÷ 8 = 7) by reflexivity.
    rewrite Hquot in Hz. cbn. apply IntFacts.quint16_small. lia.
  - vm_compute. reflexivity.
  - exact Hrun.
  - exact Hlength.
Defined.

(** ** The records of point and path objects *)

(** Formats whose padding fills a record up to the next multiple of 8. *)
Definition padsToEight (F : Format) : Prop :=
  forall data,
    (length data <= length (addPadding F data) < length data + 8)%nat
    /\ Z.of_nat (length (addPadding F data)) mod 8 = 0.

Lemma handleObjectExtras_keeps (F : Format) (ocd_object : OcdObject) (entry : IndexEntry) :
  object_type (fst (handleObjectExtras F ocd_object entry)) = object_type ocd_object
  /\ object_num_items (fst (handleObjectExtras F ocd_object entry))
     = object_num_items ocd_object.
Proof.
  unfold handleObjectExtras.
  destruct (has_object_index_extras F); [now split |].
  now destruct (_ || _).
Qed.

(** The record of a point or path object before padding: the header and
    eight bytes per coordinate, as the source asserts. *)
Lemma exportObjectCommon_coordinates (C : Context) (object : Object)
    (ocd_object : OcdObject) (entry : IndexEntry) (st : Exporter) :
  let F := ctx_format C in
  let coords := getRawCoordinateVector object in
  object_type ocd_object <> 4 -> object_type ocd_object <> 5 ->
  0 <= object_header_size F ->
  num_items_type F (Z.of_nat (length coords)) = Z.of_nat (length coords) ->
  exists data entry' st',
    exportObjectCommon C object ocd_object entry st
    = (Return (addPadding F data, entry'), st')
    /\ entry_size entry' = indexEntrySize F (ocd_version st) data
    /\ Z.of_nat (length data) = object_header_size F + 8 * Z.of_nat (length coords).
Proof.
  intros F coords H4 H5 Hheader Hfits.
  unfold exportObjectCommon.
  unfold mbind, Export_bind, getState, addWarnings, modify, mret, Export_ret. cbv zeta.
  rewrite (proj2 (Z.eqb_neq _ _) H4), (proj2 (Z.eqb_neq _ _) H5).
  cbn [fst snd].
  match goal with
  | |- context [handleObjectExtras ?F0 ?o ?e] =>
      destruct (handleObjectExtras_keeps F0 o e) as [Ht Hn];
      destruct (handleObjectExtras F0 o e) as [ocd' entry1]
  end.
  cbn [fst object_type object_num_items] in Ht, Hn.
  eexists _, _, _. split; [reflexivity |]. split; [reflexivity |].
  rewrite Ht, (proj2 (Z.eqb_neq _ _) H4), (proj2 (Z.eqb_neq _ _) H5).
  fold F in Hn |- *. fold coords in Hn |- *. rewrite Hn, Hfits.
  destruct (Z.ltb_spec 0 (Z.of_nat (length coords))) as [Hsome | Hnone].
  - destruct (exportCoordinates_appends (point_flags F) coords (getSymbol object)
                (memory (image_Object F ocd') (Z.to_nat (object_header_size F))))
      as (appended & -> & Hlen).
    rewrite length_app, length_memory, Hlen. lia.
  - rewrite length_memory. lia.
Qed.

(** X17: For a point or path object, [exportObjectCommon] returns a record of
    as many bytes as the header and the coordinates take, and an index
    entry whose size is the number of coordinates when the version is
    below 11, and that byte count from version 11 on.  (The header is a
    multiple of 8 bytes long, the padding fills up to a multiple of 8,
    and the counts fit their members.) *)
Theorem point_and_path_records (C : Context) (object : Object) (ocd_object : OcdObject)
    (entry : IndexEntry) (st : Exporter) :
  let F := ctx_format C in
  let count := Z.of_nat (length (getRawCoordinateVector object)) in
  let bytes := object_header_size F + 8 * count in
  object_type ocd_object <> 4 -> object_type ocd_object <> 5 ->
  padsToEight F ->
  0 <= object_header_size F -> object_header_size F mod 8 = 0 ->
  num_items_type F count = count ->
  representable F bytes ->
  exists record entry' st',
    exportObjectCommon C object ocd_object entry st = (Return (record, entry'), st')
    /\ Z.of_nat (length record) = bytes
    /\ entry_size entry' = (if ocd_version st <? 11 then count else bytes).
Proof.
  intros F count bytes H4 H5 Hpadding Hheader Hmultiple Hitems [Hsize Hfits].
  destruct (exportObjectCommon_coordinates C object ocd_object entry st H4 H5 Hheader Hitems)
    as (data & entry' & st' & Hrun & Hentry & Hlength).
  fold F in Hrun, Hentry, Hlength. fold count in Hlength. fold bytes in Hlength.
  assert (Hpadded : Z.of_nat (length (addPadding F data)) = bytes).
  { destruct (Hpadding data) as [Hbounds Hmod].
    assert (Hbytes : bytes mod 8 = 0).
    { subst bytes. rewrite Z.add_mod, Hmultiple, Z.mul_comm, Z.mod_mul by lia.
      reflexivity. }
    pose proof (Z.div_mod (Z.of_nat (length (addPadding F data))) 8 ltac:(lia)).
    pose proof (Z.div_mod bytes 8 ltac:(lia)). lia. }
  exists (addPadding F data), entry', st'.
  split; [exact Hrun |]. split; [exact Hpadded |].
  rewrite Hentry. unfold indexEntrySize. rewrite Hpadded.
  assert (Hcount : 0 <= count) by (subst count; lia).
  rewrite (Hfits bytes) by (subst bytes; lia).
  destruct (ocd_version st <? 11); [| reflexivity].
  rewrite (Hfits (object_header_size F)) by (subst bytes; lia).
  unfold Int.size_t. rewrite Z.mod_small by (subst bytes; lia).
  replace (bytes - object_header_size F) with (count * 8) by (subst bytes; lia).
  unfold sizeof_OcdPoint32. rewrite Z.div_mul by lia.
  apply Hfits. subst bytes. lia.
Qed.

Lemma pad8_multiple (data : QByteArray) :
  (length data <= length (pad8 data) < length data + 8)%nat
  /\ Z.of_nat (length (pad8 data)) mod 8 = 0.
Proof.
  unfold pad8. rewrite length_app, length_replicate.
  pose proof (Z.mod_pos_bound (- Z.of_nat (length data)) 8 ltac:(lia)) as Hb.
  split; [lia |].
  rewrite Nat2Z.inj_add, Z2Nat.id by lia.
  rewrite Z.add_mod_idemp_r by lia.
  replace (Z.of_nat (length data) + - Z.of_nat (length data)) with 0 by lia.
  reflexivity.
Qed.

Lemma point_and_path_records_witness :
  exists record entry' st',
    exportObjectCommon (example_context 9 example_road_map) (example_path example_road 0)
      (mkOcdObject 2 301000 0 0 0 0) IndexEntry_default example_road_start
    = (Return (record, entry'), st')
    /\ Z.of_nat (length record) = 32 + 8 * 2
    /\ entry_size entry' = 2.
Proof.
  apply (point_and_path_records (example_context 9 example_road_map)
           (example_path example_road 0) (mkOcdObject 2 301000 0 0 0 0)
           IndexEntry_default example_road_start).
  - cbn. lia.
  - cbn. lia.
  - intros data. apply pad8_multiple.
  - vm_compute. discriminate.
  - reflexivity.
  - reflexivity.
  - split; [vm_compute; reflexivity |].
    intros z Hz. change (0 <= z <= 48) in Hz.
    cbn. apply IntFacts.quint16_small. lia.
Defined.

(** ** What is inserted into the symbol and object sections *)

(** Functions that leave the file under construction alone. *)
Definition sameFile (st st' : Exporter) : Prop := file st' = file st.

#[global] Instance sameFile_preorder : PreOrder sameFile.
Proof.
  split.
  - intros st. reflexivity.
  - intros st1 st2 st3 H12 H23. unfold sameFile in *. congruence.
Qed.

Lemma sameFile_setupBaseSymbol (C : Context) (symbol : Symbol) :
  preserves sameFile (setupBaseSymbol C symbol).
Proof. intros st. unfold setupBaseSymbol. now destruct (ensureUnique _ _ _ _). Qed.

Lemma sameFile_symbolNumberAt (key : nat) : preserves sameFile (symbolNumberAt key).
Proof. intros st. unfold symbolNumberAt. now destruct (symbol_numbers st !! key). Qed.

Lemma sameFile_make_duplicate (c : CombinedSymbol) (symbol : Symbol) :
  preserves sameFile (make_duplicate c symbol).
Proof. intros st. reflexivity. Qed.

Create HintDb sameFile.

#[local] Hint Resolve sameFile_setupBaseSymbol sameFile_symbolNumberAt
  sameFile_make_duplicate : sameFile.

(** One step of a proof that a member function leaves the file alone. *)
Ltac sameFile_step :=
  first
    [ solve [auto with sameFile nocore]
    | apply preserves_bind; [typeclasses eauto | | intros ?]
    | apply preserves_ret; typeclasses eauto
    | apply preserves_getState; typeclasses eauto
    | apply preserves_unreachable; typeclasses eauto
    | apply preserves_throw; typeclasses eauto
    | apply preserves_liftOption; typeclasses eauto
    | apply preserves_forEach; [typeclasses eauto | intros ?]
    | apply preserves_modify; intros ?; reflexivity
    | match goal with
      | |- preserves _ (if ?b then _ else _) => destruct b
      | |- preserves _ (match ?x with _ => _ end) => destruct x
      end ].

Ltac sameFile_steps := repeat (cbv zeta; sameFile_step).

Lemma sameFile_exportPointSymbol (C : Context) (p : PointSymbol) :
  preserves sameFile (exportPointSymbol C p).
Proof.
  unfold exportPointSymbol, exportPointSymbol_record. sameFile_steps.
Qed.

Lemma sameFile_exportAreaSymbol_record (C : Context) (a : AreaSymbol) :
  preserves sameFile (exportAreaSymbol_record C a).
Proof. unfold exportAreaSymbol_record, addWarnings. sameFile_steps. Qed.

Lemma sameFile_exportLineSymbol_record (C : Context) (l : LineSymbol) :
  preserves sameFile (exportLineSymbol_record C l).
Proof. unfold exportLineSymbol_record, addWarnings. sameFile_steps. Qed.

#[local] Hint Resolve sameFile_exportPointSymbol sameFile_exportAreaSymbol_record
  sameFile_exportLineSymbol_record : sameFile.

Lemma sameFile_exportAreaSymbol (C : Context) (a : AreaSymbol) :
  preserves sameFile (exportAreaSymbol C a).
Proof. unfold exportAreaSymbol. sameFile_steps. Qed.

Lemma sameFile_exportLineSymbol (C : Context) (l : LineSymbol) :
  preserves sameFile (exportLineSymbol C l).
Proof. unfold exportLineSymbol. sameFile_steps. Qed.

Lemma sameFile_exportTextSymbol (C : Context) (t : TextSymbol) (alignment : Z) :
  preserves sameFile (exportTextSymbol C t alignment).
Proof. unfold exportTextSymbol, addWarnings. sameFile_steps. Qed.

Lemma sameFile_adoptNumber (c : CombinedSymbol) (duplicate : Symbol) :
  preserves sameFile (adoptNumber c duplicate).
Proof. unfold adoptNumber, setSymbolNumber. sameFile_steps. Qed.

Lemma sameFile_unhandled (c : CombinedSymbol) : preserves sameFile (unhandled c).
Proof. unfold unhandled, addWarning. sameFile_steps. Qed.

#[local] Hint Resolve sameFile_exportAreaSymbol sameFile_exportLineSymbol
  sameFile_exportTextSymbol sameFile_adoptNumber sameFile_unhandled : sameFile.

Lemma sameFile_exportCombinedAreaSymbol (C : Context) (a : AreaSymbol) (l : LineSymbol) :
  preserves sameFile (exportCombinedAreaSymbol C a l).
Proof. unfold exportCombinedAreaSymbol. sameFile_steps. Qed.

Lemma sameFile_exportCombinedLineSymbol (C : Context) (main_line framing : LineSymbol)
    (double_line : option LineSymbol) :
  preserves sameFile (exportCombinedLineSymbol C main_line framing double_line).
Proof. unfold exportCombinedLineSymbol, addWarnings. sameFile_steps. Qed.

Lemma sameFile_exportObjectCommon (C : Context) (object : Object) (ocd_object : OcdObject)
    (entry : IndexEntry) :
  preserves sameFile (exportObjectCommon C object ocd_object entry).
Proof. unfold exportObjectCommon, addWarnings. sameFile_steps. Qed.

#[local] Hint Resolve sameFile_exportCombinedAreaSymbol sameFile_exportCombinedLineSymbol
  sameFile_exportObjectCommon : sameFile.

(** ** The symbol records are appended and never empty *)

(** A computation that only appends non-empty records to the symbol
    section of the file. *)
Definition insertsSymbols {A : Type} (m : Export A) : Prop :=
  forall st a st',
    m st = (Return a, st') ->
    exists records,
      file st' = set_file_symbols (file_symbols (file st) ++ records) (file st)
      /\ Forall (fun record => record <> []) records.

Lemma set_file_symbols_same (f : OcdFile) : set_file_symbols (file_symbols f ++ []) f = f.
Proof. destruct f. unfold set_file_symbols. cbn. now rewrite app_nil_r. Qed.

Lemma set_file_symbols_twice (f : OcdFile) (l r : list QByteArray) :
  set_file_symbols (file_symbols (set_file_symbols l f) ++ r) (set_file_symbols l f)
  = set_file_symbols (l ++ r) f.
Proof. reflexivity. Qed.

Lemma insertsSymbols_sameFile {A : Type} (m : Export A) :
  preserves sameFile m -> insertsSymbols m.
Proof.
  intros Hm st a st' Hrun. exists []. split; [| constructor].
  rewrite set_file_symbols_same. eapply (preserves_run sameFile); eassumption.
Qed.

Lemma insertsSymbols_bind {A B : Type} (m : Export A) (k : A -> Export B) :
  insertsSymbols m ->
  (forall a st st', m st = (Return a, st') -> insertsSymbols (k a)) ->
  insertsSymbols (m ≫= k).
Proof.
  intros Hm Hk st b st' Hrun.
  apply bind_Return in Hrun as (a & st1 & Hfirst & Hrest).
  destruct (Hm _ _ _ Hfirst) as (r1 & Hfile1 & Hr1).
  destruct (Hk a _ _ Hfirst _ _ _ Hrest) as (r2 & Hfile2 & Hr2).
  exists (r1 ++ r2). split; [| now apply Forall_app].
  rewrite Hfile2, Hfile1, set_file_symbols_twice. now rewrite app_assoc.
Qed.

Lemma insertsSymbols_insertSymbol (ocd_symbol : QByteArray) :
  ocd_symbol <> [] -> insertsSymbols (insertSymbol ocd_symbol).
Proof.
  intros Hsome st [] st' Hrun. injection Hrun as <-.
  exists [ocd_symbol]. split; [reflexivity | now constructor].
Qed.

Lemma insertsSymbols_forEach {A : Type} (body : A -> Export unit) (l : list A) :
  (forall x, insertsSymbols (body x)) -> insertsSymbols (forEach body l).
Proof.
  intros Hbody. induction l as [| x l IH]; cbn [forEach].
  - apply insertsSymbols_sameFile, preserves_ret. typeclasses eauto.
  - apply insertsSymbols_bind; [apply Hbody | intros; exact IH].
Qed.

(** The symbol structures are larger than their trailing element array,
    and the text symbol structure is not empty. *)
Definition symbolHeaders (F : Format) : Prop :=
  (sizeof_Element F < sizeof_PointSymbol F)%nat
  /\ (sizeof_Element F < sizeof_AreaSymbol F)%nat
  /\ (sizeof_Element F < sizeof_LineSymbol F)%nat
  /\ (0 < sizeof_TextSymbol F)%nat.

Lemma exportPointSymbol_nonempty (C : Context) (p : PointSymbol) (st st' : Exporter) d :
  (sizeof_Element (ctx_format C) < sizeof_PointSymbol (ctx_format C))%nat ->
  exportPointSymbol C p st = (Return d, st') -> d <> [].
Proof.
  intros Hsize H. unfold exportPointSymbol, exportPointSymbol_record in H.
  apply bind_Return in H as ([ocd data] & st1 & H & Hret).
  apply ret_Return in Hret as [<- _]. cbn [snd].
  apply bind_Return in H as (base & st2 & _ & H).
  apply bind_Return in H as (st3 & st4 & Hget & H). injection Hget as <- <-.
  apply bind_Return in H as ([n after] & st4 & Hpattern & H).
  apply ret_Return in H as [[= _ <-] _]. cbn [snd].
  unfold liftOption in Hpattern.
  destruct (exportPattern _ _ _) as [[n' after'] |] eqn:E; [| discriminate Hpattern].
  apply ret_Return in Hpattern as [[= -> ->] _].
  eapply prefix_nonempty; [eapply exportPattern_extends; exact E |].
  apply memory_nonempty. unfold header_size. lia.
Qed.

Lemma exportTextSymbol_nonempty (C : Context) (t : TextSymbol) (alignment : Z)
    (st st' : Exporter) d :
  (0 < sizeof_TextSymbol (ctx_format C))%nat ->
  exportTextSymbol C t alignment st = (Return d, st') -> d <> [].
Proof.
  intros Hsize H. unfold exportTextSymbol in H.
  apply bind_Return in H as (base & st1 & _ & H).
  apply bind_Return in H as ([] & st2 & _ & H).
  apply ret_Return in H as [<- _].
  apply memory_nonempty. lia.
Qed.

Lemma exportCombinedAreaSymbol_nonempty (C : Context) (a : AreaSymbol) (l : LineSymbol)
    (st st' : Exporter) d :
  (sizeof_Element (ctx_format C) < sizeof_AreaSymbol (ctx_format C))%nat ->
  exportCombinedAreaSymbol C a l st = (Return d, st') -> d <> [].
Proof.
  intros Hsize H. unfold exportCombinedAreaSymbol in H.
  destruct (format_version (ctx_format C) =? 8); [discriminate H |].
  apply bind_Return in H as (r & st1 & _ & H).
  apply bind_Return in H as (number & st2 & _ & H).
  apply ret_Return in H as [<- _].
  eapply prefix_nonempty; [now eexists |].
  apply memory_nonempty. unfold header_size. lia.
Qed.

Lemma exportCombinedLineSymbol_nonempty (C : Context) (main_line framing : LineSymbol)
    (double_line : option LineSymbol) (st st' : Exporter) d :
  (sizeof_Element (ctx_format C) < sizeof_LineSymbol (ctx_format C))%nat ->
  exportCombinedLineSymbol C main_line framing double_line st = (Return d, st') -> d <> [].
Proof.
  intros Hsize H. unfold exportCombinedLineSymbol in H.
  apply bind_Return in H as (r & st1 & _ & H).
  apply bind_Return in H as ([] & st2 & _ & H).
  apply ret_Return in H as [<- _].
  eapply prefix_nonempty; [now eexists |].
  apply memory_nonempty. unfold header_size. lia.
Qed.

Section SymbolRecords.

Variable C : Context.
Hypothesis headers : symbolHeaders (ctx_format C).

(** One step of a proof of [insertsSymbols]: a call that leaves the file
    alone, an insertion of a record known to be non-empty, or a step into
    the control structure. *)
Ltac inserts_step :=
  first
    [ apply insertsSymbols_sameFile; solve [sameFile_steps]
    | match goal with
      | H : exportPointSymbol _ _ _ = (Return ?d, _) |- insertsSymbols (insertSymbol ?d) =>
          apply insertsSymbols_insertSymbol;
          eapply exportPointSymbol_nonempty; [apply headers | exact H]
      | H : exportAreaSymbol _ _ _ = (Return ?d, _) |- insertsSymbols (insertSymbol ?d) =>
          apply insertsSymbols_insertSymbol;
          eapply exportAreaSymbol_nonempty; [apply headers | exact H]
      | H : exportLineSymbol _ _ _ = (Return ?d, _) |- insertsSymbols (insertSymbol ?d) =>
          apply insertsSymbols_insertSymbol;
          eapply exportLineSymbol_nonempty; [apply headers | exact H]
      | H : exportTextSymbol _ _ _ _ = (Return ?d, _) |- insertsSymbols (insertSymbol ?d) =>
          apply insertsSymbols_insertSymbol;
          eapply exportTextSymbol_nonempty; [apply headers | exact H]
      | H : exportCombinedAreaSymbol _ _ _ _ = (Return ?d, _)
        |- insertsSymbols (insertSymbol ?d) =>
          apply insertsSymbols_insertSymbol;
          eapply exportCombinedAreaSymbol_nonempty; [apply headers | exact H]
      | H : exportCombinedLineSymbol _ _ _ _ _ = (Return ?d, _)
        |- insertsSymbols (insertSymbol ?d) =>
          apply insertsSymbols_insertSymbol;
          eapply exportCombinedLineSymbol_nonempty; [apply headers | exact H]
      end
    | apply insertsSymbols_bind; [| intros ? ? ? ?]
    | apply insertsSymbols_forEach; intros ?
    | match goal with
      | |- insertsSymbols (if ?b then _ else _) => destruct b eqn:?
      | |- insertsSymbols (match ?x with _ => _ end) => destruct x eqn:?
      | |- insertsSymbols (let '(_, _) := ?x in _) => destruct x eqn:?
      end ].

Lemma insertsSymbols_exportTextSymbols (t : TextSymbol) :
  insertsSymbols (exportTextSymbols C t).
Proof.
  unfold exportTextSymbols, handle_alignment. repeat (cbv zeta; inserts_step).
Qed.

Lemma insertsSymbols_exportAreaWithBorder (c : CombinedSymbol) (area : Symbol)
    (border_symbol : LineSymbol) :
  insertsSymbols (exportAreaWithBorder C c area border_symbol).
Proof.
  unfold exportAreaWithBorder. repeat (cbv zeta; inserts_step).
Qed.

Lemma insertsSymbols_exportLineWithFraming (c : CombinedSymbol) (line0 line1 : LineSymbol)
    (line2 : option LineSymbol) :
  insertsSymbols (exportLineWithFraming C c line0 line1 line2).
Proof.
  unfold exportLineWithFraming. repeat (cbv zeta; inserts_step).
Qed.

Lemma insertsSymbols_exportTwoOrThreeParts (c : CombinedSymbol) (part0 part1 : Symbol)
    (part2 : option Symbol) :
  insertsSymbols (exportTwoOrThreeParts C c part0 part1 part2).
Proof.
  unfold exportTwoOrThreeParts.
  repeat first
    [ apply insertsSymbols_exportAreaWithBorder
    | apply insertsSymbols_exportLineWithFraming
    | cbv zeta; inserts_step ].
Qed.

Lemma insertsSymbols_exportCombinedSymbol (c : CombinedSymbol) :
  insertsSymbols (exportCombinedSymbol C c).
Proof.
  unfold exportCombinedSymbol.
  destruct (nonNullParts c) as [| part0 [| part1 [| part2 [| part3 rest]]]].
  - inserts_step.
  - apply insertsSymbols_bind; [inserts_step | intros duplicate st0 st1 _].
    apply insertsSymbols_bind.
    { destruct duplicate; inserts_step. }
    intros d st2 st3 Hexport.
    destruct (bool_decide (d = [])) eqn:Hd; [inserts_step |].
    apply bool_decide_eq_false_1 in Hd.
    apply insertsSymbols_bind; [now apply insertsSymbols_insertSymbol |].
    intros. inserts_step.
  - apply insertsSymbols_exportTwoOrThreeParts.
  - apply insertsSymbols_exportTwoOrThreeParts.
  - inserts_step.
Qed.

Lemma insertsSymbols_exportSymbol (symbol : Symbol) : insertsSymbols (exportSymbol C symbol).
Proof.
  unfold exportSymbol.
  repeat first
    [ apply insertsSymbols_exportTextSymbols
    | apply insertsSymbols_exportCombinedSymbol
    | cbv zeta; inserts_step ].
Qed.

End SymbolRecords.

(** X18: [exportSymbols] changes the file only by appending records to
    its symbol section, and every record it appends is non-empty, as the
    source asserts after each record is built: colours, strings, objects
    and the header stay as they were.  (The symbol structures of the
    format are larger than their trailing element array.) *)
Theorem symbol_records_nonempty (C : Context) (st st' : Exporter) :
  symbolHeaders (ctx_format C) ->
  exportSymbols C st = (Return tt, st') ->
  exists records,
    file st' = set_file_symbols (file_symbols (file st) ++ records) (file st)
    /\ Forall (fun record => record <> []) records.
Proof.
  intros Hheaders Hrun.
  eapply (insertsSymbols_forEach (exportSymbol C)); [| exact Hrun].
  intros symbol. now apply insertsSymbols_exportSymbol.
Qed.

Definition example_post : Symbol := SymPoint (example_point 8 302 0).

Definition example_road_and_post : Map :=
  example_map [example_road; example_post] [[example_path example_road 0]].

Lemma symbol_records_nonempty_witness :
  exists records,
    file (snd (exportSymbols (example_context 9 example_road_and_post) example_road_start))
    = set_file_symbols (file_symbols (file example_road_start) ++ records)
        (file example_road_start)
    /\ Forall (fun record => record <> []) records.
Proof.
  apply (symbol_records_nonempty (example_context 9 example_road_and_post)
           example_road_start).
  - unfold symbolHeaders. cbn. lia.
  - vm_compute. reflexivity.
Defined.

(** ** The object records carry the numbers of their symbols *)

(** [symbol_numbers[key]] as a value: 0 for a key without an entry. *)
Definition numberOf (st : Exporter) (key : nat) : Z := default 0 (symbol_numbers st !! key).

(** The symbol number in the index entry of an object: for a text object
    the number of the first text format mapping for its symbol and
    alignment, for another object the number of its symbol. *)
Definition objectSymbol (F : Format) (st : Exporter) (object : Object) : option Z :=
  match objectType object with
  | TextObject =>
      mapping_ocd_number
      <$> find (match_alignment (pointer (getSymbol object))
                  (getHorizontalAlignment (textData object)))
            (text_format_mapping st)
  | _ => Some (entry_symbol_type F (numberOf st (pointer (getSymbol object))))
  end.

(** What the encoding of an object leaves as it was: the file, the value
    of every symbol number, and the text format mappings. *)
Record quiet (st st' : Exporter) : Prop := mkQuiet {
  quiet_file : file st' = file st;
  quiet_numbers : forall key, numberOf st' key = numberOf st key;
  quiet_mapping : text_format_mapping st' = text_format_mapping st }.

#[global] Instance quiet_preorder : PreOrder quiet.
Proof.
  split.
  - intros st. now split.
  - intros st1 st2 st3 [Hf1 Hn1 Hm1] [Hf2 Hn2 Hm2]. split; [congruence | | congruence].
    intros key. now rewrite Hn2, Hn1.
Qed.

Lemma symbolNumberAt_value (key : nat) (st st' : Exporter) (number : Z) :
  symbolNumberAt key st = (Return number, st') -> number = numberOf st key /\ quiet st st'.
Proof.
  unfold symbolNumberAt, numberOf. destruct (symbol_numbers st !! key) as [n |] eqn:Hkey.
  - intros [= <- <-]. split; [reflexivity |]. reflexivity.
  - intros [= <- <-]. split; [reflexivity |]. split; try reflexivity.
    intros key'. unfold numberOf. cbn.
    destruct (decide (key = key')) as [<- | Hother].
    + now rewrite lookup_insert_eq, Hkey.
    + now rewrite lookup_insert_ne.
Qed.

Lemma quiet_exportObjectCommon (C : Context) (object : Object) (ocd_object : OcdObject)
    (entry : IndexEntry) :
  preserves quiet (exportObjectCommon C object ocd_object entry).
Proof.
  intros st. unfold exportObjectCommon.
  unfold mbind, Export_bind, getState, addWarnings, modify, mret, Export_ret. cbv zeta.
  match goal with
  | |- context [match (if ?c then ?a else ?b) with _ => _ end] =>
      destruct (if c then a else b) as [[[num_items num_text] text_data] ws]
  end.
  cbn [fst snd]. destruct (handleObjectExtras _ _ _) as [ocd_object' entry1].
  now split.
Qed.

(** [exportObjectCommon] keeps the symbol number of the entry it is given. *)
Lemma exportObjectCommon_symbol (C : Context) (object : Object) (ocd_object : OcdObject)
    (entry entry' : IndexEntry) (record : QByteArray) (st st' : Exporter) :
  exportObjectCommon C object ocd_object entry st = (Return (record, entry'), st') ->
  entry_symbol entry' = entry_symbol entry.
Proof.
  unfold exportObjectCommon.
  unfold mbind, Export_bind, getState, addWarnings, modify, mret, Export_ret. cbv zeta.
  match goal with
  | |- context [match (if ?c then ?a else ?b) with _ => _ end] =>
      destruct (if c then a else b) as [[[num_items num_text] text_data] ws]
  end.
  cbn [fst snd]. unfold handleObjectExtras.
  destruct (has_object_index_extras (ctx_format C)); intros [= _ <- _]; reflexivity.
Qed.

Section ObjectRecords.

Variable C : Context.

(** The padding of a record does not shorten it. *)
Hypothesis padding : forall data, (length data <= length (addPadding (ctx_format C) data))%nat.

(** A record as long as the object header at least, with the symbol
    number of the object in its index entry. *)
Definition objectRecord (st : Exporter) (object : Object) (record : QByteArray * IndexEntry)
  : Prop :=
  (Z.to_nat (object_header_size (ctx_format C)) <= length (fst record))%nat
  /\ objectSymbol (ctx_format C) st object = Some (entry_symbol (snd record)).

Lemma exportObjectCommon_record (object : Object) (ocd_object : OcdObject)
    (entry : IndexEntry) (r : QByteArray * IndexEntry) (st st' : Exporter) :
  exportObjectCommon C object ocd_object entry st = (Return r, st') ->
  (Z.to_nat (object_header_size (ctx_format C)) <= length (fst r))%nat
  /\ entry_symbol (snd r) = entry_symbol entry
  /\ quiet st st'.
Proof.
  intros Hrun. destruct r as [record entry']. cbn [fst snd].
  split; [| split].
  - destruct (exportObjectCommon_returns C object ocd_object entry st)
      as (data & e & st1 & Hreturns & _ & Hlength).
    rewrite Hreturns in Hrun. injection Hrun as <- _ _.
    specialize (padding data). lia.
  - eapply exportObjectCommon_symbol. exact Hrun.
  - eapply (preserves_run quiet); [apply quiet_exportObjectCommon | exact Hrun].
Qed.

Lemma quiet_objectSymbol (st st' : Exporter) (object : Object) :
  quiet st st' ->
  objectSymbol (ctx_format C) st' object = objectSymbol (ctx_format C) st object.
Proof.
  intros [_ Hnumbers Hmapping]. unfold objectSymbol.
  now rewrite Hmapping, Hnumbers.
Qed.

Lemma exportObject_record (object : Object) (st st' : Exporter) :
  exportObject C object st = (Return tt, st') ->
  exists record,
    file st' = set_file_objects (file_objects (file st) ++ [record]) (file st)
    /\ objectRecord st object record
    /\ (forall key, numberOf st' key = numberOf st key)
    /\ text_format_mapping st' = text_format_mapping st.
Proof.
  unfold exportObject. intros H.
  apply bind_Return in H as (st0 & st1 & Hget & H). injection Hget as <- <-.
  cbv zeta in H.
  match type of H with
  | context [if ?c then moveObject ?dx ?dy object else object] =>
      set (moved := if c then moveObject dx dy object else object) in H
  end.
  assert (Htype : objectType moved = objectType object)
    by (subst moved; now destruct (_ || _)).
  assert (Hsymbol : getSymbol moved = getSymbol object)
    by (subst moved; now destruct (_ || _)).
  assert (Halignment : getHorizontalAlignment (textData moved)
                       = getHorizontalAlignment (textData object)).
  { subst moved. destruct (_ || _); [| reflexivity].
    unfold moveObject, moveTextData. cbn.
    destruct (singleAnchorCoords (textData object)) as [[[[a b] c] d] e].
    now destruct (boxCoords (textData object)) as [[[p q] r] s]. }
  apply bind_Return in H as (r & st1 & Hrecord & Hinsert).
  injection Hinsert as <-.
  assert (Hr : objectRecord st object r /\ quiet st st1).
  { unfold objectRecord, objectSymbol. rewrite <- Htype, <- Hsymbol, <- Halignment.
    destruct (objectType moved).
    - unfold exportPointObject in Hrecord.
      apply bind_Return in Hrecord as (number & st2 & Hnumber & Hcommon).
      apply symbolNumberAt_value in Hnumber as [-> Hquiet].
      apply exportObjectCommon_record in Hcommon as (Hlength & Hentry & Hquiet').
      split; [| etransitivity; eassumption].
      split; [exact Hlength | now rewrite Hentry].
    - unfold exportPathObject in Hrecord.
      apply bind_Return in Hrecord as (number & st2 & Hnumber & Hcommon).
      apply symbolNumberAt_value in Hnumber as [-> Hquiet].
      apply exportObjectCommon_record in Hcommon as (Hlength & Hentry & Hquiet').
      split; [| etransitivity; eassumption].
      split; [exact Hlength | now rewrite Hentry].
    - unfold exportTextObject in Hrecord.
      apply bind_Return in Hrecord as (st0 & st2 & Hget & Hcommon).
      injection Hget as <- <-. cbv zeta in Hcommon.
      destruct (find _ (text_format_mapping st)) as [mapping |]; [| discriminate Hcommon].
      apply exportObjectCommon_record in Hcommon as (Hlength & Hentry & Hquiet').
      split; [| exact Hquiet'].
      split; [exact Hlength | now rewrite Hentry]. }
  destruct Hr as [Hr [Hfile Hnumbers Hmapping]].
  exists r. cbn [file set_file]. rewrite Hfile.
  split; [now destruct r |]. split; [exact Hr |]. split; [exact Hnumbers | exact Hmapping].
Qed.

Lemma set_file_objects_twice (f : OcdFile) (l r : list (QByteArray * IndexEntry)) :
  set_file_objects (file_objects (set_file_objects l f) ++ r) (set_file_objects l f)
  = set_file_objects (l ++ r) f.
Proof. reflexivity. Qed.

Lemma set_file_objects_same (f : OcdFile) : set_file_objects (file_objects f ++ []) f = f.
Proof. destruct f. unfold set_file_objects. cbn. now rewrite app_nil_r. Qed.

Lemma objectRecord_later (st st' : Exporter) (object : Object)
    (record : QByteArray * IndexEntry) :
  (forall key, numberOf st' key = numberOf st key) ->
  text_format_mapping st' = text_format_mapping st ->
  objectRecord st' object record -> objectRecord st object record.
Proof.
  intros Hnumbers Hmapping [Hlength Hsymbol]. split; [exact Hlength |].
  rewrite <- Hsymbol. unfold objectSymbol. now rewrite Hmapping, Hnumbers.
Qed.

Lemma exportPart_records (part : list Object) (st st' : Exporter) :
  forEach (exportObject C) part st = (Return tt, st') ->
  exists records,
    file st' = set_file_objects (file_objects (file st) ++ records) (file st)
    /\ Forall2 (objectRecord st) part records
    /\ (forall key, numberOf st' key = numberOf st key)
    /\ text_format_mapping st' = text_format_mapping st.
Proof.
  revert st. induction part as [| object part IH]; intros st H.
  - apply ret_Return in H as [_ <-]. exists [].
    rewrite set_file_objects_same. repeat split; constructor.
  - apply forEach_cons_Return in H as (st1 & Hfirst & Hrest).
    apply exportObject_record in Hfirst as (record & Hfile1 & Hrecord & Hnumbers1 & Hmapping1).
    apply IH in Hrest as (records & Hfile & Hrecords & Hnumbers & Hmapping).
    exists (record :: records). split; [| split; [| split]].
    + rewrite Hfile, Hfile1, set_file_objects_twice. now rewrite <- app_assoc.
    + constructor; [exact Hrecord |].
      eapply Forall2_impl; [exact Hrecords |].
      intros o r. now apply objectRecord_later.
    + intros key. now rewrite Hnumbers, Hnumbers1.
    + congruence.
Qed.

Lemma exportParts_records (all_parts : list (list Object)) (st st' : Exporter) :
  forEach (fun part => forEach (exportObject C) part) all_parts st = (Return tt, st') ->
  exists records,
    file st' = set_file_objects (file_objects (file st) ++ records) (file st)
    /\ Forall2 (objectRecord st) (concat all_parts) records
    /\ (forall key, numberOf st' key = numberOf st key)
    /\ text_format_mapping st' = text_format_mapping st.
Proof.
  revert st. induction all_parts as [| part all_parts IH]; intros st H.
  - apply ret_Return in H as [_ <-]. exists [].
    rewrite set_file_objects_same. repeat split; constructor.
  - apply forEach_cons_Return in H as (st1 & Hfirst & Hrest).
    apply exportPart_records in Hfirst as (r1 & Hfile1 & Hr1 & Hnumbers1 & Hmapping1).
    apply IH in Hrest as (r2 & Hfile & Hr2 & Hnumbers & Hmapping).
    exists (r1 ++ r2). split; [| split; [| split]].
    + rewrite Hfile, Hfile1, set_file_objects_twice. now rewrite <- app_assoc.
    + cbn [concat]. apply Forall2_app; [exact Hr1 |].
      eapply Forall2_impl; [exact Hr2 |].
      intros o r. now apply objectRecord_later.
    + intros key. now rewrite Hnumbers, Hnumbers1.
    + congruence.
Qed.

End ObjectRecords.

(** X19: [exportObjects] changes the file only by appending to its object
    section one record per object of the map, in the order of the parts
    and of the objects in them.  Each record is at least as long as the
    object header, and its index entry carries the number that the symbol
    number table holds for the symbol of the object when the loop starts
    (0 when it holds none), or, for a text object, the number of the first
    text format mapping for its symbol and alignment.  (The padding of the
    format does not shorten a record.) *)
Theorem object_records (C : Context) (st st' : Exporter) :
  (forall data, (length data <= length (addPadding (ctx_format C) data))%nat) ->
  exportObjects C st = (Return tt, st') ->
  exists records,
    file st' = set_file_objects (file_objects (file st) ++ records) (file st)
    /\ Forall2 (objectRecord C st) (concat (parts (ctx_map C))) records.
Proof.
  intros Hpadding Hrun.
  destruct (exportParts_records C Hpadding _ _ _ Hrun) as (records & Hfile & Hrecords & _).
  now exists records.
Qed.

Lemma object_records_witness :
  exists records,
    file (snd (exportObjects example_road_context example_road_symbols_done))
    = set_file_objects (file_objects (file example_road_symbols_done) ++ records)
        (file example_road_symbols_done)
    /\ Forall2 (objectRecord example_road_context example_road_symbols_done)
         (concat (parts (ctx_map example_road_context))) records.
Proof.
  apply (object_records example_road_context example_road_symbols_done).
  - intros data. cbn. unfold pad8. rewrite length_app. lia.
  - vm_compute. reflexivity.
Defined.

(** ** The alignment variants of a text symbol *)

Definition sameMapping (st st' : Exporter) : Prop :=
  text_format_mapping st' = text_format_mapping st.

#[global] Instance sameMapping_preorder : PreOrder sameMapping.
Proof.
  split.
  - intros st. reflexivity.
  - intros st1 st2 st3 H12 H23. unfold sameMapping in *. congruence.
Qed.

Lemma sameMapping_exportTextSymbol (C : Context) (t : TextSymbol) (alignment : Z) :
  preserves sameMapping (exportTextSymbol C t alignment).
Proof.
  unfold exportTextSymbol, addWarnings.
  apply preserves_bind; [typeclasses eauto | | intros base].
  { intros st. unfold setupBaseSymbol. now destruct (ensureUnique _ _ _ _). }
  cbv zeta. apply preserves_bind; [typeclasses eauto | | intros _].
  - apply preserves_modify. intros st. reflexivity.
  - apply preserves_ret. typeclasses eauto.
Qed.

(** The mappings and records that the loop over the objects has added
    when it has visited the objects [visited]. *)
Definition variants (key : nat) (before after : Exporter) (visited : list Object) : Prop :=
  exists mappings records,
    text_format_mapping after = text_format_mapping before ++ mappings
    /\ file after
       = set_file_symbols (file_symbols (file before) ++ records) (file before)
    /\ Forall (fun mapping => mapping_symbol mapping = key) mappings
    /\ NoDup (mapping_alignment <$> mappings)
    /\ (forall alignment,
          alignment ∈ mapping_alignment <$> mappings
          <-> alignment ∈ (fun o => getHorizontalAlignment (textData o)) <$> visited)
    /\ length records = length mappings.

Lemma existsb_match_alignment (key : nat) (alignment : Z) (l : list TextFormatMapping) :
  Forall (fun mapping => mapping_symbol mapping = key) l ->
  existsb (match_alignment key alignment) l = true
  <-> alignment ∈ mapping_alignment <$> l.
Proof.
  intros Hkey. rewrite existsb_exists, list_elem_of_fmap. split.
  - intros (mapping & Hin & Hmatch). exists mapping.
    unfold match_alignment in Hmatch. apply andb_true_iff in Hmatch as [_ Halign].
    apply Z.eqb_eq in Halign. split; [now symmetry | now apply list_elem_of_In].
  - intros (mapping & -> & Hin). exists mapping.
    split; [now apply list_elem_of_In |].
    unfold match_alignment. rewrite Forall_forall in Hkey.
    rewrite (Hkey mapping Hin), bool_decide_eq_true_2 by reflexivity.
    apply Z.eqb_refl.
Qed.

Lemma handle_alignment_variants (C : Context) (t : TextSymbol) (before : Exporter)
    (object : Object) (visited : list Object) (st st' : Exporter) :
  variants (address (text_base t)) before st visited ->
  handle_alignment C t (length (text_format_mapping before)) object st = (Return tt, st') ->
  variants (address (text_base t)) before st' (visited ++ [object]).
Proof.
  intros (new & records & Hmapping & Hfile & Hkey & Hdistinct & Halignments & Hcount) H.
  unfold handle_alignment in H. cbv zeta in H.
  apply bind_Return in H as (st0 & st1 & Hget & H). injection Hget as <- <-.
  rewrite Hmapping, drop_app_length in H.
  destruct (existsb _ new) eqn:Hknown.
  - apply ret_Return in H as [_ <-].
    apply existsb_match_alignment in Hknown; [| exact Hkey].
    exists new, records. repeat (split; [assumption |]).
    split; [| exact Hcount].
    intros alignment. rewrite fmap_app, elem_of_app, <- Halignments.
    cbn. rewrite list_elem_of_singleton. split; [now left |].
    intros [Hin | ->]; assumption.
  - assert (Hfresh : getHorizontalAlignment (textData object) ∉ mapping_alignment <$> new).
    { intros Hin. apply (proj2 (existsb_match_alignment _ _ _ Hkey)) in Hin. congruence. }
    apply bind_Return in H as (ocd_symbol & st1 & Hexport & H).
    apply bind_Return in H as ([] & st2 & Hinsert & H).
    apply bind_Return in H as (number & st3 & Hnumber & H).
    injection H as <-. injection Hinsert as <-.
    pose proof (preserves_run sameFile _ _ _ _ (sameFile_exportTextSymbol C t _) Hexport)
      as Hfile1.
    pose proof (preserves_run sameMapping _ _ _ _ (sameMapping_exportTextSymbol C t _) Hexport)
      as Hmapping1.
    unfold sameFile in Hfile1. unfold sameMapping in Hmapping1.
    assert (Hst3 : file st3 = set_file_symbols (file_symbols (file st1) ++ [ocd_symbol])
                               (file st1)
                   /\ text_format_mapping st3 = text_format_mapping st1).
    { unfold symbolNumberAt in Hnumber.
      destruct (symbol_numbers _ !! _); injection Hnumber as _ <-; now split. }
    destruct Hst3 as [Hfile3 Hmapping3].
    exists (new ++ [mkTextFormatMapping (address (text_base t))
                      (getHorizontalAlignment (textData object)) number]),
           (records ++ [ocd_symbol]).
    split; [| split; [| split; [| split; [| split]]]].
    + cbn. rewrite Hmapping3, Hmapping1, Hmapping. now rewrite app_assoc.
    + cbn. rewrite Hfile3, Hfile1, Hfile, set_file_symbols_twice. now rewrite app_assoc.
    + apply Forall_app. split; [exact Hkey | now constructor].
    + rewrite fmap_app. apply NoDup_app. split; [exact Hdistinct |].
      split; [| apply NoDup_singleton].
      intros a Ha Hlast. cbn in Hlast. apply list_elem_of_singleton in Hlast as ->.
      now apply Hfresh.
    + intros alignment. rewrite !fmap_app, !elem_of_app, Halignments. reflexivity.
    + rewrite !length_app, Hcount. reflexivity.
Qed.

Lemma handle_alignment_loop (C : Context) (t : TextSymbol) (before : Exporter)
    (objects visited : list Object) (st st' : Exporter) :
  variants (address (text_base t)) before st visited ->
  forEach (handle_alignment C t (length (text_format_mapping before))) objects st
  = (Return tt, st') ->
  variants (address (text_base t)) before st' (visited ++ objects).
Proof.
  revert visited st. induction objects as [| object objects IH]; intros visited st Hst H.
  - apply ret_Return in H as [_ <-]. now rewrite app_nil_r.
  - apply forEach_cons_Return in H as (st1 & Hfirst & Hrest).
    replace (visited ++ object :: objects) with ((visited ++ [object]) ++ objects)
      by now rewrite <- app_assoc.
    eapply IH; [| exact Hrest].
    eapply handle_alignment_variants; eassumption.
Qed.

(** X20: The export of a text symbol appends one text format mapping for
    each horizontal alignment that occurs among the objects which use the
    symbol, each for this symbol and no alignment twice, and one symbol
    record for each of these mappings, or a single record when no object
    uses the symbol.  So every object that uses the symbol finds a mapping
    for its alignment afterwards, as [exportTextObject] asserts. *)
Theorem text_symbol_variants (C : Context) (t : TextSymbol) (st st' : Exporter) :
  let key := address (text_base t) in
  let users := objectsWithSymbol (ctx_map C) key in
  exportTextSymbols C t st = (Return tt, st') ->
  exists mappings records,
    text_format_mapping st' = text_format_mapping st ++ mappings
    /\ file st' = set_file_symbols (file_symbols (file st) ++ records) (file st)
    /\ Forall (fun mapping => mapping_symbol mapping = key) mappings
    /\ NoDup (mapping_alignment <$> mappings)
    /\ (forall alignment,
          alignment ∈ mapping_alignment <$> mappings
          <-> alignment ∈ (fun o => getHorizontalAlignment (textData o)) <$> users)
    /\ length records = Nat.max 1 (length mappings)
    /\ Forall (fun o =>
                 is_Some (find (match_alignment key (getHorizontalAlignment (textData o)))
                            (text_format_mapping st'))) users.
Proof.
  intros key users H. unfold exportTextSymbols in H.
  apply bind_Return in H as (st0 & st1 & Hget & H). injection Hget as <- <-.
  cbv zeta in H.
  apply bind_Return in H as ([] & st1 & Hloop & H).
  apply (handle_alignment_loop C t st _ []) in Hloop.
  2: { exists [], []. rewrite app_nil_r, set_file_symbols_same.
       split; [reflexivity |]. split; [reflexivity |].
       split; [apply Forall_nil_2 |]. split; [apply NoDup_nil_2 |].
       split; [intros alignment; reflexivity | reflexivity]. }
  destruct Hloop as (new & records & Hmapping & Hfile & Hkey & Hdistinct & Halignments
                     & Hcount).
  cbn [app] in Halignments. fold key users in Halignments, Hkey.
  apply bind_Return in H as (st2 & st3 & Hget & H). injection Hget as <- <-.
  assert (Hfound : forall st2, text_format_mapping st2 = text_format_mapping st ++ new ->
            Forall (fun o =>
                      is_Some (find (match_alignment key
                                       (getHorizontalAlignment (textData o)))
                                 (text_format_mapping st2))) users).
  { intros st2 ->. apply Forall_forall. intros o Ho.
    assert (Hin : getHorizontalAlignment (textData o) ∈ mapping_alignment <$> new).
    { apply Halignments, list_elem_of_fmap. now exists o. }
    apply (proj2 (existsb_match_alignment _ _ _ Hkey)) in Hin.
    apply existsb_exists in Hin as (mapping & Hin & Hmatch).
    destruct (find _ (text_format_mapping st ++ new)) as [found |] eqn:Hfind;
      [now eexists |].
    exfalso. eapply find_none in Hfind; [| apply in_or_app; right; exact Hin].
    congruence. }
  rewrite Hmapping, length_app in H.
  destruct new as [| mapping new].
  - rewrite bool_decide_eq_true_2 in H by (cbn; lia).
    apply bind_Return in H as (ocd_symbol & st2 & Hexport & H). injection H as <-.
    pose proof (preserves_run sameFile _ _ _ _ (sameFile_exportTextSymbol C t _) Hexport)
      as Hfile1.
    pose proof (preserves_run sameMapping _ _ _ _ (sameMapping_exportTextSymbol C t _) Hexport)
      as Hmapping1.
    unfold sameFile in Hfile1. unfold sameMapping in Hmapping1.
    exists [], (records ++ [ocd_symbol]).
    split; [cbn; now rewrite Hmapping1 |].
    split; [cbn; rewrite Hfile1, Hfile, set_file_symbols_twice; now rewrite app_assoc |].
    split; [constructor |]. split; [constructor |]. split; [exact Halignments |].
    split; [rewrite length_app, Hcount; reflexivity |].
    apply Hfound. cbn. now rewrite Hmapping1.
  - rewrite bool_decide_eq_false_2 in H by (cbn; lia).
    apply ret_Return in H as [_ <-].
    exists (mapping :: new), records.
    repeat (split; [first [assumption | cbn in *; lia] |]).
    now apply Hfound.
Qed.

(** A text symbol used by three objects, two of them centred. *)
Definition example_label : TextSymbol :=
  mkTextSymbol (example_base 9 401 0 "Label") None 0 false false.

Definition example_label_object (alignment : Z) : Object :=
  mkObject TextObject (Some (SymText example_label)) [] MapCoord_default MapCoord_default 0
    (mkTextData "A" alignment true 1
       (MapCoord_default, MapCoord_default, MapCoord_default, MapCoord_default,
        MapCoord_default)
       (MapCoord_default, MapCoord_default, MapCoord_default, MapCoord_default)).

Definition example_label_map : Map :=
  example_map [SymText example_label]
    [[example_label_object 1; example_label_object 0; example_label_object 1]].

Lemma text_symbol_variants_witness :
  exists mappings records,
    text_format_mapping
      (snd (exportTextSymbols (example_context 9 example_label_map) example_label
              example_road_start))
    = text_format_mapping example_road_start ++ mappings
    /\ file (snd (exportTextSymbols (example_context 9 example_label_map) example_label
                    example_road_start))
       = set_file_symbols (file_symbols (file example_road_start) ++ records)
           (file example_road_start)
    /\ Forall (fun mapping => mapping_symbol mapping = 9%nat) mappings
    /\ NoDup (mapping_alignment <$> mappings)
    /\ (forall alignment,
          alignment ∈ mapping_alignment <$> mappings
          <-> alignment ∈ (fun o => getHorizontalAlignment (textData o))
                          <$> objectsWithSymbol example_label_map 9)
    /\ length records = Nat.max 1 (length mappings)
    /\ Forall (fun o =>
                 is_Some (find (match_alignment 9 (getHorizontalAlignment (textData o)))
                            (text_format_mapping
                               (snd (exportTextSymbols (example_context 9 example_label_map)
                                       example_label example_road_start)))))
         (objectsWithSymbol example_label_map 9).
Proof.
  apply (text_symbol_variants (example_context 9 example_label_map) example_label
           example_road_start).
  vm_compute. reflexivity.
Defined.
